(** * WorkerRenderService: a shallow embedding of the render pipeline

    The development follows [WorkerRenderService] (request validation,
    timed downloads, asset resolution, render-plan building, the polling
    loop around the render collaborator and the response-mode branch).

    Conventions.
    - A JavaScript string is the list of its UTF-16 code units ([jsstring]).
    - A JavaScript number that the service only uses as an integer
      (millisecond durations, frame counts, HTTP statuses, clock readings)
      is a [Z]; [NaN] results of [parseInt] are [None].  This is exact for
      the integers that a number holds exactly, those below 2^53 in
      absolute value.  The frame arithmetic of [buildRenderPlan] is also
      given on binary64 numbers ([durationFrames64], [totalFrames64]): on
      whole-millisecond durations with [d * 30 < 2^52] the two agree
      ([durationFrames64_exact], [totalFrames64_exact],
      [sumFrames64_exact]); outside of these they can differ, and the
      statements about frame counts carry this range.
    - Exceptions are values of [Thrown]; effectful code lives in the
      state-and-exception monad [M] over an explicit [State], with every
      answer of the outside world supplied by an [Env]. *)

From Equations Require Import Equations.
From Stdlib Require Import ZArith NArith Lia Ascii String DecimalString QArith.
From Stdlib Require Import SpecFloat.
From Stdlib Require Strings.Byte DecimalPos.
From stdpp Require Import base list.

#[local] Open Scope string_scope.
#[local] Open Scope list_scope.
#[local] Open Scope Z_scope.

(* ===================================================================== *)
(** * JavaScript strings                                                   *)
(* ===================================================================== *)

Module Js.

Abbreviation jsstring := (list N).

(** Code units of an ASCII literal. *)
Fixpoint lit (s : string) : jsstring :=
  match s with
  | EmptyString => []
  | String a s' => N_of_ascii a :: lit s'
  end.

(** [String(n)] / template interpolation of an integer. *)
Definition numToString (z : Z) : jsstring :=
  lit (NilZero.string_of_int (Z.to_int z)).

(** ECMAScript [WhiteSpace] and [LineTerminator] code units, the set that
    [String.prototype.trim] and [parseInt] skip. *)
Definition isWhiteSpace (u : N) : bool :=
  ((9 <=? u) && (u <=? 13) || (u =? 32) || (u =? 160) || (u =? 0x1680)
   || (0x2000 <=? u) && (u <=? 0x200A)
   || (u =? 0x2028) || (u =? 0x2029) || (u =? 0x202F) || (u =? 0x205F)
   || (u =? 0x3000) || (u =? 0xFEFF))%N.

Fixpoint trimStart (s : jsstring) : jsstring :=
  match s with
  | u :: rest => if isWhiteSpace u then trimStart rest else s
  | [] => []
  end.

Definition trimEnd (s : jsstring) : jsstring := rev (trimStart (rev s)).

(** [s.trim()] *)
Definition trim (s : jsstring) : jsstring := trimEnd (trimStart s).

(** [s.split(sep)] for a one-code-unit separator: every occurrence cuts,
    and the empty string yields one empty segment. *)
Fixpoint split (sep : N) (s : jsstring) : list jsstring :=
  match s with
  | [] => [[]]
  | u :: rest =>
      if (u =? sep)%N then [] :: split sep rest
      else match split sep rest with
           | seg :: segs => (u :: seg) :: segs
           | [] => [[u]]
           end
  end.

Definition isDigit (u : N) : bool := ((48 <=? u) && (u <=? 57))%N.

(** Longest prefix of decimal digits. *)
Fixpoint digitPrefix (s : jsstring) : jsstring :=
  match s with
  | u :: rest => if isDigit u then u :: digitPrefix rest else []
  | [] => []
  end.

Definition digitsValue (ds : jsstring) : Z :=
  fold_left (fun acc u => acc * 10 + (Z.of_N u - 48)) ds 0.

(** [parseInt(s, 10)]: leading white space is skipped, one sign is read,
    then the longest run of decimal digits; anything after it is ignored.
    No digit at all gives [NaN], here [None].  The result is the integer
    that the digits denote; JavaScript returns the number nearest to it,
    which is this integer when it is below 2^53 in absolute value. *)
Definition parseInt (s : jsstring) : option Z :=
  let t := trimStart s in
  let '(sign, body) :=
    match t with
    | u :: rest =>
        if (u =? 45)%N then (-1, rest)
        else if (u =? 43)%N then (1, rest)
        else (1, t)
    | [] => (1, t)
    end in
  match digitPrefix body with
  | [] => None
  | ds => Some (sign * digitsValue ds)
  end.

(** Truthiness of a string: non-empty. *)
Definition truthy (s : jsstring) : bool :=
  match s with [] => false | _ => true end.

(** [path.join(dir, file)] of Node on a POSIX system: the non-empty
    arguments are joined with ['/'] and the result is normalised.

    [normalizeSegments] is [normalizeString] on the segments between the
    slashes, with the segments kept so far in [res], last first: empty
    and ['.'] segments disappear; a ['..'] segment removes the segment
    before it, unless there is none or it is itself ['..'], in which
    case it is kept in a relative path and dropped in an absolute one. *)
Definition isCurrentDir (seg : jsstring) : bool := bool_decide (seg = [46%N]).
Definition isParentDir (seg : jsstring) : bool := bool_decide (seg = [46%N; 46%N]).

Fixpoint normalizeSegments (allowAboveRoot : bool) (segs res : list jsstring)
    : list jsstring :=
  match segs with
  | [] => rev res
  | seg :: rest =>
      if bool_decide (seg = []) || isCurrentDir seg then
        normalizeSegments allowAboveRoot rest res
      else if isParentDir seg then
        match res with
        | top :: res' =>
            if isParentDir top then
              normalizeSegments allowAboveRoot rest
                (if allowAboveRoot then seg :: res else res)
            else normalizeSegments allowAboveRoot rest res'
        | [] =>
            normalizeSegments allowAboveRoot rest (if allowAboveRoot then [seg] else [])
        end
      else normalizeSegments allowAboveRoot rest (seg :: res)
  end.

Fixpoint joinSegments (segs : list jsstring) : jsstring :=
  match segs with
  | [] => []
  | [seg] => seg
  | seg :: rest => seg ++ 47%N :: joinSegments rest
  end.

(** [path.normalize(path)]: a leading and a trailing ['/'] are kept. *)
Definition path_normalize (path : jsstring) : jsstring :=
  match path with
  | [] => lit "."
  | first :: _ =>
      let isAbsolute := (first =? 47)%N in
      let trailingSeparator :=
        match last path with Some u => (u =? 47)%N | None => false end in
      match normalizeSegments (negb isAbsolute) (split 47 path) [] with
      | [] => if isAbsolute then lit "/" else if trailingSeparator then lit "./" else lit "."
      | segs =>
          (if isAbsolute then lit "/" else [])
          ++ joinSegments segs ++ (if trailingSeparator then lit "/" else [])
      end
  end.

Definition path_join (dir file : jsstring) : jsstring :=
  match dir, file with
  | [], [] => lit "."
  | [], _ => path_normalize file
  | _, [] => path_normalize dir
  | _, _ => path_normalize (dir ++ lit "/" ++ file)
  end.

End Js.
Import Js.

(* ===================================================================== *)
(** * Text sanitisation                                                    *)
(* ===================================================================== *)

(** The class [[\u0000-\u001F\u007F-\u009F]]. *)
Definition isControlUnit (u : N) : bool :=
  ((u <=? 0x1F) || (0x7F <=? u) && (u <=? 0x9F))%N.

Definition isHighSurrogate (u : N) : bool := ((0xD800 <=? u) && (u <=? 0xDBFF))%N.
Definition isLowSurrogate (u : N) : bool := ((0xDC00 <=? u) && (u <=? 0xDFFF))%N.

(** [.replace(/[\u0000-\u001F\u007F-\u009F]/g, '')]: without the [u] flag
    the pattern is matched code unit by code unit. *)
Definition stripControl (s : jsstring) : jsstring :=
  filter (fun u => isControlUnit u = false) s.

(** [.replace(/[^\u0000-\uFFFF]/gu, '')]: with the [u] flag the string is
    read code point by code point; a high surrogate directly followed by
    a low surrogate is one code point above U+FFFF and is removed, any
    other code unit (a lone surrogate included) is a code point of the
    range and stays. *)
Fixpoint stripAstral (s : jsstring) : jsstring :=
  match s with
  | [] => []
  | hi :: rest =>
      match rest with
      | lo :: rest' =>
          if isHighSurrogate hi && isLowSurrogate lo then stripAstral rest'
          else hi :: stripAstral rest
      | [] => [hi]
      end
  end.

Definition sanitizeText (text : jsstring) : jsstring :=
  stripAstral (stripControl text).

(** ** Code points

    The statements about [sanitizeText] speak of code points.  A text is
    a list of Unicode scalar values and [utf16] is its encoding. *)

Definition isScalar (c : N) : bool :=
  ((c <? 0x110000) && negb ((0xD800 <=? c) && (c <=? 0xDFFF)))%N.

Definition utf16_1 (c : N) : jsstring :=
  if (c <? 0x10000)%N then [c]
  else [0xD800 + (c - 0x10000) / 0x400; 0xDC00 + (c - 0x10000) mod 0x400]%N.

Definition utf16 (cps : list N) : jsstring := concat (map utf16_1 cps).

(** General category Cc: U+0000..U+001F and U+007F..U+009F. *)
Definition isControl (c : N) : bool := isControlUnit c.

(** Outside the Basic Multilingual Plane. *)
Definition isAstral (c : N) : bool := (0xFFFF <? c)%N.

(** General category Cf (format), Unicode 15. *)
Definition isFormat (c : N) : bool :=
  ((c =? 0xAD) || (0x600 <=? c) && (c <=? 0x605) || (c =? 0x61C) || (c =? 0x6DD)
   || (c =? 0x70F) || (0x890 <=? c) && (c <=? 0x891) || (c =? 0x8E2)
   || (c =? 0x180E) || (0x200B <=? c) && (c <=? 0x200F)
   || (0x202A <=? c) && (c <=? 0x202E) || (0x2060 <=? c) && (c <=? 0x2064)
   || (0x2066 <=? c) && (c <=? 0x206F) || (c =? 0xFEFF)
   || (0xFFF9 <=? c) && (c <=? 0xFFFB) || (c =? 0x110BD) || (c =? 0x110CD)
   || (0x13430 <=? c) && (c <=? 0x1343F) || (0x1BCA0 <=? c) && (c <=? 0x1BCA3)
   || (0x1D173 <=? c) && (c <=? 0x1D17A) || (c =? 0xE0001)
   || (0xE0020 <=? c) && (c <=? 0xE007F))%N.

(** What the code keeps: everything but controls and astral code points. *)
Definition keptBySanitize (c : N) : bool := negb (isControl c) && negb (isAstral c).

(** What the specification's sentence keeps: it also drops format code
    points. *)
Definition keptBySpec (c : N) : bool :=
  negb (isControl c) && negb (isFormat c) && negb (isAstral c).

(* ===================================================================== *)
(** * Exceptions                                                           *)
(* ===================================================================== *)

(** A thrown value: an [Error] instance with its [name] and [message], or
    any other value, kept as its [String(err)] rendering. *)
Inductive Thrown : Type :=
| JsError (name message : jsstring)
| JsValue (rendering : jsstring).

Definition Error (message : jsstring) : Thrown := JsError (lit "Error") message.
Definition TypeError (message : jsstring) : Thrown := JsError (lit "TypeError") message.
Definition AbortError : Thrown :=
  JsError (lit "AbortError") (lit "This operation was aborted").

Inductive Res (A : Type) : Type :=
| Ok (a : A)
| Throw (e : Thrown).
Arguments Ok {A} a.
Arguments Throw {A} e.

(** [normalizeError(err).message] *)
Definition normalizeError (err : Thrown) : jsstring :=
  match err with
  | JsError _ message => message
  | JsValue rendering => rendering
  end.

(** [assert(condition, message)] *)
Definition assert (condition : bool) (message : jsstring) : Res unit :=
  if condition then Ok tt else Throw (Error message).

Record Resolution := { width : Z; height : Z }.

Definition parseResolution (resolution : jsstring) : Res Resolution :=
  let parts := split 120 resolution in
  if negb (length parts =? 2)%nat then
    Throw (Error (lit "Invalid resolution format: " ++ resolution
                  ++ lit ". Expected " ++ [34%N] ++ lit "WxH" ++ [34%N]))
  else
    let width := parseInt (nth 0 parts []) in
    let height := parseInt (nth 1 parts []) in
    match width, height with
    | Some width, Some height => Ok {| width := width; height := height |}
    | _, _ => Throw (Error (lit "Invalid resolution values: " ++ resolution))
    end.


(* ===================================================================== *)
(** * Data model                                                           *)
(* ===================================================================== *)

Definition Buffer : Type := list Byte.byte.

(** An absent ([undefined] or [null]) property is [None]. *)

Module WorkerScene.
Record t := mk {
  text : jsstring;
  duration : Z;                        (* whole milliseconds *)
  searchTerms : option (list jsstring)
}.
End WorkerScene.

Module WorkerAsset.
Record t := mk {
  searchTerms : jsstring;
  videoUrl : option jsstring           (* may be null *)
}.
End WorkerAsset.

Module WorkerConfig.
Record t := mk {
  resolution : jsstring;
  tone : jsstring;
  platform : jsstring;
  ttsUrl : jsstring;
  assets : list WorkerAsset.t
}.
End WorkerConfig.

Module WorkerNarrative.
Record t := mk {
  summaryId : option jsstring;
  stylePackId : option jsstring
}.
End WorkerNarrative.

(** The request as it arrives from the HTTP body: [validateRequest] tests
    [scenes] and [config] for presence, so both may be absent here. *)
Module ShortVideoRenderRequest.
Record t := mk {
  scenes : option (list WorkerScene.t);
  config : option WorkerConfig.t;
  narrative : option WorkerNarrative.t
}.
End ShortVideoRenderRequest.

Module ResolvedAsset.
Record t := mk {
  searchTerms : jsstring;
  videoUrl : option jsstring;
  localPath : option jsstring          (* path of the downloaded temp file *)
}.
End ResolvedAsset.

Module InternalSceneRenderPlan.
Record t := mk {
  id : jsstring;
  startFrame : Z;
  durationInFrames : Z;
  duration : Z;                        (* milliseconds *)
  text : jsstring;
  assetPath : option jsstring;
  searchTerms : list jsstring
}.
End InternalSceneRenderPlan.

Module InternalRenderPlan.
Record t := mk {
  width : Z;
  height : Z;
  fps : Z;
  scenes : list InternalSceneRenderPlan.t;
  audioBuffer : Buffer;
  tone : jsstring;
  platform : jsstring
}.
End InternalRenderPlan.

(** The fields of the service configuration that the class reads. *)
Module Config.
Record t := mk {
  responseMode : jsstring;
  audioDownloadTimeoutMs : Z;
  assetDownloadTimeoutMs : Z;
  tempDirPath : jsstring
}.
End Config.

(** What [renderVideo] resolves to: [Buffer | ShortVideoUrlResponse]. *)
Inductive RenderResponse : Type :=
| BinaryResponse (videoBuffer : Buffer)
| UrlResponse (videoUrl : jsstring).

(** A scene in the format handed to [ShortCreator.addToQueue]. *)
Module SceneInput.
Record t := mk {
  text : jsstring;
  searchTerms : list jsstring;
  audioBuffer : option Buffer;
  audioDuration : option Q             (* seconds *)
}.
End SceneInput.

(* ===================================================================== *)
(** * The outside world                                                    *)
(* ===================================================================== *)

(** Each download and each file write of one [renderVideo] call is issued
    from one place of the code, at most once per asset position; the
    place names the call. *)
Inductive FetchSite : Type := TtsAudio | AssetAt (i : nat).
Inductive WriteSite : Type := AssetFile (i : nat) | VideoFile.

(** How [fetch] followed by [response.arrayBuffer()] ends.  A fired
    timeout is [FetchRejected AbortError]. *)
Inductive FetchOutcome : Type :=
| FetchResolved (httpStatus : Z) (body : Res Buffer)
| FetchRejected (err : Thrown).

Inductive LogLevel : Type := LogInfo | LogWarn | LogError.

Inductive Event : Type :=
| EvLog (level : LogLevel) (fields : list (string * jsstring)) (msg : jsstring)
| EvFetch (url : jsstring) (timeoutMs : Z)
| EvWriteFile (path : jsstring) (data : Buffer)
| EvAddToQueue (scenes : list SceneInput.t)
| EvStatus (videoId : jsstring)
| EvGetVideo (videoId : jsstring)
| EvSleep (ms : Z).

(** A network call is a [fetch]. *)
Definition isNetworkCall (e : Event) : bool :=
  match e with EvFetch _ _ => true | _ => false end.

(** The answers of the collaborators.  [ShortCreator], [fetch], [fs] and
    the timers are not part of the service; the service is verified for
    every [Env]. *)
Record Env := {
  fetch : FetchSite -> FetchOutcome;
  writeFile : WriteSite -> option Thrown;    (* [Some e]: the write rejects with [e] *)
  random36 : nat -> jsstring;                (* k-th [Math.random().toString(36).substring(2, 8)] *)
  addToQueue : Res jsstring;                 (* the video id, or a throw *)
  status : nat -> jsstring;                  (* what the k-th [status(videoId)] call returns *)
  getVideo : Res Buffer;
  lateness : nat -> N                        (* how late the k-th one-second timer fires, ms *)
}.

Record State := {
  now : Z;                  (* [Date.now()] *)
  draws : nat;              (* random suffixes drawn so far *)
  polls : nat;              (* [status] calls made so far *)
  timers : nat;             (* one-second timers awaited so far *)
  events : list Event       (* effects performed so far, oldest first *)
}.

Definition emit (e : Event) (s : State) : State :=
  {| now := now s; draws := draws s; polls := polls s; timers := timers s;
     events := events s ++ [e] |}.

(* ===================================================================== *)
(** * The monad of the service                                             *)
(* ===================================================================== *)

Definition M (A : Type) : Type := State -> Res A * State.

Definition ret {A} (a : A) : M A := fun s => (Ok a, s).

Definition throw {A} (e : Thrown) : M A := fun s => (Throw e, s).

Definition bind {A B} (m : M A) (k : A -> M B) : M B :=
  fun s => match m s with
           | (Ok a, s') => k a s'
           | (Throw e, s') => (Throw e, s')
           end.

(** [try { m } catch (err) { handler err }] *)
Definition try_catch {A} (m : M A) (handler : Thrown -> M A) : M A :=
  fun s => match m s with
           | (Ok a, s') => (Ok a, s')
           | (Throw e, s') => handler e s'
           end.

(** A pure computation that may throw. *)
Definition lift {A} (r : Res A) : M A := fun s => (r, s).

Notation "'let*' x ':=' m 'in' k" := (bind m (fun x => k))
  (at level 10, x name, m at level 100, k at level 200).

(** [logger.info({...fields}, msg)] and its siblings; field values are
    kept as rendered strings. *)
Definition log (level : LogLevel) (fields : list (string * jsstring)) (msg : string) : M unit :=
  fun s => (Ok tt, emit (EvLog level fields (lit msg)) s).

Definition dateNow : M Z := fun s => (Ok (now s), s).

(** Reading a property of an absent value throws a [TypeError]. *)
Definition readProperty {A} (o : option A) (property : string) : M A :=
  match o with
  | Some a => ret a
  | None => throw (TypeError (lit "Cannot read properties of undefined (reading '"
                              ++ lit property ++ lit "')"))
  end.

(* ===================================================================== *)
(** * WorkerRenderService                                                  *)
(* ===================================================================== *)

Definition FPS : Z := 30.

(** [Math.ceil(a / b)] for integers and a positive divisor, on the exact
    quotient. *)
Definition ceilDiv (a b : Z) : Z := - ((- a) / b).

(** [x || fallback] on numbers. *)
Definition orDefault (x fallback : Z) : Z := if x =? 0 then fallback else x.

Definition isAbortError (err : Thrown) : bool :=
  match err with
  | JsError name _ => bool_decide (name = lit "AbortError")
  | JsValue _ => false
  end.

(** [response.ok] *)
Definition responseOk (httpStatus : Z) : bool :=
  (200 <=? httpStatus) && (httpStatus <=? 299).

(** [request.scenes.reduce((sum, s) => sum + s.duration, 0)] and
    [Math.ceil((totalDurationMs * fps) / 1000)] of [buildRenderPlan], on
    whole milliseconds and with exact arithmetic; [totalDurationMs64]
    and [totalFrames64] below are the same in binary64. *)
Definition totalDurationMs (scenes : list WorkerScene.t) : Z :=
  fold_left (fun sum s => sum + WorkerScene.duration s) scenes 0.

Definition totalFrames (scenes : list WorkerScene.t) : Z :=
  ceilDiv (totalDurationMs scenes * FPS) 1000.

(** ** The same arithmetic on numbers

    A JavaScript number is an IEEE 754 binary64 value: [number] is the
    Standard Library's specification of these values, and [*], [/] and [+]
    are its correctly rounded operations with 53 bits of precision.
    [toNumber z] is the Number value for the integer [z], the number
    nearest to it. *)
Definition number : Type := spec_float.
Definition mul64 : number -> number -> number := SFmul 53 1024.
Definition div64 : number -> number -> number := SFdiv 53 1024.
Definition add64 : number -> number -> number := SFadd 53 1024.
Definition toNumber (z : Z) : number := binary_normalize 53 1024 z 0 false.

(** [Math.ceil(x)]: the least integer that is not below [x]; zeros,
    infinities and [NaN] are returned as they are, and a value in
    [(-1, 0)] gives [-0]. *)
Definition Math_ceil (x : number) : number :=
  match x with
  | S754_finite s m e =>
      if 0 <=? e then x
      else
        let c := if s then - (Zpos m / 2 ^ (- e)) else ceilDiv (Zpos m) (2 ^ (- e)) in
        if c =? 0 then S754_zero s else toNumber c
  | _ => x
  end.

(** [typeof scene.duration === 'number' && scene.duration > 0] of
    [validateRequest], on a number. *)
Definition positive64 (duration : number) : bool := SFltb (S754_zero false) duration.

(** [Math.ceil((scene.duration * fps) / 1000)] *)
Definition durationFrames64 (duration : number) : number :=
  Math_ceil (div64 (mul64 duration (toNumber FPS)) (toNumber 1000)).

(** [request.scenes.reduce((sum, s) => sum + s.duration, 0)] and
    [Math.ceil((totalDurationMs * fps) / 1000)] *)
Definition totalDurationMs64 (durations : list number) : number :=
  fold_left (fun sum duration => add64 sum duration) durations (S754_zero false).

Definition totalFrames64 (durations : list number) : number :=
  Math_ceil (div64 (mul64 (totalDurationMs64 durations) (toNumber FPS)) (toNumber 1000)).

(** The value of [currentFrame] when the loop ends: the sum of the
    scenes' frames, added up by [currentFrame += durationFrames]. *)
Definition sumFrames64 (durations : list number) : number :=
  fold_left (fun currentFrame duration => add64 currentFrame (durationFrames64 duration))
    durations (S754_zero false).

(** The [for] loop of [buildRenderPlan], from index [i] on, with
    [currentFrame] frames already laid out. *)
Fixpoint planScenes (scenes : list WorkerScene.t) (resolvedAssets : list ResolvedAsset.t)
    (i : nat) (currentFrame : Z) : list InternalSceneRenderPlan.t :=
  match scenes with
  | [] => []
  | scene :: rest =>
      let durationFrames := ceilDiv (WorkerScene.duration scene * FPS) 1000 in
      let asset := resolvedAssets !! i in
      {| InternalSceneRenderPlan.id := lit "scene-" ++ numToString (Z.of_nat i);
         InternalSceneRenderPlan.startFrame := currentFrame;
         InternalSceneRenderPlan.durationInFrames := durationFrames;
         InternalSceneRenderPlan.duration := WorkerScene.duration scene;
         InternalSceneRenderPlan.text := sanitizeText (WorkerScene.text scene);
         InternalSceneRenderPlan.assetPath :=
           match asset with
           | Some asset => ResolvedAsset.localPath asset
           | None => None
           end;
         InternalSceneRenderPlan.searchTerms :=
           match WorkerScene.searchTerms scene with
           | Some terms => terms
           | None => []
           end |}
      :: planScenes rest resolvedAssets (S i) (currentFrame + durationFrames)
  end.

(** The scenes in [ShortCreator] format. *)
Definition toSceneInputs (renderPlan : InternalRenderPlan.t) : list SceneInput.t :=
  imap (fun index scene =>
          {| SceneInput.text := InternalSceneRenderPlan.text scene;
             SceneInput.searchTerms := InternalSceneRenderPlan.searchTerms scene;
             SceneInput.audioBuffer :=
               match index with
               | O => Some (InternalRenderPlan.audioBuffer renderPlan)
               | _ => None
               end;
             SceneInput.audioDuration :=
               if InternalSceneRenderPlan.duration scene =? 0 then None
               else Some (InternalSceneRenderPlan.duration scene # 1000)%Q |})
       (InternalRenderPlan.scenes renderPlan).

(** The state after a [status] call and after an awaited timer of [ms]
    milliseconds: the timer fires after [ms] plus its lateness. *)
Definition polled (videoId : jsstring) (s : State) : State :=
  {| now := now s; draws := draws s; polls := S (polls s); timers := timers s;
     events := events s ++ [EvStatus videoId] |}.

Definition slept (env : Env) (ms : Z) (s : State) : State :=
  {| now := now s + ms + Z.of_N (lateness env (timers s));
     draws := draws s; polls := polls s; timers := S (timers s);
     events := events s ++ [EvSleep ms] |}.

Inductive JobState : Type := JobReady | JobFailed | JobOther.

(** The two comparisons [status === 'ready'] and [status === 'failed']. *)
Definition classify (st : jsstring) : JobState :=
  if bool_decide (st = lit "ready") then JobReady
  else if bool_decide (st = lit "failed") then JobFailed
  else JobOther.

Section Service.

Context (env : Env) (config : Config.t).

Definition randomSuffix : M jsstring :=
  fun s => (Ok (random36 env (draws s)),
            {| now := now s; draws := S (draws s); polls := polls s;
               timers := timers s; events := events s |}).

(** [await fetch(url, { signal })] with the timer of [timeoutMs] armed. *)
Definition doFetch (site : FetchSite) (url : jsstring) (timeoutMs : Z)
    : M (Z * Res Buffer) :=
  fun s =>
    let s := emit (EvFetch url timeoutMs) s in
    match fetch env site with
    | FetchResolved httpStatus body => (Ok (httpStatus, body), s)
    | FetchRejected err => (Throw err, s)
    end.

(** [await fs.writeFile(path, data)] *)
Definition fsWriteFile (site : WriteSite) (path : jsstring) (data : Buffer) : M unit :=
  fun s =>
    let s := emit (EvWriteFile path data) s in
    match writeFile env site with
    | None => (Ok tt, s)
    | Some err => (Throw err, s)
    end.

Definition downloadWithTimeout (site : FetchSite) (url : jsstring) (timeoutMs : Z)
    (timeoutError : jsstring) : M Buffer :=
  try_catch
    (let* response := doFetch site url timeoutMs in
     if negb (responseOk (fst response)) then
       throw (Error (timeoutError ++ lit ": HTTP " ++ numToString (fst response)))
     else
       lift (snd response))
    (fun err =>
       if isAbortError err then
         throw (Error (timeoutError ++ lit ": Timed out after "
                       ++ numToString timeoutMs ++ lit "ms"))
       else throw err).

(** The scene loop of [validateRequest], from index [i] on.  The two
    [typeof] assertions hold by typing. *)
Fixpoint validateScenes (scenes : list WorkerScene.t) (i : nat) : M unit :=
  match scenes with
  | [] => ret tt
  | scene :: rest =>
      let* _ := lift (assert (0 <? Z.of_nat (length (trim (WorkerScene.text scene))))
                        (lit "Scene " ++ numToString (Z.of_nat i)
                         ++ lit ": text cannot be empty")) in
      let* _ := lift (assert (0 <? WorkerScene.duration scene)
                        (lit "Scene " ++ numToString (Z.of_nat i)
                         ++ lit ": duration must be a positive number")) in
      validateScenes rest (S i)
  end.

Definition validateRequest (request : ShortVideoRenderRequest.t) (correlationId : jsstring)
    : M ShortVideoRenderRequest.t :=
  (* Validate scenes array *)
  let* _ := lift (assert (bool_decide (is_Some (ShortVideoRenderRequest.scenes request)))
                    (lit "scenes must be an array")) in
  let* scenes := readProperty (ShortVideoRenderRequest.scenes request) "length" in
  let* _ := lift (assert (0 <? Z.of_nat (length scenes))
                    (lit "scenes array cannot be empty")) in
  (* Validate each scene *)
  let* _ := validateScenes scenes 0 in
  (* Validate config; [typeof request.config.ttsUrl === 'string'] holds by
     typing *)
  let* _ := lift (assert (bool_decide (is_Some (ShortVideoRenderRequest.config request)))
                    (lit "config is required")) in
  let* cfg := readProperty (ShortVideoRenderRequest.config request) "ttsUrl" in
  let* _ := lift (assert (0 <? Z.of_nat (length (WorkerConfig.ttsUrl cfg)))
                    (lit "config.ttsUrl cannot be empty")) in
  (* Validate resolution *)
  let* resolution := lift (parseResolution (WorkerConfig.resolution cfg)) in
  let* _ := lift (assert ((0 <? width resolution) && (0 <? height resolution))
                    (lit "Invalid resolution values")) in
  let* _ := log LogInfo [("correlationId", correlationId);
                         ("sceneCount", numToString (Z.of_nat (length scenes)))]
                "Request validation passed" in
  ret request.

Definition downloadTtsAudio (ttsUrl correlationId : jsstring) : M Buffer :=
  try_catch
    (let timeoutMs := orDefault (Config.audioDownloadTimeoutMs config) 15000 in
     let* buffer := downloadWithTimeout TtsAudio ttsUrl timeoutMs
                      (lit "TTS download failed") in
     let* _ := log LogInfo [("correlationId", correlationId);
                            ("sizeBytes", numToString (Z.of_nat (length buffer)))]
                   "TTS audio downloaded" in
     ret buffer)
    (fun err =>
       throw (Error (lit "Failed to download TTS audio: " ++ normalizeError err))).

(** One turn of the [for ... of] loop of [resolveAssets], for the asset at
    position [i]; the accumulators are [resolved], [validCount] and
    [fallbackCount]. *)
Definition resolveAsset (correlationId : jsstring) (i : nat) (asset : WorkerAsset.t)
    (acc : list ResolvedAsset.t * Z * Z) : M (list ResolvedAsset.t * Z * Z) :=
  let '(resolved, validCount, fallbackCount) := acc in
  let fallback :=
    {| ResolvedAsset.searchTerms := WorkerAsset.searchTerms asset;
       ResolvedAsset.videoUrl := None;
       ResolvedAsset.localPath := None |} in
  match WorkerAsset.videoUrl asset with
  | Some videoUrl =>
      if truthy videoUrl then
        try_catch
          (let timeoutMs := orDefault (Config.assetDownloadTimeoutMs config) 15000 in
           let* buffer := downloadWithTimeout (AssetAt i) videoUrl timeoutMs
                            (lit "Asset download failed") in
           (* Save to temp file for Remotion *)
           let* stamp := dateNow in
           let* suffix := randomSuffix in
           let tempFileName :=
             lit "asset-" ++ numToString stamp ++ lit "-" ++ suffix ++ lit ".mp4" in
           let tempPath := path_join (Config.tempDirPath config) tempFileName in
           let* _ := fsWriteFile (AssetFile i) tempPath buffer in
           ret (resolved ++ [{| ResolvedAsset.searchTerms := WorkerAsset.searchTerms asset;
                                ResolvedAsset.videoUrl := Some videoUrl;
                                ResolvedAsset.localPath := Some tempPath |}],
                validCount + 1, fallbackCount))
          (fun err =>
             let* _ := log LogWarn [("correlationId", correlationId);
                                    ("searchTerms", WorkerAsset.searchTerms asset);
                                    ("error", normalizeError err)]
                           "Failed to download asset, using fallback" in
             ret (resolved ++ [fallback], validCount, fallbackCount + 1))
      else ret (resolved ++ [fallback], validCount, fallbackCount + 1)
  | None => ret (resolved ++ [fallback], validCount, fallbackCount + 1)
  end.

Fixpoint resolveLoop (correlationId : jsstring) (assets : list WorkerAsset.t) (i : nat)
    (acc : list ResolvedAsset.t * Z * Z) : M (list ResolvedAsset.t * Z * Z) :=
  match assets with
  | [] => ret acc
  | asset :: rest =>
      let* acc' := resolveAsset correlationId i asset acc in
      resolveLoop correlationId rest (S i) acc'
  end.

Definition resolveAssets (assets : list WorkerAsset.t) (correlationId : jsstring)
    : M (list ResolvedAsset.t) :=
  let* acc := resolveLoop correlationId assets 0 ([], 0, 0) in
  let '(resolved, validCount, fallbackCount) := acc in
  let* _ := log LogInfo [("correlationId", correlationId);
                         ("validAssets", numToString validCount);
                         ("fallbackAssets", numToString fallbackCount)]
                "Asset resolution complete" in
  ret resolved.

Definition buildRenderPlan (request : ShortVideoRenderRequest.t) (audioBuffer : Buffer)
    (resolvedAssets : list ResolvedAsset.t) : M InternalRenderPlan.t :=
  let* cfg := readProperty (ShortVideoRenderRequest.config request) "resolution" in
  let* resolution := lift (parseResolution (WorkerConfig.resolution cfg)) in
  let fps := FPS in
  (* Calculate total duration and per-scene frames; [totalFrames] is
     computed and not used *)
  let* scenes := readProperty (ShortVideoRenderRequest.scenes request) "reduce" in
  let totalDurationMs := totalDurationMs scenes in
  let totalFrames := ceilDiv (totalDurationMs * fps) 1000 in
  ret {| InternalRenderPlan.width := width resolution;
         InternalRenderPlan.height := height resolution;
         InternalRenderPlan.fps := fps;
         InternalRenderPlan.scenes := planScenes scenes resolvedAssets 0 0;
         InternalRenderPlan.audioBuffer := audioBuffer;
         InternalRenderPlan.tone := WorkerConfig.tone cfg;
         InternalRenderPlan.platform := WorkerConfig.platform cfg |}.

(** [this.shortCreator.addToQueue(scenes, ...)], [.status(videoId)] is in
    [pollLoop], [.getVideo(videoId)]. *)
Definition submitToQueue (scenes : list SceneInput.t) : M jsstring :=
  fun s => (addToQueue env, emit (EvAddToQueue scenes) s).

Definition fetchVideo (videoId : jsstring) : M Buffer :=
  fun s => (getVideo env, emit (EvGetVideo videoId) s).

(** The [while (Date.now() - startTime < timeoutMs)] loop of
    [renderWithRemotion], with [timeoutMs = 180000].  Every turn that
    goes on awaits a one-second timer, so the time left decreases. *)
Equations? pollLoop (videoId : jsstring) (startTime : Z) (s : State)
    : Res Buffer * State
    by wf (Z.to_nat (180000 - (now s - startTime))) lt :=
pollLoop videoId startTime s with Z_lt_dec (now s - startTime) 180000 := {
  | right _ => (Throw (Error (lit "Render timed out")), s)
  | left _ with classify (status env (polls s)) := {
      | JobReady => fetchVideo videoId (polled videoId s)
      | JobFailed =>
          (Throw (Error (lit "ShortCreator render failed")), polled videoId s)
      | JobOther =>
          pollLoop videoId startTime (slept env 1000 (polled videoId s)) } }.
Proof. simpl. lia. Qed.

Definition renderWithRemotion (renderPlan : InternalRenderPlan.t) (correlationId : jsstring)
    : M Buffer :=
  let tempVideoId := lit "temp-" ++ correlationId in
  (* Convert scenes to ShortCreator format *)
  let scenes := toSceneInputs renderPlan in
  let* videoId := submitToQueue scenes in
  (* Poll for completion (with timeout) *)
  let* startTime := dateNow in
  pollLoop videoId startTime.

Definition uploadVideo (videoBuffer : Buffer) (correlationId : jsstring) : M jsstring :=
  let* stamp := dateNow in
  let* suffix := randomSuffix in
  let videoId := lit "video-" ++ numToString stamp ++ lit "-" ++ suffix in
  let fileName := videoId ++ lit ".mp4" in
  let tempPath := path_join (Config.tempDirPath config) fileName in
  let* _ := fsWriteFile VideoFile tempPath videoBuffer in
  let* _ := log LogInfo [("correlationId", correlationId);
                         ("videoId", videoId);
                         ("sizeBytes", numToString (Z.of_nat (length videoBuffer)))]
                "Video uploaded for URL response" in
  ret (lit "https://storage.example.com/videos/" ++ fileName).

(** Steps 1 to 5 of the [try] block of [renderVideo]: validate, download
    the narration, resolve the assets, build the plan, render. *)
Definition renderSteps (request : ShortVideoRenderRequest.t) (correlationId : jsstring)
    : M Buffer :=
  (* 1. Validate request *)
  let* validatedRequest := validateRequest request correlationId in
  (* 2. Download TTS audio *)
  let* _ := log LogInfo [("correlationId", correlationId)] "Downloading TTS audio" in
  let* cfg := readProperty (ShortVideoRenderRequest.config validatedRequest) "ttsUrl" in
  let* audioBuffer := downloadTtsAudio (WorkerConfig.ttsUrl cfg) correlationId in
  (* 3. Resolve assets *)
  let* _ := log LogInfo [("correlationId", correlationId);
                         ("assetCount",
                          numToString (Z.of_nat (length (WorkerConfig.assets cfg))))]
                "Resolving assets" in
  let* resolvedAssets := resolveAssets (WorkerConfig.assets cfg) correlationId in
  (* 4. Build render plan *)
  let* _ := log LogInfo [("correlationId", correlationId)] "Building render plan" in
  let* renderPlan := buildRenderPlan validatedRequest audioBuffer resolvedAssets in
  (* 5. Render with Remotion *)
  let* _ := log LogInfo [("correlationId", correlationId);
                         ("sceneCount",
                          numToString
                            (Z.of_nat (length (InternalRenderPlan.scenes renderPlan))))]
                "Rendering video" in
  renderWithRemotion renderPlan correlationId.

(** Step 6 of the [try] block: the response mode. *)
Definition respond (videoBuffer : Buffer) (startTime : Z) (correlationId : jsstring)
    : M RenderResponse :=
  if bool_decide (Config.responseMode config = lit "url") then
    let* _ := log LogInfo [("correlationId", correlationId)]
                  "Uploading video for URL response" in
    let* videoUrl := uploadVideo videoBuffer correlationId in
    ret (UrlResponse videoUrl)
  else
    (* Binary mode *)
    let* finished := dateNow in
    let duration := finished - startTime in
    let* _ := log LogInfo [("correlationId", correlationId);
                           ("videoSizeBytes",
                            numToString (Z.of_nat (length videoBuffer)));
                           ("durationMs", numToString duration)]
                  "Video render complete (binary mode)" in
    ret (BinaryResponse videoBuffer).

(** The [try { ... } catch (err) { ... }] statement of [renderVideo]. *)
Definition renderAttempt (request : ShortVideoRenderRequest.t) (startTime : Z)
    (correlationId : jsstring) : M RenderResponse :=
  try_catch
    (let* videoBuffer := renderSteps request correlationId in
     respond videoBuffer startTime correlationId)
    (fun err =>
       let normalized := normalizeError err in
       let* _ := log LogError [("correlationId", correlationId);
                               ("message", normalized)]
                     "Video render failed" in
       throw (Error (lit "Rendering failed: " ++ normalized))).

Definition renderVideo (request : ShortVideoRenderRequest.t) : M RenderResponse :=
  let* startTime := dateNow in
  let* stamp := dateNow in
  let* suffix := randomSuffix in
  let correlationId := lit "render-" ++ numToString stamp ++ lit "-" ++ suffix in
  (* the fields of the first log entry are read before the [try] *)
  let* scenes := readProperty (ShortVideoRenderRequest.scenes request) "length" in
  let* cfg := readProperty (ShortVideoRenderRequest.config request) "resolution" in
  let* _ := log LogInfo [("correlationId", correlationId);
                         ("sceneCount", numToString (Z.of_nat (length scenes)));
                         ("resolution", WorkerConfig.resolution cfg);
                         ("responseMode", Config.responseMode config)]
                "Starting video render" in
  renderAttempt request startTime correlationId.

(** The correlation id that [renderVideo] draws in state [s], and the
    state in which its [try] block starts. *)
Definition correlationIdAt (s : State) : jsstring :=
  lit "render-" ++ numToString (now s) ++ lit "-" ++ random36 env (draws s).

Definition startedState (scenes : list WorkerScene.t) (cfg : WorkerConfig.t) (s : State)
    : State :=
  {| now := now s; draws := S (draws s); polls := polls s; timers := timers s;
     events := events s
       ++ [EvLog LogInfo
             [("correlationId", correlationIdAt s);
              ("sceneCount", numToString (Z.of_nat (length scenes)));
              ("resolution", WorkerConfig.resolution cfg);
              ("responseMode", Config.responseMode config)]
             (lit "Starting video render")] |}.

End Service.

(* ===================================================================== *)
(** * Reference notions used by the statements                             *)
(* ===================================================================== *)

(** Frames of one scene and of a list of scenes. *)
Definition framesOf (scene : WorkerScene.t) : Z :=
  ceilDiv (WorkerScene.duration scene * FPS) 1000.

Definition sumFrames (plan : list InternalSceneRenderPlan.t) : Z :=
  foldr (fun p acc => InternalSceneRenderPlan.durationInFrames p + acc) 0 plan.

(** The binary64 representation of a positive integer below 2^53: its
    53-bit mantissa and the number itself. *)
Definition mant (n : Z) : Z := n * 2 ^ (53 - Zdigits2 n).

Definition canon (n : Z) : number :=
  S754_finite false (Z.to_pos (mant n)) (Zdigits2 n - 53).

(** The integer that a number is, if it is one. *)
Definition numberValue (x : number) : option Z :=
  match x with
  | S754_zero _ => Some 0
  | S754_finite sign m e =>
      option_map (fun v => if sign then - v else v)
        (if 0 <=? e then Some (Zpos m * 2 ^ e)
         else if Zpos m mod 2 ^ (- e) =? 0 then Some (Zpos m / 2 ^ (- e))
              else None)
  | _ => None
  end.

(** The smallest positive number, 5e-324, and the number nearest to
    100/3. *)
Definition minNumber : number := S754_finite false 1 (-1074).

Definition third100 : number := div64 (toNumber 100) (toNumber 3).

(** The download for the asset at position [i] succeeds: it has a
    non-empty URL, the fetch answers with a 2xx status and a body, and the
    temp file is written. *)
Definition assetObtained (env : Env) (i : nat) (asset : WorkerAsset.t) : bool :=
  match WorkerAsset.videoUrl asset with
  | Some url =>
      truthy url
      && match fetch env (AssetAt i) with
         | FetchResolved httpStatus (Ok _) => responseOk httpStatus
         | _ => false
         end
      && match writeFile env (AssetFile i) with None => true | Some _ => false end
  | None => false
  end.

(** The entry that [resolveAssets] owes to the asset at position [i]: the
    search terms are carried over; an obtained asset keeps its URL and
    gets a local path, any other one is a "no asset" entry. *)
Definition resolvedFor (env : Env) (i : nat) (asset : WorkerAsset.t)
    (entry : ResolvedAsset.t) : Prop :=
  ResolvedAsset.searchTerms entry = WorkerAsset.searchTerms asset
  /\ if assetObtained env i asset then
       ResolvedAsset.videoUrl entry = WorkerAsset.videoUrl asset
       /\ is_Some (ResolvedAsset.localPath entry)
     else
       ResolvedAsset.videoUrl entry = None
       /\ ResolvedAsset.localPath entry = None.

(** Total lateness of the [n] timers from the [t]-th on, and the time
    that [n] turns of the polling loop take. *)
Fixpoint latenessSum (env : Env) (t n : nat) : Z :=
  match n with
  | O => 0
  | S n' => Z.of_N (lateness env t) + latenessSum env (S t) n'
  end.

Definition elapsedAfter (env : Env) (t n : nat) : Z :=
  1000 * Z.of_nat n + latenessSum env t n.


(** Collaborators that answer well: the narration and the first asset
    download, the second asset is a 404, the job is ready at the fourth
    poll. *)
Definition sampleEnv : Env :=
  {| fetch := fun site =>
       match site with
       | TtsAudio => FetchResolved 200 (Ok [Byte.x49; Byte.x44; Byte.x33])
       | AssetAt 0 => FetchResolved 200 (Ok [Byte.x00; Byte.x01])
       | AssetAt _ => FetchResolved 404 (Ok [])
       end;
     writeFile := fun _ => None;
     random36 := fun _ => lit "k3x9q1";
     addToQueue := Ok (lit "cm8video");
     status := fun k => if (k <? 3)%nat then lit "processing" else lit "ready";
     getVideo := Ok [Byte.x66; Byte.x74; Byte.x79; Byte.x70];
     lateness := fun _ => 0%N |}.

(** The same collaborators with a job that stays queued for ever. *)
Definition stuckEnv : Env :=
  {| fetch := fetch sampleEnv;
     writeFile := writeFile sampleEnv;
     random36 := random36 sampleEnv;
     addToQueue := addToQueue sampleEnv;
     status := fun _ => lit "queued";
     getVideo := getVideo sampleEnv;
     lateness := lateness sampleEnv |}.

Definition serviceConfig (responseMode : string) : Config.t :=
  Config.mk (lit responseMode) 15000 15000 (lit "/tmp/videos").




(** The specification's resolution format [<int>x<int>]: two segments
    around one [x], each a non-empty run of decimal digits, both positive. *)
Definition isPositiveInt (seg : jsstring) : bool :=
  negb (bool_decide (seg = [])) && forallb isDigit seg && (0 <? digitsValue seg).

Definition isIntXInt (resolution : jsstring) : bool :=
  match split 120 resolution with
  | [w; h] => isPositiveInt w && isPositiveInt h
  | _ => false
  end.

(** What the code accepts: two segments around one [x], each with a
    leading decimal integer in the sense of [parseInt], both positive. *)
Definition resolutionAccepted (resolution : jsstring) : bool :=
  match split 120 resolution with
  | [w; h] =>
      match parseInt w, parseInt h with
      | Some w, Some h => (0 <? w) && (0 <? h)
      | _, _ => false
      end
  | _ => false
  end.

(** What a successful validation establishes about a request. *)
Definition sceneValid (scene : WorkerScene.t) : Prop :=
  trim (WorkerScene.text scene) <> [] /\ 0 < WorkerScene.duration scene.

Definition Validated (request : ShortVideoRenderRequest.t) : Prop :=
  exists scenes cfg resolution,
    ShortVideoRenderRequest.scenes request = Some scenes
    /\ scenes <> []
    /\ Forall sceneValid scenes
    /\ ShortVideoRenderRequest.config request = Some cfg
    /\ WorkerConfig.ttsUrl cfg <> []
    /\ parseResolution (WorkerConfig.resolution cfg) = Ok resolution
    /\ 0 < width resolution /\ 0 < height resolution.

(** ** Sample inputs

    The two-scene request of the specification's scenario (1000 ms and
    2000 ms at 1080x1920), used to instantiate the statements. *)
Definition sampleScenes : list WorkerScene.t :=
  [WorkerScene.mk (lit "First scene") 1000 (Some [lit "sea"]);
   WorkerScene.mk (lit "Second scene") 2000 None].

Definition sampleAssets : list WorkerAsset.t :=
  [WorkerAsset.mk (lit "sea") (Some (lit "https://videos.example.com/sea.mp4"));
   WorkerAsset.mk (lit "sky") (Some (lit "https://videos.example.com/sky.mp4"))].

Definition sampleConfig (resolution : jsstring) : WorkerConfig.t :=
  WorkerConfig.mk resolution (lit "EPIC") (lit "TIKTOK")
    (lit "https://tts.example.com/narration.mp3") sampleAssets.

Definition sampleRequest : ShortVideoRenderRequest.t :=
  ShortVideoRenderRequest.mk (Some sampleScenes)
    (Some (sampleConfig (lit "1080x1920"))) None.

(** The sample request with a resolution that has text after the
    height. *)
Definition lenientRequest : ShortVideoRenderRequest.t :=
  ShortVideoRenderRequest.mk (Some sampleScenes)
    (Some (sampleConfig (lit "1080x1920p"))) None.

(** A request without [config]. *)
Definition configlessRequest : ShortVideoRenderRequest.t :=
  ShortVideoRenderRequest.mk (Some sampleScenes) None None.

(** The sample request with the resolution "1080", which has no ['x']. *)
Definition malformedRequest : ShortVideoRenderRequest.t :=
  ShortVideoRenderRequest.mk (Some sampleScenes) (Some (sampleConfig (lit "1080"))) None.

(** A request whose only scene lasts one millisecond. *)
Definition tinyRequest : ShortVideoRenderRequest.t :=
  ShortVideoRenderRequest.mk (Some [WorkerScene.mk (lit "Hi") 1 None])
    (Some (sampleConfig (lit "1080x1920"))) None.

Definition sampleState : State :=
  {| now := 1700000000000; draws := 0; polls := 0; timers := 0; events := [] |}.

(* ===================================================================== *)
(** * The composition side: ShortVerticalVideo                             *)
(* ===================================================================== *)

Module SceneVisualPlan.
Record t := mk {
  id : jsstring;
  startFrame : Z;
  durationInFrames : Z;
  text : jsstring;
  assetUrl : option jsstring;          (* optional background clip URL *)
  searchTerms : list jsstring
}.
End SceneVisualPlan.

(** [scenes.reduce((max, s) => Math.max(max, s.startFrame + s.durationInFrames), 0)]
    of the [ShortVerticalVideo] component. *)
Definition totalDurationInFrames (scenes : list SceneVisualPlan.t) : Z :=
  fold_left
    (fun max s =>
       Z.max max (SceneVisualPlan.startFrame s + SceneVisualPlan.durationInFrames s))
    scenes 0.

(** The theme colours that [resolveTheme] reads; each is tested with [??],
    so each may be absent. *)
Module ThemeColors.
Record t := mk {
  accent : option jsstring;
  background : option jsstring;
  textOnBackground : option jsstring
}.
End ThemeColors.

Module ResolvedTheme.
Record t := mk {
  background : jsstring;
  captionBackground : jsstring;
  captionText : jsstring;
  overlayColor : jsstring;
  accentColor : jsstring
}.
End ResolvedTheme.

(** [value ?? fallback] *)
Definition orElse (value : option jsstring) (fallback : string) : jsstring :=
  match value with
  | Some v => v
  | None => lit fallback
  end.

Section Theme.

(** [String.prototype.toUpperCase] is the Unicode mapping of the engine;
    [resolveTheme] is modelled for any such function. *)
Variable toUpperCase : jsstring -> jsstring.

Definition resolveTheme (tone : jsstring) (themeColors : ThemeColors.t) : ResolvedTheme.t :=
  let base := themeColors in
  let upperTone := toUpperCase tone in
  if bool_decide (upperTone = lit "STOIC") then
    {| ResolvedTheme.background := orElse (ThemeColors.background base) "#0a0a0f";
       ResolvedTheme.captionBackground := lit "rgba(20, 20, 30, 0.85)";
       ResolvedTheme.captionText := orElse (ThemeColors.textOnBackground base) "#e5e5e5";
       ResolvedTheme.overlayColor := lit "rgba(0, 0, 0, 0.4)";
       ResolvedTheme.accentColor := orElse (ThemeColors.accent base) "#6366f1" |}
  else if bool_decide (upperTone = lit "EPIC") then
    {| ResolvedTheme.background := orElse (ThemeColors.background base) "#050510";
       ResolvedTheme.captionBackground := lit "rgba(30, 10, 20, 0.9)";
       ResolvedTheme.captionText := orElse (ThemeColors.textOnBackground base) "#fef3c7";
       ResolvedTheme.overlayColor := lit "rgba(0, 0, 0, 0.5)";
       ResolvedTheme.accentColor := orElse (ThemeColors.accent base) "#f59e0b" |}
  else if bool_decide (upperTone = lit "PLAYFUL") then
    {| ResolvedTheme.background := orElse (ThemeColors.background base) "#0f172a";
       ResolvedTheme.captionBackground := lit "rgba(30, 41, 59, 0.85)";
       ResolvedTheme.captionText := orElse (ThemeColors.textOnBackground base) "#ffffff";
       ResolvedTheme.overlayColor := lit "rgba(0, 0, 0, 0.25)";
       ResolvedTheme.accentColor := orElse (ThemeColors.accent base) "#22d3ee" |}
  else (* NEUTRAL *)
    {| ResolvedTheme.background := orElse (ThemeColors.background base) "#0a0a0a";
       ResolvedTheme.captionBackground := lit "rgba(0, 0, 0, 0.7)";
       ResolvedTheme.captionText := orElse (ThemeColors.textOnBackground base) "#ffffff";
       ResolvedTheme.overlayColor := lit "rgba(0, 0, 0, 0.35)";
       ResolvedTheme.accentColor := orElse (ThemeColors.accent base) "#3b82f6" |}.

End Theme.

(** The preview plan registered with the composition ([mockRenderPlan]). *)
Definition mockScenes : list SceneVisualPlan.t :=
  [SceneVisualPlan.mk (lit "scene-1") 0 90 (lit "Welcome to LogOS") None
     [lit "abstract"; lit "technology"];
   SceneVisualPlan.mk (lit "scene-2") 90 90 (lit "Creating amazing videos") None
     [lit "creative"; lit "video"]].

(** Scenes laid out back to back from frame [start], each of
    non-negative length, and the sum of their lengths. *)
Fixpoint gaplessFrom (start : Z) (scenes : list SceneVisualPlan.t) : bool :=
  match scenes with
  | [] => true
  | s :: rest =>
      (SceneVisualPlan.startFrame s =? start)
      && (0 <=? SceneVisualPlan.durationInFrames s)
      && gaplessFrom (start + SceneVisualPlan.durationInFrames s) rest
  end.

Definition sumDurations (scenes : list SceneVisualPlan.t) : Z :=
  foldr (fun s acc => SceneVisualPlan.durationInFrames s + acc) 0 scenes.

(** The end frame of a scene. *)
Definition endFrame (s : SceneVisualPlan.t) : Z :=
  SceneVisualPlan.startFrame s + SceneVisualPlan.durationInFrames s.

(* ===================================================================== *)
(** * Notions for the properties of the pipeline                           *)
(* ===================================================================== *)

(** ** Accounting for effects

    [spent cost new] adds up a cost over the events [new]; a computation
    spends at most [budget] when, from every state, the events it appends
    cost no more than that. *)
Definition spent (cost : Event -> nat) (new : list Event) : nat :=
  foldr (fun ev acc => (cost ev + acc)%nat) 0%nat new.

Definition SpendsAt (cost : Event -> nat) (budget : nat) {A} (m : M A) (s : State) : Prop :=
  exists new, events (snd (m s)) = events s ++ new /\ (spent cost new <= budget)%nat.

Definition Spends (cost : Event -> nat) (budget : nat) {A} (m : M A) : Prop :=
  forall s, SpendsAt cost budget m s.

Definition countOf (p : Event -> bool) (ev : Event) : nat := if p ev then 1%nat else 0%nat.

Definition isSubmission (e : Event) : bool :=
  match e with EvAddToQueue _ => true | _ => false end.

Definition isFileWrite (e : Event) : bool :=
  match e with EvWriteFile _ _ => true | _ => false end.


(** The number of assets of a request, and of uploads of a render. *)
Definition assetCount (request : ShortVideoRenderRequest.t) : nat :=
  match ShortVideoRenderRequest.config request with
  | Some cfg => length (WorkerConfig.assets cfg)
  | None => 0
  end.

Definition uploadCount (config : Config.t) : nat :=
  if bool_decide (Config.responseMode config = lit "url") then 1%nat else 0%nat.

(** A plain file name: not empty, without ['/'], and neither ['.'] nor
    ['..']. *)
Definition plainName (name : jsstring) : bool :=
  negb (bool_decide (name = []))
  && forallb (fun u => negb (u =? 47)%N) name
  && negb (isCurrentDir name) && negb (isParentDir name).

(** The normalised directory, up to and including the ['/'] that
    precedes the name of an entry; empty for the current directory. *)
Definition dirPrefix (dir : jsstring) : jsstring :=
  match dir with
  | [] => []
  | first :: _ =>
      let isAbsolute := (first =? 47)%N in
      match normalizeSegments (negb isAbsolute) (split 47 dir) [] with
      | [] => if isAbsolute then lit "/" else []
      | segs => (if isAbsolute then lit "/" else []) ++ joinSegments segs ++ lit "/"
      end
  end.

(** The digits of [Number.prototype.toString(36)]. *)
Definition isBase36 (u : N) : bool := isDigit u || ((97 <=? u) && (u <=? 122))%N.

(** The file names that the service makes up:
    [asset-<Date.now()>-<random>.mp4] and [video-<Date.now()>-<random>.mp4]. *)
Definition generatedName (env : Env) (name : jsstring) : Prop :=
  exists kind stamp k,
    (kind = lit "asset-" \/ kind = lit "video-")
    /\ name = kind ++ numToString stamp ++ lit "-" ++ random36 env k ++ lit ".mp4".

(** A log entry is stamped when its first field is the correlation id;
    a download is timed when its timeout is one of the two configured
    ones, each defaulting to 15000; a file write is scoped when its path
    is [path.join(tempDirPath, name)] for a plain file name, which makes
    it the normalised temp directory followed by that name. *)
Definition stamped (correlationId : jsstring) (e : Event) : Prop :=
  match e with
  | EvLog _ fields _ => fields !! 0%nat = Some ("correlationId", correlationId)
  | _ => True
  end.

Definition timed (config : Config.t) (e : Event) : Prop :=
  match e with
  | EvFetch _ timeoutMs =>
      timeoutMs <> 0
      /\ (timeoutMs = orDefault (Config.audioDownloadTimeoutMs config) 15000
          \/ timeoutMs = orDefault (Config.assetDownloadTimeoutMs config) 15000)
  | _ => True
  end.

Definition scoped (config : Config.t) (e : Event) : Prop :=
  match e with
  | EvWriteFile path _ =>
      exists name,
        plainName name = true
        /\ path = path_join (Config.tempDirPath config) name
        /\ path = dirPrefix (Config.tempDirPath config) ++ name
  | _ => True
  end.

(** Boolean tests for the three notions. *)
Definition stampedb (correlationId : jsstring) (e : Event) : bool :=
  match e with
  | EvLog _ ((key, value) :: _) _ =>
      String.eqb key "correlationId" && bool_decide (value = correlationId)
  | EvLog _ [] _ => false
  | _ => true
  end.

Definition timedb (config : Config.t) (e : Event) : bool :=
  match e with
  | EvFetch _ timeoutMs =>
      negb (timeoutMs =? 0)
      && ((timeoutMs =? orDefault (Config.audioDownloadTimeoutMs config) 15000)
          || (timeoutMs =? orDefault (Config.assetDownloadTimeoutMs config) 15000))
  | _ => true
  end.

Definition scopedb (config : Config.t) (e : Event) : bool :=
  match e with
  | EvWriteFile path _ =>
      let prefix := dirPrefix (Config.tempDirPath config) in
      bool_decide (take (length prefix) path = prefix)
      && plainName (drop (length prefix) path)
  | _ => true
  end.

(** The cost that counts the events failing a test. *)
Definition violations (test : Event -> bool) (e : Event) : nat :=
  if test e then 0%nat else 1%nat.

(** The URLs that [resolveAssets] has to download, in order. *)
Definition assetUrls (assets : list WorkerAsset.t) : list jsstring :=
  omap (fun asset =>
          match WorkerAsset.videoUrl asset with
          | Some url => if truthy url then Some url else None
          | None => None
          end) assets.

(** The events of [n] turns of the polling loop that go on. *)
Fixpoint pollTurns (videoId : jsstring) (n : nat) : list Event :=
  match n with
  | O => []
  | S n' => EvStatus videoId :: EvSleep 1000 :: pollTurns videoId n'
  end.

(* ===================================================================== *)
(** * Reasoning in the monad                                               *)
(* ===================================================================== *)

Lemma bind_Ok_inv {A B} (m : M A) (k : A -> M B) s b s' :
  bind m k s = (Ok b, s') ->
  exists a s1, m s = (Ok a, s1) /\ k a s1 = (Ok b, s').
Proof.
  unfold bind. destruct (m s) as [[a|e] s1]; intros H.
  - eauto.
  - discriminate.
Qed.

Lemma bind_Ok {A B} (m : M A) (k : A -> M B) s a s1 :
  m s = (Ok a, s1) -> bind m k s = k a s1.
Proof. unfold bind. intros ->. reflexivity. Qed.

Lemma bind_Throw {A B} (m : M A) (k : A -> M B) s e s1 :
  m s = (Throw e, s1) -> bind m k s = (Throw e, s1).
Proof. unfold bind. intros ->. reflexivity. Qed.

Lemma lift_assert_Ok_inv condition message s u s' :
  lift (assert condition message) s = (Ok u, s') -> condition = true /\ s' = s.
Proof.
  unfold lift, assert. destruct condition; intros H; inversion H; auto.
Qed.

Lemma lift_assert_true message s :
  lift (assert true message) s = (Ok tt, s).
Proof. reflexivity. Qed.

Lemma lift_assert_false message s :
  lift (assert false message) s = (Throw (Error message), s).
Proof. reflexivity. Qed.

(* ===================================================================== *)
(** * Ceiling division                                                     *)
(* ===================================================================== *)

Lemma ceilDiv_bounds a b :
  0 < b -> a <= ceilDiv a b * b < a + b.
Proof.
  intros Hb. unfold ceilDiv.
  pose proof (Z.div_mod (- a) b ltac:(lia)) as Hdm.
  pose proof (Z.mod_pos_bound (- a) b Hb) as Hm.
  nia.
Qed.

Lemma ceilDiv_least a b c :
  0 < b -> a <= c * b -> ceilDiv a b <= c.
Proof.
  intros Hb Hc. pose proof (ceilDiv_bounds a b Hb). nia.
Qed.

Lemma ceilDiv_positive a b :
  0 < b -> 0 < a -> 1 <= ceilDiv a b.
Proof.
  intros Hb Ha. pose proof (ceilDiv_bounds a b Hb). nia.
Qed.

(* ===================================================================== *)
(** * Binary64 arithmetic on integers                                      *)
(* ===================================================================== *)

Ltac dlia := Z.div_mod_to_equations; lia.
Ltac dnia := Z.div_mod_to_equations; nia.

Lemma digits2_pos_bounds p :
  2 ^ (Zpos (digits2_pos p) - 1) <= Zpos p < 2 ^ Zpos (digits2_pos p).
Proof.
  induction p as [p IH|p IH|]; cbn [digits2_pos].
  - rewrite Pos2Z.inj_succ. replace (Z.succ (Zpos (digits2_pos p)) - 1)
      with (Z.succ (Zpos (digits2_pos p) - 1)) by lia.
    rewrite !Z.pow_succ_r by lia. lia.
  - rewrite Pos2Z.inj_succ. replace (Z.succ (Zpos (digits2_pos p)) - 1)
      with (Z.succ (Zpos (digits2_pos p) - 1)) by lia.
    rewrite !Z.pow_succ_r by lia. lia.
  - cbn. lia.
Qed.

Lemma Zdigits2_bounds n :
  0 < n -> 2 ^ (Zdigits2 n - 1) <= n < 2 ^ Zdigits2 n.
Proof. destruct n as [|p|p]; try lia. intros _. apply digits2_pos_bounds. Qed.

Lemma Zdigits2_pos n : 0 < n -> 0 < Zdigits2 n.
Proof. destruct n; cbn; lia. Qed.

Lemma pow2_lt_inv a b : 0 <= b -> 2 ^ a < 2 ^ b -> a < b.
Proof.
  intros Hb H. destruct (Z_lt_le_dec a b) as [|Hle]; [assumption|].
  pose proof (Z.pow_le_mono_r 2 b a ltac:(lia) Hle). lia.
Qed.

Lemma Zdigits2_unique n d :
  0 < n -> 2 ^ (d - 1) <= n < 2 ^ d -> Zdigits2 n = d.
Proof.
  intros Hn [Hlo Hhi]. pose proof (Zdigits2_bounds n Hn) as [Hlo' Hhi'].
  pose proof (Zdigits2_pos n Hn) as Hd.
  assert (Hd' : 0 < d).
  { destruct (Z_lt_le_dec 0 d) as [|Hle]; [assumption|]. exfalso.
    destruct (Z.eq_dec d 0) as [->|]; [cbn in Hhi; lia|].
    rewrite (Z.pow_neg_r 2 d) in Hhi by lia. lia. }
  assert (Zdigits2 n - 1 < d) by (apply pow2_lt_inv; lia).
  assert (d - 1 < Zdigits2 n) by (apply pow2_lt_inv; lia).
  lia.
Qed.

Lemma Zdigits2_mono a b : 0 < a -> a <= b -> Zdigits2 a <= Zdigits2 b.
Proof.
  intros Ha Hab. pose proof (Zdigits2_bounds a Ha). pose proof (Zdigits2_bounds b ltac:(lia)).
  pose proof (Zdigits2_pos b ltac:(lia)).
  assert (Zdigits2 a - 1 < Zdigits2 b) by (apply pow2_lt_inv; lia). lia.
Qed.

Lemma Zdigits2_le n d : 0 < n -> 0 <= d -> n < 2 ^ d -> Zdigits2 n <= d.
Proof.
  intros Hn Hd H. pose proof (Zdigits2_bounds n Hn).
  assert (Zdigits2 n - 1 < d) by (apply pow2_lt_inv; lia). lia.
Qed.

Lemma Zdigits2_shift n j : 0 < n -> 0 <= j -> Zdigits2 (n * 2 ^ j) = Zdigits2 n + j.
Proof.
  intros Hn Hj. pose proof (Zdigits2_bounds n Hn) as [Hlo Hhi].
  pose proof (Zdigits2_pos n Hn).
  assert (0 < 2 ^ j) by (apply Z.pow_pos_nonneg; lia).
  apply Zdigits2_unique; [nia|].
  replace (Zdigits2 n + j - 1) with ((Zdigits2 n - 1) + j) by lia.
  rewrite !Z.pow_add_r by lia. nia.
Qed.


Lemma mant_bounds n :
  0 < n -> n < 2 ^ 53 -> 2 ^ 52 <= mant n < 2 ^ 53 /\ Zdigits2 (mant n) = 53.
Proof.
  intros Hn Hhi. pose proof (Zdigits2_le n 53 Hn ltac:(lia) Hhi).
  pose proof (Zdigits2_pos n Hn).
  assert (Hd : Zdigits2 (mant n) = 53).
  { unfold mant. rewrite Zdigits2_shift by lia. lia. }
  split; [|exact Hd].
  assert (0 < mant n).
  { unfold mant. assert (0 < 2 ^ (53 - Zdigits2 n)) by (apply Z.pow_pos_nonneg; lia). nia. }
  pose proof (Zdigits2_bounds (mant n) ltac:(lia)) as Hb. rewrite Hd in Hb.
  exact Hb.
Qed.

Lemma finite_canon c e n :
  Zpos c = mant n -> e = Zdigits2 n - 53 -> S754_finite false c e = canon n.
Proof.
  intros Hc ->. unfold canon. rewrite <- Hc, Pos2Z.id. reflexivity.
Qed.

(** [iter_pos], the iteration of the specification, is [Pos.iter]. *)
Lemma iter_pos_iter {A} (f : A -> A) p : forall x, SpecFloat.iter_pos f p x = Pos.iter f x p.
Proof.
  induction p as [p IH|p IH|]; intros x; cbn [SpecFloat.iter_pos Pos.iter].
  - rewrite !IH, !Pos.iter_swap. reflexivity.
  - rewrite !IH. reflexivity.
  - reflexivity.
Qed.

Lemma shr_1_double m :
  0 <= m -> shr_1 (Build_shr_record (2 * m) false false) = Build_shr_record m false false.
Proof. destruct m; try lia; reflexivity. Qed.

Lemma iter_shr_exact p :
  forall m, 0 <= m ->
  Pos.iter shr_1 (Build_shr_record (m * 2 ^ Zpos p) false false) p
  = Build_shr_record m false false.
Proof.
  induction p as [|p IH] using Pos.peano_ind; intros m Hm.
  - cbn [Pos.iter]. replace (m * 2 ^ 1) with (2 * m) by lia. now apply shr_1_double.
  - rewrite Pos.iter_succ_r, Pos2Z.inj_succ, Z.pow_succ_r by lia.
    replace (m * (2 * 2 ^ Zpos p)) with (2 * (m * 2 ^ Zpos p)) by lia.
    rewrite shr_1_double by (assert (0 < 2 ^ Zpos p) by (apply Z.pow_pos_nonneg; lia); nia).
    now apply IH.
Qed.

Lemma iter_xO p q : Zpos (Pos.iter xO p q) = Zpos p * 2 ^ Zpos q.
Proof.
  induction q as [|q IH] using Pos.peano_ind.
  - cbn [Pos.iter]. lia.
  - rewrite Pos.iter_succ, Pos2Z.inj_succ, Z.pow_succ_r by lia.
    rewrite Pos2Z.inj_xO, IH. lia.
Qed.

Lemma fexp64 x : -1021 <= x -> fexp 53 1024 x = x - 53.
Proof. intros H. unfold fexp, emin. lia. Qed.

(** Rounding a mantissa that is a 53-bit number followed by [k] zero
    bits drops the zeros. *)
Lemma binary_round_aux_exact s (c : positive) e k :
  Zdigits2 (Zpos c) = 53 -> 0 <= k -> -1074 <= e + k <= 971 ->
  binary_round_aux 53 1024 s (Zpos c * 2 ^ k) e loc_Exact = S754_finite s c (e + k).
Proof.
  intros Hc Hk He. unfold binary_round_aux, shr_fexp.
  rewrite Zdigits2_shift by lia. rewrite Hc.
  rewrite fexp64 by lia. replace (53 + k + e - 53 - e) with k by lia.
  cbn [shr_record_of_loc].
  assert (Hshr : shr (Build_shr_record (Zpos c * 2 ^ k) false false) e k
                 = (Build_shr_record (Zpos c) false false, e + k)).
  { destruct k as [|p|p]; [| |lia].
    - cbn [shr]. f_equal; [f_equal|]; lia.
    - cbn [shr]. rewrite iter_pos_iter, iter_shr_exact by lia. reflexivity. }
  rewrite Hshr. cbn [shr_m loc_of_shr_record round_nearest_even].
  rewrite Hc. rewrite fexp64 by lia. replace (53 + (e + k) - 53 - (e + k)) with 0 by lia.
  cbn [shr_record_of_loc shr shr_m].
  replace (e + k <=? 1024 - 53) with true by (symmetry; apply Z.leb_le; lia).
  reflexivity.
Qed.

Lemma binary_round_aux_canonical s (c : positive) e :
  Zdigits2 (Zpos c) = 53 -> -1074 <= e <= 971 ->
  binary_round_aux 53 1024 s (Zpos c) e loc_Exact = S754_finite s c e.
Proof.
  intros Hc He. pose proof (binary_round_aux_exact s c e 0 Hc ltac:(lia) ltac:(lia)) as H.
  rewrite Z.pow_0_r, Z.mul_1_r, Z.add_0_r in H. exact H.
Qed.

Lemma mant_pos n : 0 < n -> n < 2 ^ 53 -> 0 < mant n.
Proof. intros Hn Hhi. destruct (mant_bounds n Hn Hhi) as [[H _] _]. lia. Qed.

(** An integer below 2^53 in absolute value is a number: rounding it
    only aligns its mantissa. *)
Lemma binary_round_integer sign p :
  Zpos p < 2 ^ 53 ->
  binary_round 53 1024 sign p 0
  = S754_finite sign (Z.to_pos (mant (Zpos p))) (Zdigits2 (Zpos p) - 53).
Proof.
  intros Hhi. destruct (mant_bounds (Zpos p) ltac:(lia) Hhi) as [Hm Hd].
  pose proof (Zdigits2_le (Zpos p) 53 ltac:(lia) ltac:(lia) Hhi) as Hle.
  pose proof (Zdigits2_pos (Zpos p) ltac:(lia)) as Hpos.
  unfold binary_round, shl_align.
  change (Zpos (digits2_pos p)) with (Zdigits2 (Zpos p)).
  rewrite Z.add_0_r, fexp64 by lia. rewrite Z.sub_0_r.
  destruct (Zdigits2 (Zpos p) - 53) as [|q|q] eqn:Hq; [|lia|].
  - assert (Hmant : mant (Zpos p) = Zpos p).
    { unfold mant. replace (53 - Zdigits2 (Zpos p)) with 0 by lia. lia. }
    rewrite Hmant, Pos2Z.id.
    apply binary_round_aux_canonical; [|lia]. rewrite <- Hmant. exact Hd.
  - assert (Hmant : mant (Zpos p) = Zpos (Pos.iter xO p q)).
    { unfold mant. rewrite iter_xO. f_equal. f_equal. lia. }
    rewrite Hmant, Pos2Z.id.
    apply binary_round_aux_canonical; [|lia]. rewrite <- Hmant. exact Hd.
Qed.

Lemma toNumber_canon n : 0 < n -> n < 2 ^ 53 -> toNumber n = canon n.
Proof.
  intros Hn Hhi. destruct n as [|p|p]; try lia.
  apply (binary_round_integer false p Hhi).
Qed.

(** The number nearest to an integer below 2^53 in absolute value is
    the integer itself. *)
Lemma numberValue_toNumber z : Z.abs z < 2 ^ 53 -> numberValue (toNumber z) = Some z.
Proof.
  intros Hz.
  assert (Hval : forall sign p,
            Zpos p < 2 ^ 53 ->
            numberValue (binary_round 53 1024 sign p 0)
            = Some (if sign then - Zpos p else Zpos p)).
  { intros sign p Hp. rewrite (binary_round_integer sign p Hp).
    pose proof (mant_pos (Zpos p) ltac:(lia) Hp) as Hmpos.
    pose proof (Zdigits2_le (Zpos p) 53 ltac:(lia) ltac:(lia) Hp) as Hle.
    cbn [numberValue]. rewrite Z2Pos.id by exact Hmpos. unfold mant.
    set (d := Zdigits2 (Zpos p)) in *.
    assert (Hpow : 0 < 2 ^ (53 - d)) by (apply Z.pow_pos_nonneg; lia).
    destruct (0 <=? d - 53) eqn:He.
    - apply Z.leb_le in He. replace (53 - d) with 0 by lia. replace (d - 53) with 0 by lia.
      cbn [option_map]. f_equal. destruct sign; lia.
    - replace (- (d - 53)) with (53 - d) by lia.
      rewrite Z.mod_mul, Z.eqb_refl, Z.div_mul by lia. reflexivity. }
  destruct z as [|p|p]; [reflexivity|apply (Hval false p Hz)|apply (Hval true p Hz)].
Qed.

Lemma canon_finite n :
  0 < n -> n < 2 ^ 53 ->
  exists m, canon n = S754_finite false m (Zdigits2 n - 53) /\ Zpos m = mant n.
Proof.
  intros Hn Hhi. pose proof (mant_pos n Hn Hhi).
  exists (Z.to_pos (mant n)). split; [reflexivity|]. apply Z2Pos.id. assumption.
Qed.

(** The product of two integers is exact when it is below 2^53. *)
Lemma mul64_exact a b :
  0 < a -> 0 < b -> a * b < 2 ^ 53 -> mul64 (canon a) (canon b) = canon (a * b).
Proof.
  intros Ha Hb Hab.
  assert (Ha53 : a < 2 ^ 53) by nia. assert (Hb53 : b < 2 ^ 53) by nia.
  destruct (canon_finite a Ha Ha53) as (ma & -> & Hma).
  destruct (canon_finite b Hb Hb53) as (mb & -> & Hmb).
  destruct (canon_finite (a * b) ltac:(nia) Hab) as (mc & -> & Hmc).
  destruct (mant_bounds (a * b) ltac:(nia) Hab) as [_ Hdc].
  pose proof (Zdigits2_bounds a Ha) as [Hla Hua].
  pose proof (Zdigits2_bounds b Hb) as [Hlb Hub].
  pose proof (Zdigits2_bounds (a * b) ltac:(nia)) as [Hlc Huc].
  pose proof (Zdigits2_pos a Ha). pose proof (Zdigits2_pos b Hb).
  pose proof (Zdigits2_le a 53 Ha ltac:(lia) Ha53).
  pose proof (Zdigits2_le b 53 Hb ltac:(lia) Hb53).
  pose proof (Zdigits2_le (a * b) 53 ltac:(nia) ltac:(lia) Hab).
  pose proof (Zdigits2_pos (a * b) ltac:(nia)).
  set (da := Zdigits2 a) in *. set (db := Zdigits2 b) in *. set (dc := Zdigits2 (a * b)) in *.
  assert (Hk : da + db - 2 < dc).
  { apply pow2_lt_inv; [lia|].
    replace (da + db - 2) with ((da - 1) + (db - 1)) by lia.
    rewrite Z.pow_add_r by lia.
    assert (0 < 2 ^ (da - 1)) by (apply Z.pow_pos_nonneg; lia).
    assert (0 < 2 ^ (db - 1)) by (apply Z.pow_pos_nonneg; lia). nia. }
  unfold mul64, SFmul. cbn [xorb].
  assert (Hprod : Zpos (ma * mb) = Zpos mc * 2 ^ (53 - da - db + dc)).
  { rewrite Pos2Z.inj_mul, Hma, Hmb, Hmc. unfold mant. fold da db dc.
    replace (a * b * 2 ^ (53 - dc) * 2 ^ (53 - da - db + dc))
      with (a * b * (2 ^ (53 - dc) * 2 ^ (53 - da - db + dc))) by ring.
    rewrite <- Z.pow_add_r by lia.
    replace (a * 2 ^ (53 - da) * (b * 2 ^ (53 - db)))
      with (a * b * (2 ^ (53 - da) * 2 ^ (53 - db))) by ring.
    rewrite <- Z.pow_add_r by lia. f_equal. f_equal. lia. }
  rewrite Hprod, binary_round_aux_exact; try lia.
  - f_equal. lia.
  - rewrite Hmc. exact Hdc.
Qed.

Lemma shl_align_value m e e' :
  e' <= e -> Zpos (fst (shl_align m e e')) = Zpos m * 2 ^ (e - e').
Proof.
  intros H. unfold shl_align. destruct (e' - e) as [|p|p] eqn:Hp; [|lia|].
  - cbn [fst]. replace (e - e') with 0 by lia. lia.
  - cbn [fst]. rewrite iter_xO. f_equal. f_equal. lia.
Qed.

(** The sum of two integers is exact when it is below 2^53. *)
Lemma add64_exact a b :
  0 < a -> 0 < b -> a + b < 2 ^ 53 -> add64 (canon a) (canon b) = canon (a + b).
Proof.
  intros Ha Hb Hab.
  assert (Ha53 : a < 2 ^ 53) by lia. assert (Hb53 : b < 2 ^ 53) by lia.
  destruct (canon_finite a Ha Ha53) as (ma & -> & Hma).
  destruct (canon_finite b Hb Hb53) as (mb & -> & Hmb).
  destruct (canon_finite (a + b) ltac:(lia) Hab) as (mc & -> & Hmc).
  destruct (mant_bounds (a + b) ltac:(lia) Hab) as [_ Hdc].
  pose proof (Zdigits2_pos a Ha). pose proof (Zdigits2_pos b Hb).
  pose proof (Zdigits2_le a 53 Ha ltac:(lia) Ha53).
  pose proof (Zdigits2_le b 53 Hb ltac:(lia) Hb53).
  pose proof (Zdigits2_le (a + b) 53 ltac:(lia) ltac:(lia) Hab).
  pose proof (Zdigits2_mono a (a + b) Ha ltac:(lia)).
  pose proof (Zdigits2_mono b (a + b) Hb ltac:(lia)).
  set (da := Zdigits2 a) in *. set (db := Zdigits2 b) in *. set (dc := Zdigits2 (a + b)) in *.
  unfold add64, SFadd. cbn [cond_Zopp].
  set (ez := Z.min (da - 53) (db - 53)).
  assert (Hsum : Zpos (fst (shl_align ma (da - 53) ez)) + Zpos (fst (shl_align mb (db - 53) ez))
                 = Zpos mc * 2 ^ (dc - 53 - ez)).
  { rewrite !shl_align_value by (unfold ez; lia). rewrite Hma, Hmb, Hmc. unfold mant.
    fold da db dc.
    rewrite <- !Z.mul_assoc, <- !Z.pow_add_r by (unfold ez; lia).
    replace (53 - da + (da - 53 - ez)) with (- ez) by lia.
    replace (53 - db + (db - 53 - ez)) with (- ez) by lia.
    replace (53 - dc + (dc - 53 - ez)) with (- ez) by lia. ring. }
  rewrite Hsum.
  assert (Hpos : 0 < Zpos mc * 2 ^ (dc - 53 - ez)).
  { assert (0 < 2 ^ (dc - 53 - ez)) by (apply Z.pow_pos_nonneg; unfold ez; lia). nia. }
  destruct (Zpos mc * 2 ^ (dc - 53 - ez)) as [|P|P] eqn:HP; try lia.
  unfold binary_normalize, binary_round, shl_align.
  change (Zpos (digits2_pos P)) with (Zdigits2 (Zpos P)).
  assert (HdP : Zdigits2 (Zpos P) = dc - ez).
  { rewrite <- HP, Zdigits2_shift by (unfold ez; lia). rewrite Hmc, Hdc. lia. }
  rewrite HdP, fexp64 by (unfold ez; lia).
  destruct (dc - ez + ez - 53 - ez) as [|q|q] eqn:Hq; [| |unfold ez in *; lia].
  - rewrite <- HP, binary_round_aux_exact; try (unfold ez in *; lia).
    + f_equal. unfold ez in *; lia.
    + rewrite Hmc. exact Hdc.
  - rewrite <- HP, binary_round_aux_exact; try (unfold ez in *; lia).
    + f_equal. unfold ez in *; lia.
    + rewrite Hmc. exact Hdc.
Qed.



Lemma loc_of_shr_record_of_loc m l : loc_of_shr_record (shr_record_of_loc m l) = l.
Proof. destruct l as [|[]]; reflexivity. Qed.

Lemma round_nearest_even_bounds m l : m <= round_nearest_even m l <= m + 1.
Proof. destruct l as [|[]]; cbn; try lia. destruct (Z.even m); lia. Qed.

Lemma shr_1_m m r s : 0 <= m -> shr_m (shr_1 (Build_shr_record m r s)) = m / 2.
Proof.
  destruct m as [|[p|p|]|]; try lia; intros _; cbn [shr_1 shr_m].
  - reflexivity.
  - rewrite Pos2Z.inj_xI. dlia.
  - rewrite Pos2Z.inj_xO. dlia.
  - reflexivity.
Qed.

Lemma shr_1_exact m :
  0 <= m -> m mod 2 = 0 ->
  shr_1 (Build_shr_record m false false) = Build_shr_record (m / 2) false false.
Proof.
  intros Hm Heven. replace m with (2 * (m / 2)) at 1 by dlia.
  apply shr_1_double. dlia.
Qed.

(** Rounding a mantissa of 53 or 54 bits: at most one bit is shifted
    out, the result is the quotient or its successor, and it is the
    quotient when nothing is lost. *)
Lemma binary_round_aux_short s q e l :
  2 ^ 52 <= q < 2 ^ 54 -> -1074 <= e <= 900 ->
  let n := if q <? 2 ^ 53 then 0 else 1 in
  exists q2 q3 e3,
    binary_round_aux 53 1024 s q e l = S754_finite s q3 e3
    /\ q / 2 ^ n <= q2 <= q / 2 ^ n + 1
    /\ (l = loc_Exact -> q mod 2 ^ n = 0 -> q2 = q / 2 ^ n)
    /\ ((e3 = e + n /\ Zpos q3 = q2) \/ (e3 = e + n + 1 /\ 2 * Zpos q3 = q2)).
Proof.
  intros [Hlo Hhi] He n.
  change (2 ^ 52) with 4503599627370496 in *.
  change (2 ^ 54) with 18014398509481984 in *.
  (* first shift *)
  assert (Hfirst : exists rec1,
             shr_fexp 53 1024 q e l = (rec1, e + n)
             /\ shr_m rec1 = q / 2 ^ n
             /\ (l = loc_Exact -> q mod 2 ^ n = 0 -> loc_of_shr_record rec1 = loc_Exact)).
  { unfold shr_fexp, n. destruct (q <? 2 ^ 53) eqn:Hq.
    - apply Z.ltb_lt in Hq. change (2 ^ 53) with 9007199254740992 in Hq.
      rewrite (Zdigits2_unique q 53) by (change (2 ^ (53 - 1)) with 4503599627370496;
        change (2 ^ 53) with 9007199254740992; lia).
      rewrite fexp64 by lia. replace (53 + e - 53 - e) with 0 by lia.
      cbn [shr]. eexists. split; [f_equal; lia|]. split.
      + destruct l as [|[]]; cbn [shr_record_of_loc shr_m]; rewrite Z.pow_0_r, Z.div_1_r;
          reflexivity.
      + intros -> _. reflexivity.
    - apply Z.ltb_ge in Hq. change (2 ^ 53) with 9007199254740992 in Hq.
      rewrite (Zdigits2_unique q 54) by (change (2 ^ (54 - 1)) with 9007199254740992;
        change (2 ^ 54) with 18014398509481984; lia).
      rewrite fexp64 by lia. replace (54 + e - 53 - e) with 1 by lia.
      cbn [shr SpecFloat.iter_pos]. eexists. split; [reflexivity|]. split.
      + destruct l as [|[]]; cbn [shr_record_of_loc]; rewrite shr_1_m by lia; reflexivity.
      + intros -> Heven. cbn [shr_record_of_loc]. change (2 ^ 1) with 2 in Heven.
        rewrite shr_1_exact by lia. reflexivity. }
  destruct Hfirst as (rec1 & Hshr1 & Hm1 & Hex1).
  assert (Hq1 : 4503599627370496 <= q / 2 ^ n < 9007199254740992).
  { unfold n. destruct (q <? 2 ^ 53) eqn:Hq.
    - apply Z.ltb_lt in Hq. change (2 ^ 53) with 9007199254740992 in Hq.
      rewrite Z.pow_0_r, Z.div_1_r. lia.
    - apply Z.ltb_ge in Hq. change (2 ^ 53) with 9007199254740992 in Hq.
      change (2 ^ 1) with 2. dlia. }
  set (q2 := round_nearest_even (shr_m rec1) (loc_of_shr_record rec1)).
  pose proof (round_nearest_even_bounds (shr_m rec1) (loc_of_shr_record rec1)) as Hq2.
  fold q2 in Hq2. rewrite Hm1 in Hq2.
  assert (Hq2ex : l = loc_Exact -> q mod 2 ^ n = 0 -> q2 = q / 2 ^ n).
  { intros Hl Hmod. unfold q2. rewrite (Hex1 Hl Hmod), Hm1. reflexivity. }
  unfold binary_round_aux. rewrite Hshr1. fold q2.
  destruct (Z.eq_dec q2 9007199254740992) as [Hq2max|Hq2lt].
  - (* the rounded mantissa is 2^53 *)
    exists q2, 4503599627370496%positive, (e + n + 1).
    split; [|split; [exact Hq2|split; [exact Hq2ex|right; split; [reflexivity|lia]]]].
    rewrite Hq2max. unfold shr_fexp.
    change (Zdigits2 9007199254740992) with 54.
    rewrite fexp64 by (unfold n; destruct (q <? 2 ^ 53); lia).
    replace (54 + (e + n) - 53 - (e + n)) with 1 by lia.
    cbn [shr SpecFloat.iter_pos shr_record_of_loc shr_1 shr_m].
    replace (e + n + 1 <=? 1024 - 53) with true
      by (symmetry; apply Z.leb_le; unfold n; destruct (q <? 2 ^ 53); lia).
    reflexivity.
  - assert (Hpos : 0 < q2) by lia.
    destruct q2 as [|p2|p2] eqn:Hp2; try lia.
    exists (Zpos p2), p2, (e + n).
    split; [|split; [exact Hq2|split; [exact Hq2ex|left; split; reflexivity]]].
    unfold shr_fexp.
    rewrite (Zdigits2_unique (Zpos p2) 53) by (change (2 ^ (53 - 1)) with 4503599627370496;
        change (2 ^ 53) with 9007199254740992; lia).
    rewrite fexp64 by (unfold n; destruct (q <? 2 ^ 53); lia).
    replace (53 + (e + n) - 53 - (e + n)) with 0 by lia.
    cbn [shr shr_record_of_loc shr_m].
    replace (e + n <=? 1024 - 53) with true
      by (symmetry; apply Z.leb_le; unfold n; destruct (q <? 2 ^ 53); lia).
    reflexivity.
Qed.

Lemma ceilDiv_unique a b c : 0 < b -> (c - 1) * b < a <= c * b -> ceilDiv a b = c.
Proof. intros Hb H. unfold ceilDiv. dnia. Qed.

Lemma ceilDiv_spec a b : 0 < b -> (ceilDiv a b - 1) * b < a <= ceilDiv a b * b.
Proof. intros Hb. unfold ceilDiv. dnia. Qed.

(** Dividing an integer below 2^52 by 1000 and rounding up: the grid of
    the quotient is finer than 1/1000, so rounding cannot reach or cross
    an integer that the exact quotient does not reach. *)
Lemma ceil_div1000 x :
  0 < x -> x < 2 ^ 52 ->
  Math_ceil (div64 (canon x) (canon 1000)) = canon (ceilDiv x 1000).
Proof.
  intros Hx Hhi.
  assert (Hx53 : x < 2 ^ 53) by (change (2 ^ 53) with (2 * 2 ^ 52); lia).
  destruct (canon_finite x Hx Hx53) as (m1 & -> & Hm1).
  destruct (mant_bounds x Hx Hx53) as [Hmb Hmd].
  pose proof (Zdigits2_pos x Hx) as Hdpos.
  pose proof (Zdigits2_le x 52 Hx ltac:(lia) Hhi) as Hdle.
  set (dx := Zdigits2 x) in *.
  change (canon 1000) with (S754_finite false 8796093022208000 (-43)).
  pose proof (ceilDiv_spec x 1000 ltac:(lia)) as HC.
  set (C := ceilDiv x 1000) in *.
  (* the quotient *)
  set (t := 63 - dx).
  assert (HT : 2 ^ t = 2 ^ 11 * 2 ^ (t - 11)) by (rewrite <- Z.pow_add_r by (unfold t; lia); f_equal; lia).
  assert (HTpos : 0 < 2 ^ (t - 11)) by (apply Z.pow_pos_nonneg; unfold t; lia).
  assert (HA : Zpos m1 * 2 ^ 53 = x * 2 ^ t * 8796093022208).
  { rewrite Hm1. unfold mant. fold dx. change 8796093022208 with (2 ^ 43).
    rewrite <- !Z.mul_assoc, <- !Z.pow_add_r by (unfold t; lia). f_equal. f_equal. unfold t. lia. }
  unfold div64, SFdiv, SFdiv_core_binary. cbn [xorb].
  rewrite Hm1, Hmd. change (Zdigits2 8796093022208000) with 53.
  replace (53 + (dx - 53) - (53 + -43)) with (dx - 10) by lia.
  rewrite fexp64 by lia.
  replace (Z.min (dx - 10 - 53) (dx - 53 - -43)) with (dx - 63) by lia.
  replace (dx - 53 - -43 - (dx - 63)) with 53 by lia.
  rewrite <- Hm1. rewrite Z.shiftl_mul_pow2 by lia. rewrite HA.
  pose proof (Z_div_mod (x * 2 ^ t * 8796093022208) 8796093022208000 ltac:(lia)) as Hdm.
  destruct (Z.div_eucl (x * 2 ^ t * 8796093022208) 8796093022208000) as [q r].
  destruct Hdm as [Hdm Hr].
  assert (Hq : q = (x * 2 ^ t) / 1000) by dnia.
  assert (Hxt : 2 ^ 62 <= x * 2 ^ t < 2 ^ 63).
  { pose proof (Zdigits2_bounds x Hx) as [Hl Hu]. fold dx in Hl, Hu.
    replace 62 with ((dx - 1) + t) by (unfold t; lia).
    replace 63 with (dx + t) by (unfold t; lia).
    rewrite !Z.pow_add_r by (unfold t; lia).
    assert (0 < 2 ^ t) by (apply Z.pow_pos_nonneg; unfold t; lia). nia. }
  change (2 ^ 62) with 4611686018427387904 in Hxt.
  change (2 ^ 63) with 9223372036854775808 in Hxt.
  assert (Hqb : 2 ^ 52 <= q < 2 ^ 54).
  { change (2 ^ 52) with 4503599627370496. change (2 ^ 54) with 18014398509481984.
    rewrite Hq. dlia. }
  destruct (binary_round_aux_short false q (dx - 63)
              (new_location 8796093022208000 r) Hqb ltac:(lia))
    as (q2 & q3 & e3 & -> & Hq2 & Hexact & Hnorm).
  set (n := if q <? 2 ^ 53 then 0 else 1) in *.
  assert (Hn : n = 0 \/ n = 1) by (unfold n; destruct (q <? 2 ^ 53); auto).
  (* the grid *)
  set (G := 2 ^ (t - n)).
  assert (HG : 2 ^ t = G * 2 ^ n).
  { unfold G. rewrite <- Z.pow_add_r by (unfold t; lia). f_equal. lia. }
  assert (HG10 : 1024 <= G).
  { unfold G. change 1024 with (2 ^ 10). apply Z.pow_le_mono_r; unfold t; lia. }
  assert (Hn2 : 0 < 2 ^ n) by (apply Z.pow_pos_nonneg; lia).
  assert (Hq1 : q / 2 ^ n = (x * G) / 1000).
  { rewrite Hq, HG. rewrite Z.div_div by lia.
    replace (x * (G * 2 ^ n)) with (x * G * 2 ^ n) by ring.
    rewrite Z.div_mul_cancel_r by lia. reflexivity. }
  rewrite Hq1 in Hq2, Hexact.
  (* the rounded quotient is between (C - 1) * G, excluded, and C * G *)
  assert (Hbetween : (C - 1) * G < q2 <= C * G).
  { destruct (Z.eq_dec x (C * 1000)) as [Hdiv|Hndiv].
    - assert (Hr0 : r = 0).
      { rewrite Hdiv, HT in Hdm. dnia. }
      assert (Hloc : new_location 8796093022208000 r = loc_Exact).
      { rewrite Hr0. reflexivity. }
      assert (Hmod : q mod 2 ^ n = 0).
      { destruct Hn as [-> | ->]; [apply Z.mod_1_r|].
        rewrite Hq, Hdiv, HT. change (2 ^ 1) with 2. change (2 ^ 11) with 2048.
        replace (C * 1000 * (2048 * 2 ^ (t - 11)) / 1000) with (C * (2048 * 2 ^ (t - 11)))
          by dnia.
        replace (C * (2048 * 2 ^ (t - 11))) with ((C * 1024 * 2 ^ (t - 11)) * 2) by ring.
        apply Z.mod_mul. lia. }
      rewrite (Hexact Hloc Hmod), Hdiv.
      replace (C * 1000 * G / 1000) with (C * G) by dnia. nia.
    - assert (x * G / 1000 < C * G - 1) by dnia.
      assert ((C - 1) * G < x * G / 1000) by dnia.
      lia. }
  (* rounding up *)
  assert (He3 : e3 < 0) by (unfold t in *; lia).
  unfold Math_ceil. replace (0 <=? e3) with false by (symmetry; apply Z.leb_gt; lia).
  assert (Hc : ceilDiv (Zpos q3) (2 ^ (- e3)) = C).
  { apply ceilDiv_unique; [apply Z.pow_pos_nonneg; lia|].
    destruct Hnorm as [[-> <-] | [-> Hhalf]].
    - replace (- (dx - 63 + n)) with (t - n) by (unfold t; lia). fold G. exact Hbetween.
    - assert (HG2 : G = 2 * 2 ^ (- (dx - 63 + n + 1))).
      { unfold G. rewrite <- Z.pow_succ_r by (unfold t in *; lia). f_equal. unfold t. lia. }
      nia. }
  rewrite Hc.
  assert (HCpos : 0 < C) by nia.
  replace (C =? 0) with false by (symmetry; apply Z.eqb_neq; lia).
  apply toNumber_canon; [lia|].
  change (2 ^ 53) with 9007199254740992. change (2 ^ 52) with 4503599627370496 in Hhi. lia.
Qed.

Lemma durationFrames64_exact d :
  0 < d -> d * 30 < 2 ^ 52 ->
  durationFrames64 (toNumber d) = toNumber (ceilDiv (d * 30) 1000).
Proof.
  intros Hd Hhi. change (2 ^ 52) with 4503599627370496 in Hhi.
  unfold durationFrames64, FPS.
  rewrite (toNumber_canon d), (toNumber_canon 30), (toNumber_canon 1000)
    by (change (2 ^ 53) with 9007199254740992; lia).
  rewrite mul64_exact by (change (2 ^ 53) with 9007199254740992; lia).
  rewrite ceil_div1000 by (change (2 ^ 52) with 4503599627370496; lia).
  pose proof (ceilDiv_spec (d * 30) 1000 ltac:(lia)).
  symmetry. apply toNumber_canon; change (2 ^ 53) with 9007199254740992; lia.
Qed.

Lemma add64_toNumber a b :
  0 <= a -> 0 < b -> a + b < 2 ^ 53 -> add64 (toNumber a) (toNumber b) = toNumber (a + b).
Proof.
  intros Ha Hb Hsum. destruct (Z.eq_dec a 0) as [->|Hnz].
  - rewrite Z.add_0_l, (toNumber_canon b) by lia. reflexivity.
  - rewrite (toNumber_canon a), (toNumber_canon b), (toNumber_canon (a + b)) by lia.
    apply add64_exact; lia.
Qed.

(** A running sum of integers that stays below 2^53 is exact. *)
Lemma fold_add64_exact {A} (h : A -> number) (f : number -> number) (g : A -> Z)
    (xs : list A) :
  Forall (fun x => 0 < g x /\ f (h x) = toNumber (g x)) xs ->
  forall acc, 0 <= acc ->
  acc + foldr (fun x a => g x + a) 0 xs < 2 ^ 53 ->
  fold_left (fun c y => add64 c (f y)) (map h xs) (toNumber acc)
  = toNumber (acc + foldr (fun x a => g x + a) 0 xs).
Proof.
  induction 1 as [|x xs [Hx Hfx] Hxs IH]; intros acc Hacc Hsum;
    cbn [map fold_left foldr] in *.
  - now rewrite Z.add_0_r.
  - assert (Hrest : 0 <= foldr (fun x a => g x + a) 0 xs).
    { clear -Hxs. induction Hxs as [|y ys [Hy _] _ IHys]; cbn [foldr]; lia. }
    rewrite Hfx, add64_toNumber by lia.
    rewrite IH by lia. f_equal. lia.
Qed.

(* ===================================================================== *)
(** * Frames of a scene                                                    *)
(* ===================================================================== *)

Lemma framesOf_bounds scene :
  WorkerScene.duration scene * 30 <= framesOf scene * 1000
    < WorkerScene.duration scene * 30 + 1000.
Proof. unfold framesOf, FPS. apply ceilDiv_bounds. lia. Qed.

(* ===================================================================== *)
(** * Validated requests                                                   *)
(* ===================================================================== *)

Lemma validateScenes_Ok_inv scenes i s u s' :
  validateScenes scenes i s = (Ok u, s') -> s' = s /\ Forall sceneValid scenes.
Proof.
  revert i s. induction scenes as [|scene rest IH]; intros i s H; simpl in H.
  - inversion H. auto.
  - apply bind_Ok_inv in H as (? & s1 & H1 & H).
    apply lift_assert_Ok_inv in H1 as [Htext ->].
    apply bind_Ok_inv in H as (? & s2 & H2 & H).
    apply lift_assert_Ok_inv in H2 as [Hdur ->].
    apply IH in H as [-> Hrest]. split; [reflexivity|].
    constructor; [|exact Hrest]. split.
    + intros Hnil. rewrite Hnil in Htext. discriminate.
    + lia.
Qed.

Lemma validateRequest_Ok_inv request correlationId s validated s' :
  validateRequest request correlationId s = (Ok validated, s') ->
  validated = request /\ Validated request.
Proof.
  unfold validateRequest. intros H.
  apply bind_Ok_inv in H as (? & s1 & H1 & H).
  apply lift_assert_Ok_inv in H1 as [_ ->].
  destruct (ShortVideoRenderRequest.scenes request) as [scenes|] eqn:Hscenes;
    [|discriminate].
  apply bind_Ok_inv in H as (? & s1 & H1 & H). inversion H1; subst; clear H1.
  apply bind_Ok_inv in H as (? & s2 & H1 & H).
  apply lift_assert_Ok_inv in H1 as [Hlen ->].
  apply bind_Ok_inv in H as (? & s2 & H1 & H).
  apply validateScenes_Ok_inv in H1 as [-> Heach].
  apply bind_Ok_inv in H as (? & s2 & H1 & H).
  apply lift_assert_Ok_inv in H1 as [_ ->].
  destruct (ShortVideoRenderRequest.config request) as [cfg|] eqn:Hconfig;
    [|discriminate].
  apply bind_Ok_inv in H as (? & s2 & H1 & H). inversion H1; subst; clear H1.
  apply bind_Ok_inv in H as (? & s3 & H1 & H).
  apply lift_assert_Ok_inv in H1 as [Htts ->].
  apply bind_Ok_inv in H as (resolution & s3 & H1 & H).
  unfold lift in H1. inversion H1 as [[Hres Hs]]; subst s3; clear H1.
  apply bind_Ok_inv in H as (? & s3 & H1 & H).
  apply lift_assert_Ok_inv in H1 as [Hpos ->].
  apply bind_Ok_inv in H as (? & s3 & _ & H).
  inversion H; subst. split; [reflexivity|].
  eexists _, _, resolution. repeat split; eauto.
  - intros ->. simpl in Hlen. discriminate.
  - intros Hnil. rewrite Hnil in Htts. discriminate.
  - lia.
  - lia.
Qed.

Lemma Validated_buildRenderPlan request audioBuffer resolvedAssets s :
  Validated request ->
  exists scenes plan,
    ShortVideoRenderRequest.scenes request = Some scenes
    /\ scenes <> [] /\ Forall sceneValid scenes
    /\ buildRenderPlan request audioBuffer resolvedAssets s = (Ok plan, s)
    /\ InternalRenderPlan.scenes plan = planScenes scenes resolvedAssets 0 0
    /\ InternalRenderPlan.fps plan = 30.
Proof.
  intros (scenes & cfg & resolution & Hs & Hne & Heach & Hc & _ & Hres & _).
  assert (Hplan : exists plan,
             buildRenderPlan request audioBuffer resolvedAssets s = (Ok plan, s)
             /\ InternalRenderPlan.scenes plan = planScenes scenes resolvedAssets 0 0
             /\ InternalRenderPlan.fps plan = 30).
  { unfold buildRenderPlan. rewrite Hc, Hs. cbn. unfold bind, lift.
    rewrite Hres. eexists. split; [reflexivity|]. split; reflexivity. }
  destruct Hplan as (plan & Hplan & Hsc & Hfps).
  exists scenes, plan. auto 10.
Qed.

(* ===================================================================== *)
(** * The scene loop of the plan builder                                   *)
(* ===================================================================== *)

Lemma planScenes_length scenes resolvedAssets i currentFrame :
  length (planScenes scenes resolvedAssets i currentFrame) = length scenes.
Proof.
  revert i currentFrame. induction scenes as [|scene rest IH]; intros; simpl.
  - reflexivity.
  - now rewrite IH.
Qed.

(** The [k]-th entry of the loop's output is built from the [k]-th scene
    and from the asset at the same absolute index. *)
Lemma planScenes_lookup scenes resolvedAssets i currentFrame (k : nat) p :
  planScenes scenes resolvedAssets i currentFrame !! k = Some p ->
  exists scene,
    scenes !! k = Some scene
    /\ InternalSceneRenderPlan.durationInFrames p = framesOf scene
    /\ InternalSceneRenderPlan.duration p = WorkerScene.duration scene
    /\ InternalSceneRenderPlan.text p = sanitizeText (WorkerScene.text scene)
    /\ InternalSceneRenderPlan.assetPath p
       = match resolvedAssets !! (i + k)%nat with
         | Some asset => ResolvedAsset.localPath asset
         | None => None
         end.
Proof.
  revert i currentFrame k.
  induction scenes as [|scene rest IH]; intros i currentFrame k H; simpl in H.
  - destruct k; discriminate.
  - destruct k as [|k]; simpl in H.
    + inversion H; subst; clear H. exists scene. simpl.
      rewrite Nat.add_0_r. repeat split; reflexivity.
    + apply IH in H as (sc & Hsc & Hrest). exists sc. split; [exact Hsc|].
      replace (i + S k)%nat with (S i + k)%nat by lia. exact Hrest.
Qed.



Lemma sumFrames_planScenes scenes resolvedAssets i currentFrame :
  sumFrames (planScenes scenes resolvedAssets i currentFrame)
  = foldr (fun scene acc => framesOf scene + acc) 0 scenes.
Proof.
  revert i currentFrame. induction scenes as [|scene rest IH]; intros; simpl.
  - reflexivity.
  - rewrite IH. reflexivity.
Qed.

Lemma totalDurationMs_foldr scenes :
  totalDurationMs scenes
  = foldr (fun scene acc => WorkerScene.duration scene + acc) 0 scenes.
Proof.
  unfold totalDurationMs.
  assert (Hacc : forall l acc,
            fold_left (fun sum s => sum + WorkerScene.duration s) l acc
            = acc + foldr (fun scene a => WorkerScene.duration scene + a) 0 l).
  { induction l as [|x l IH]; intros acc; simpl; [lia|]. rewrite IH. lia. }
  rewrite Hacc. lia.
Qed.

(** The per-scene ceilings add up to at least the exact frame count and
    to less than one extra frame per scene. *)
Lemma sum_of_ceilings scenes :
  let frames := foldr (fun scene acc => framesOf scene + acc) 0 scenes in
  totalDurationMs scenes * 30 <= frames * 1000
  /\ frames * 1000 <= totalDurationMs scenes * 30 + 1000 * Z.of_nat (length scenes)
  /\ (scenes <> [] ->
      frames * 1000 < totalDurationMs scenes * 30 + 1000 * Z.of_nat (length scenes)).
Proof.
  rewrite totalDurationMs_foldr.
  induction scenes as [|scene rest IH]; simpl.
  - repeat split; try lia. congruence.
  - destruct IH as (IH1 & IH2 & _).
    pose proof (framesOf_bounds scene) as Hb.
    repeat split; try lia.
Qed.

(** ** The binary64 evaluation of the frame counts

    On whole-millisecond durations whose total, times 30, is below 2^52,
    every product and sum of [buildRenderPlan] is exact and every
    quotient rounds to the same integer as the exact one. *)

Lemma totalDurationMs_bounds scenes :
  Forall sceneValid scenes ->
  Z.of_nat (length scenes) <= totalDurationMs scenes
  /\ Forall (fun scene => 0 < WorkerScene.duration scene <= totalDurationMs scenes) scenes.
Proof.
  rewrite totalDurationMs_foldr.
  induction 1 as [|scene rest [_ Hpos] Hrest [IHlen IHeach]]; cbn [foldr length].
  - split; [lia|constructor].
  - assert (0 <= foldr (fun scene acc => WorkerScene.duration scene + acc) 0 rest) by lia.
    split; [lia|]. constructor; [lia|].
    eapply Forall_impl; [exact IHeach|]. cbn beta. intros sc Hsc. lia.
Qed.

Lemma totalFrames64_exact scenes :
  Forall sceneValid scenes -> scenes <> [] ->
  totalDurationMs scenes * 30 < 2 ^ 52 ->
  totalFrames64 (map (fun scene => toNumber (WorkerScene.duration scene)) scenes)
  = toNumber (totalFrames scenes).
Proof.
  intros Heach Hne Hhi. destruct (totalDurationMs_bounds scenes Heach) as [Hlen Hds].
  assert (Hpos : 0 < totalDurationMs scenes).
  { destruct scenes; [congruence|]. cbn [length] in Hlen. lia. }
  change (2 ^ 52) with 4503599627370496 in Hhi.
  pose proof (fold_add64_exact (fun scene => toNumber (WorkerScene.duration scene))
                (fun y => y) WorkerScene.duration scenes) as Hsum.
  cbn beta in Hsum. rewrite <- totalDurationMs_foldr in Hsum.
  unfold totalFrames64, totalDurationMs64. change (S754_zero false) with (toNumber 0).
  rewrite Hsum; [| |lia|change (2 ^ 53) with 9007199254740992; lia].
  - apply (durationFrames64_exact (totalDurationMs scenes) Hpos).
    change (2 ^ 52) with 4503599627370496. lia.
  - eapply Forall_impl; [exact Hds|]. cbn beta. intros scene Hscene.
    split; [lia|reflexivity].
Qed.

Lemma sumFrames64_exact scenes :
  Forall sceneValid scenes ->
  totalDurationMs scenes * 30 < 2 ^ 52 ->
  sumFrames64 (map (fun scene => toNumber (WorkerScene.duration scene)) scenes)
  = toNumber (foldr (fun scene acc => framesOf scene + acc) 0 scenes).
Proof.
  intros Heach Hhi. destruct (totalDurationMs_bounds scenes Heach) as [Hlen Hds].
  destruct (sum_of_ceilings scenes) as (_ & Hup & _). cbv zeta in Hup.
  change (2 ^ 52) with 4503599627370496 in Hhi.
  pose proof (fold_add64_exact (fun scene => toNumber (WorkerScene.duration scene))
                durationFrames64 framesOf scenes) as Hsum.
  unfold sumFrames64. change (S754_zero false) with (toNumber 0).
  rewrite Hsum; [reflexivity| |lia|change (2 ^ 53) with 9007199254740992; lia].
  eapply Forall_impl; [exact Hds|]. cbn beta. intros scene Hscene. split.
  - pose proof (ceilDiv_positive (WorkerScene.duration scene * FPS) 1000) as Hf.
    unfold framesOf. unfold FPS in *. lia.
  - apply durationFrames64_exact; [lia|]. change (2 ^ 52) with 4503599627370496. lia.
Qed.

(* ===================================================================== *)
(** * The render plan of a validated request                               *)
(* ===================================================================== *)



(** The scenario of the specification: 1000 ms and 2000 ms give scenes of
    30 and 60 frames starting at frames 0 and 30. *)
Example buildRenderPlan_scenario :
  match fst (buildRenderPlan sampleRequest [] [] sampleState) with
  | Ok plan =>
      (InternalRenderPlan.width plan, InternalRenderPlan.height plan,
       InternalRenderPlan.fps plan,
       map (fun p => (InternalSceneRenderPlan.startFrame p,
                      InternalSceneRenderPlan.durationInFrames p))
           (InternalRenderPlan.scenes plan))
      = (1080, 1920, 30, [(0, 30); (30, 60)])
  | Throw _ => False
  end.
Proof. reflexivity. Qed.

(** C2 (amended): every scene of a validated request whose duration is
    a whole number [d] of milliseconds with [d * 30 < 2^52] gets
    [ceil(d * 30 / 1000)] frames, that is the least integer [f] with
    [d * 30 <= f * 1000], and at least one frame; this integer is what
    the double-precision evaluation of
    [Math.ceil((scene.duration * fps) / 1000)] yields. *)
Theorem buildRenderPlan_duration_ceiling
    request correlationId s0 validated s1 audioBuffer resolvedAssets s :
  validateRequest request correlationId s0 = (Ok validated, s1) ->
  exists plan scenes,
    buildRenderPlan validated audioBuffer resolvedAssets s = (Ok plan, s)
    /\ ShortVideoRenderRequest.scenes validated = Some scenes
    /\ forall (i : nat) scene,
         scenes !! i = Some scene ->
         WorkerScene.duration scene * 30 < 2 ^ 52 ->
         0 < WorkerScene.duration scene
         /\ exists p,
              InternalRenderPlan.scenes plan !! i = Some p
              /\ InternalSceneRenderPlan.durationInFrames p
                 = ceilDiv (WorkerScene.duration scene * 30) 1000
              /\ (InternalSceneRenderPlan.durationInFrames p - 1) * 1000
                 < WorkerScene.duration scene * 30
                 <= InternalSceneRenderPlan.durationInFrames p * 1000
              /\ 1 <= InternalSceneRenderPlan.durationInFrames p
              /\ durationFrames64 (toNumber (WorkerScene.duration scene))
                 = toNumber (InternalSceneRenderPlan.durationInFrames p).
Proof.
  intros Hv. apply validateRequest_Ok_inv in Hv as [-> Hv].
  destruct (Validated_buildRenderPlan request audioBuffer resolvedAssets s Hv)
    as (scenes & plan & Hs & Hne & Heach & Hplan & Hsc & _).
  exists plan, scenes. split; [exact Hplan|]. split; [exact Hs|].
  intros i scene Hscene Hrange.
  pose proof (Forall_lookup_1 _ _ _ _ Heach Hscene) as [_ Hpos].
  split; [exact Hpos|].
  destruct (lookup_lt_is_Some_2 (InternalRenderPlan.scenes plan) i) as [p Hp].
  { rewrite Hsc, planScenes_length. eapply lookup_lt_Some; eauto. }
  exists p. split; [exact Hp|].
  rewrite Hsc in Hp. apply planScenes_lookup in Hp as (scene' & Hscene' & Hframes & _).
  assert (scene' = scene) as -> by congruence.
  pose proof (framesOf_bounds scene) as Hb.
  rewrite Hframes. split; [reflexivity|]. split; [lia|]. split; [lia|].
  apply (durationFrames64_exact (WorkerScene.duration scene) Hpos Hrange).
Qed.

Lemma buildRenderPlan_duration_ceiling_witness :
  validateRequest tinyRequest [] sampleState
  = (Ok tinyRequest,
     emit (EvLog LogInfo [("correlationId", []); ("sceneCount", lit "1")]
             (lit "Request validation passed")) sampleState)
  /\ 1 * 30 < 2 ^ 52
  /\ exists plan p,
       buildRenderPlan tinyRequest [] [] sampleState = (Ok plan, sampleState)
       /\ InternalRenderPlan.scenes plan !! 0%nat = Some p
       /\ InternalSceneRenderPlan.durationInFrames p = 1
       /\ durationFrames64 (toNumber 1) = toNumber 1.
Proof.
  split; [reflexivity|]. split; [reflexivity|].
  destruct (buildRenderPlan_duration_ceiling tinyRequest [] sampleState tinyRequest
              (emit (EvLog LogInfo [("correlationId", []); ("sceneCount", lit "1")]
                       (lit "Request validation passed")) sampleState)
              [] [] sampleState eq_refl) as (plan & scenes & Hplan & Hscenes & Heach).
  injection Hscenes as <-.
  destruct (Heach 0%nat (WorkerScene.mk (lit "Hi") 1 None) eq_refl eq_refl)
    as (_ & p & Hp & Hframes & _ & _ & Hdouble).
  exists plan, p. split; [exact Hplan|]. split; [exact Hp|].
  cbn [WorkerScene.duration] in Hframes, Hdouble.
  split; [exact Hframes|]. rewrite Hdouble, Hframes. reflexivity.
Defined.

(** C2 as stated fails.  The smallest positive number, 5e-324, passes
    the [duration > 0] test of [validateRequest] and gets no frame at
    all: [(5e-324 * 30) / 1000] rounds to 0.  And the whole number
    4503599627368500, for which [d * 30 / 1000] is the integer
    135107988821055, gets one frame more: [d * 30] is not a number and
    is rounded up before the division. *)
Lemma zero_frames_for_positive_duration :
  positive64 minNumber = true
  /\ durationFrames64 minNumber = S754_zero false
  /\ positive64 (toNumber 4503599627368500) = true
  /\ durationFrames64 (toNumber 4503599627368500) = toNumber 135107988821056
  /\ ceilDiv (4503599627368500 * 30) 1000 = 135107988821055.
Proof. vm_compute. repeat split; reflexivity. Qed.

(** A scene of one millisecond is one frame long. *)
Example one_millisecond_scene :
  planScenes [WorkerScene.mk (lit "Hi") 1 None] [] 0 0
  = [InternalSceneRenderPlan.mk (lit "scene-0") 0 1 1 (lit "Hi") None []].
Proof. reflexivity. Qed.

(** C8 (amended): for every validated request with whole-millisecond
    durations whose total [T] satisfies [T * 30 < 2^52], each scene's
    frame count is the ceiling of [d * 30 / 1000], the code's
    [totalFrames] is the ceiling of [T * 30 / 1000], the frames of the
    plan's scenes add up to at least [totalFrames] and exceed it by
    strictly fewer frames than there are scenes; the three quantities
    are what the double-precision evaluation yields. *)
Theorem buildRenderPlan_frame_sum
    request correlationId s0 validated s1 audioBuffer resolvedAssets s scenes :
  validateRequest request correlationId s0 = (Ok validated, s1) ->
  ShortVideoRenderRequest.scenes validated = Some scenes ->
  totalDurationMs scenes * 30 < 2 ^ 52 ->
  exists plan,
    buildRenderPlan validated audioBuffer resolvedAssets s = (Ok plan, s)
    /\ length (InternalRenderPlan.scenes plan) = length scenes
    /\ (forall (i : nat) scene p,
          scenes !! i = Some scene ->
          InternalRenderPlan.scenes plan !! i = Some p ->
          (InternalSceneRenderPlan.durationInFrames p - 1) * 1000
          < WorkerScene.duration scene * 30
          <= InternalSceneRenderPlan.durationInFrames p * 1000
          /\ durationFrames64 (toNumber (WorkerScene.duration scene))
             = toNumber (InternalSceneRenderPlan.durationInFrames p))
    /\ (totalFrames scenes - 1) * 1000
       < totalDurationMs scenes * 30
       <= totalFrames scenes * 1000
    /\ totalFrames64 (map (fun scene => toNumber (WorkerScene.duration scene)) scenes)
       = toNumber (totalFrames scenes)
    /\ sumFrames64 (map (fun scene => toNumber (WorkerScene.duration scene)) scenes)
       = toNumber (sumFrames (InternalRenderPlan.scenes plan))
    /\ totalFrames scenes <= sumFrames (InternalRenderPlan.scenes plan)
    /\ sumFrames (InternalRenderPlan.scenes plan) - totalFrames scenes
       < Z.of_nat (length (InternalRenderPlan.scenes plan)).
Proof.
  intros Hv Hscenes Hrange. apply validateRequest_Ok_inv in Hv as [-> Hv].
  destruct (Validated_buildRenderPlan request audioBuffer resolvedAssets s Hv)
    as (scenes' & plan & Hs & Hne & Heach & Hplan & Hsc & _).
  assert (scenes' = scenes) as -> by congruence.
  destruct (totalDurationMs_bounds scenes Heach) as [_ Hds].
  exists plan. split; [exact Hplan|].
  rewrite Hsc, planScenes_length, sumFrames_planScenes.
  split; [reflexivity|]. split.
  { intros i scene p Hscene Hp.
    apply planScenes_lookup in Hp as (scene' & Hscene' & Hframes & _).
    assert (scene' = scene) as -> by congruence.
    pose proof (framesOf_bounds scene) as Hb.
    pose proof (Forall_lookup_1 _ _ _ _ Hds Hscene) as Hd. cbn beta in Hd.
    rewrite Hframes. split; [lia|].
    apply durationFrames64_exact; [lia|].
    change (2 ^ 52) with 4503599627370496 in *. lia. }
  destruct (sum_of_ceilings scenes) as (Hlow & _ & Hhigh).
  specialize (Hhigh Hne). cbv zeta in Hlow, Hhigh.
  pose proof (ceilDiv_bounds (totalDurationMs scenes * FPS) 1000 ltac:(lia)) as Ht.
  fold (totalFrames scenes) in Ht. unfold FPS in Ht.
  split; [lia|].
  split; [exact (totalFrames64_exact scenes Heach Hne Hrange)|].
  split; [exact (sumFrames64_exact scenes Heach Hrange)|].
  split; lia.
Qed.

Lemma buildRenderPlan_frame_sum_witness :
  validateRequest sampleRequest [] sampleState
  = (Ok sampleRequest,
     emit (EvLog LogInfo [("correlationId", []); ("sceneCount", lit "2")]
             (lit "Request validation passed")) sampleState)
  /\ ShortVideoRenderRequest.scenes sampleRequest = Some sampleScenes
  /\ totalDurationMs sampleScenes * 30 < 2 ^ 52
  /\ exists plan,
       buildRenderPlan sampleRequest [] [] sampleState = (Ok plan, sampleState)
       /\ totalFrames sampleScenes = 90
       /\ sumFrames (InternalRenderPlan.scenes plan) = 90
       /\ totalFrames64
            (map (fun scene => toNumber (WorkerScene.duration scene)) sampleScenes)
          = toNumber 90
       /\ sumFrames64
            (map (fun scene => toNumber (WorkerScene.duration scene)) sampleScenes)
          = toNumber 90.
Proof.
  split; [reflexivity|]. split; [reflexivity|]. split; [reflexivity|].
  destruct (buildRenderPlan_frame_sum sampleRequest [] sampleState sampleRequest
              (emit (EvLog LogInfo [("correlationId", []); ("sceneCount", lit "2")]
                       (lit "Request validation passed")) sampleState)
              [] [] sampleState sampleScenes eq_refl eq_refl eq_refl)
    as (plan & Hplan & _ & _ & _ & Htotal & Hsum & _).
  exists plan. split; [exact Hplan|].
  assert (Hsc : sumFrames (InternalRenderPlan.scenes plan) = 90).
  { cbv in Hplan. injection Hplan as <-. reflexivity. }
  split; [reflexivity|]. split; [exact Hsc|].
  split; [exact Htotal|]. rewrite Hsum, Hsc. reflexivity.
Defined.

(** C8 as stated fails on both sides.  Three scenes of 100/3 ms (the
    number nearest to it) get two frames each, since [d * 30] rounds to
    a number above 1000, while their durations add up to 100 and the
    total needs 3 frames: the excess, 3, is the number of scenes.  Three
    scenes of 2000000000000600 ms get 60000000000018 frames each and the
    total needs 180000000000055, one more than their sum. *)
Lemma frame_sum_outside_tolerance :
  Forall (fun d => positive64 d = true) [third100; third100; third100]
  /\ map durationFrames64 [third100; third100; third100]
     = [toNumber 2; toNumber 2; toNumber 2]
  /\ sumFrames64 [third100; third100; third100] = toNumber 6
  /\ totalFrames64 [third100; third100; third100] = toNumber 3
  /\ Forall (fun d => positive64 d = true)
       (map toNumber [2000000000000600; 2000000000000600; 2000000000000600])
  /\ sumFrames64 (map toNumber [2000000000000600; 2000000000000600; 2000000000000600])
     = toNumber 180000000000054
  /\ totalFrames64 (map toNumber [2000000000000600; 2000000000000600; 2000000000000600])
     = toNumber 180000000000055.
Proof. vm_compute. repeat split; repeat constructor. Qed.

(** Three scenes of 1 ms each: three frames where the total needs one;
    the excess, two, is below the number of scenes. *)
Example frame_sum_three_short_scenes :
  let scenes := [WorkerScene.mk (lit "a") 1 None; WorkerScene.mk (lit "b") 1 None;
                 WorkerScene.mk (lit "c") 1 None] in
  sumFrames (planScenes scenes [] 0 0) = 3 /\ totalFrames scenes = 1.
Proof. split; reflexivity. Qed.

(** C9: when fewer assets were resolved than there are scenes, a validated
    request still gets a plan with one entry per scene, and every scene
    whose index is past the end of the asset list has no asset path. *)
Theorem buildRenderPlan_short_assets
    request correlationId s0 validated s1 audioBuffer resolvedAssets s scenes :
  validateRequest request correlationId s0 = (Ok validated, s1) ->
  ShortVideoRenderRequest.scenes validated = Some scenes ->
  (length resolvedAssets < length scenes)%nat ->
  exists plan,
    buildRenderPlan validated audioBuffer resolvedAssets s = (Ok plan, s)
    /\ length (InternalRenderPlan.scenes plan) = length scenes
    /\ forall i : nat,
         (length resolvedAssets <= i < length scenes)%nat ->
         exists p scene,
           InternalRenderPlan.scenes plan !! i = Some p
           /\ scenes !! i = Some scene
           /\ InternalSceneRenderPlan.duration p = WorkerScene.duration scene
           /\ InternalSceneRenderPlan.assetPath p = None.
Proof.
  intros Hv Hscenes Hshort. apply validateRequest_Ok_inv in Hv as [-> Hv].
  destruct (Validated_buildRenderPlan request audioBuffer resolvedAssets s Hv)
    as (scenes' & plan & Hs & Hne & Heach & Hplan & Hsc & _).
  assert (scenes' = scenes) as -> by congruence.
  exists plan. split; [exact Hplan|]. rewrite Hsc, planScenes_length.
  split; [reflexivity|]. intros i [Hlo Hhi].
  destruct (lookup_lt_is_Some_2 (planScenes scenes resolvedAssets 0 0) i) as [p Hp].
  { rewrite planScenes_length. exact Hhi. }
  pose proof Hp as Hp'.
  apply planScenes_lookup in Hp' as (scene & Hscene & _ & Hdur & _ & Hasset).
  exists p, scene. repeat split; auto.
  rewrite Hasset. simpl. rewrite lookup_ge_None_2; [reflexivity | exact Hlo].
Qed.

Lemma buildRenderPlan_short_assets_witness :
  validateRequest sampleRequest [] sampleState
  = (Ok sampleRequest,
     emit (EvLog LogInfo [("correlationId", []); ("sceneCount", lit "2")]
             (lit "Request validation passed")) sampleState)
  /\ ShortVideoRenderRequest.scenes sampleRequest = Some sampleScenes
  /\ (length [ResolvedAsset.mk (lit "sea") None (Some (lit "/tmp/sea.mp4"))]
      < length sampleScenes)%nat
  /\ exists plan,
       buildRenderPlan sampleRequest []
         [ResolvedAsset.mk (lit "sea") None (Some (lit "/tmp/sea.mp4"))] sampleState
       = (Ok plan, sampleState)
       /\ length (InternalRenderPlan.scenes plan) = length sampleScenes
       /\ forall i : nat,
            (length [ResolvedAsset.mk (lit "sea") None (Some (lit "/tmp/sea.mp4"))]
             <= i < length sampleScenes)%nat ->
            exists p scene,
              InternalRenderPlan.scenes plan !! i = Some p
              /\ sampleScenes !! i = Some scene
              /\ InternalSceneRenderPlan.duration p = WorkerScene.duration scene
              /\ InternalSceneRenderPlan.assetPath p = None.
Proof.
  split; [reflexivity|]. split; [reflexivity|]. split; [simpl; lia|].
  apply (buildRenderPlan_short_assets sampleRequest [] sampleState sampleRequest
           (emit (EvLog LogInfo [("correlationId", []); ("sceneCount", lit "2")]
                    (lit "Request validation passed")) sampleState)).
  - reflexivity.
  - reflexivity.
  - simpl. lia.
Defined.

(** With one resolved asset for two scenes, the first scene is bound to
    the asset's file and the second has none. *)
Example short_assets_example :
  map InternalSceneRenderPlan.assetPath
    (planScenes sampleScenes
       [ResolvedAsset.mk (lit "sea") None (Some (lit "/tmp/sea.mp4"))] 0 0)
  = [Some (lit "/tmp/sea.mp4"); None].
Proof. reflexivity. Qed.

(* ===================================================================== *)
(** * Downloads and asset resolution                                       *)
(* ===================================================================== *)

(** A download performs one fetch and yields the body exactly when the
    fetch answers with a 2xx status and the body can be read. *)
Lemma downloadWithTimeout_result env site url timeoutMs timeoutError s :
  exists r,
    downloadWithTimeout env site url timeoutMs timeoutError s
    = (r, emit (EvFetch url timeoutMs) s)
    /\ match fetch env site with
       | FetchResolved httpStatus (Ok buffer) =>
           if responseOk httpStatus then r = Ok buffer else exists e, r = Throw e
       | _ => exists e, r = Throw e
       end.
Proof.
  unfold downloadWithTimeout, try_catch, bind, doFetch, throw, lift.
  destruct (fetch env site) as [httpStatus [buffer|e]|e]; simpl.
  - destruct (responseOk httpStatus); simpl; eauto.
  - destruct (responseOk httpStatus); simpl.
    + destruct (isAbortError e); eauto.
    + eauto.
  - destruct (isAbortError e); eauto.
Qed.

(** One turn of the loop never throws and appends exactly one entry, the
    one owed to the asset. *)
Lemma resolveAsset_appends env config correlationId i asset resolved valid fallback s :
  exists entry valid' fallback' s',
    resolveAsset env config correlationId i asset (resolved, valid, fallback) s
    = (Ok (resolved ++ [entry], valid', fallback'), s')
    /\ resolvedFor env i asset entry.
Proof.
  unfold resolveAsset, resolvedFor, assetObtained.
  destruct (WorkerAsset.videoUrl asset) as [url|] eqn:Hurl;
    [|unfold ret; eexists _, _, _, _; split; [reflexivity|simpl; auto]].
  destruct (truthy url) eqn:Htruthy;
    [|unfold ret; eexists _, _, _, _; split; [reflexivity|simpl; auto]].
  unfold try_catch, bind.
  destruct (downloadWithTimeout_result env (AssetAt i) url
              (orDefault (Config.assetDownloadTimeoutMs config) 15000)
              (lit "Asset download failed") s) as (r & -> & Hr).
  destruct (fetch env (AssetAt i)) as [httpStatus [buffer|e]|e].
  - destruct (responseOk httpStatus).
    + subst r. unfold dateNow, randomSuffix, fsWriteFile, ret, log. simpl.
      destruct (writeFile env (AssetFile i)) as [e|]; simpl;
        eexists _, _, _, _; (split; [reflexivity|simpl; eauto]).
    + destruct Hr as [e ->]. unfold log, ret. simpl.
      eexists _, _, _, _; (split; [reflexivity|simpl; eauto]).
  - destruct Hr as [e' ->]. unfold log, ret. simpl.
    eexists _, _, _, _; (split; [reflexivity|simpl; eauto]).
  - destruct Hr as [e' ->]. unfold log, ret. simpl.
    eexists _, _, _, _; (split; [reflexivity|simpl; eauto]).
Qed.

Lemma resolveLoop_appends env config correlationId assets :
  forall i resolved valid fallback s,
  exists entries valid' fallback' s',
    resolveLoop env config correlationId assets i (resolved, valid, fallback) s
    = (Ok (resolved ++ entries, valid', fallback'), s')
    /\ length entries = length assets
    /\ forall (k : nat) asset,
         assets !! k = Some asset ->
         exists entry, entries !! k = Some entry
                       /\ resolvedFor env (i + k) asset entry.
Proof.
  induction assets as [|asset rest IH]; intros i resolved valid fallback s.
  - exists [], valid, fallback, s. simpl. rewrite app_nil_r.
    split; [reflexivity|]. split; [reflexivity|]. intros k a Hk.
    destruct k; discriminate.
  - destruct (resolveAsset_appends env config correlationId i asset
                resolved valid fallback s) as (entry & v1 & f1 & s1 & Hstep & Hentry).
    destruct (IH (S i) (resolved ++ [entry]) v1 f1 s1)
      as (entries & v2 & f2 & s2 & Hloop & Hlen & Hall).
    exists (entry :: entries), v2, f2, s2. split; [|split].
    + cbn [resolveLoop]. rewrite (bind_Ok _ _ _ _ _ Hstep). rewrite Hloop.
      rewrite <- app_assoc. reflexivity.
    + simpl. now rewrite Hlen.
    + intros [|k] a Hk; simpl in Hk.
      * inversion Hk; subst. exists entry. rewrite Nat.add_0_r. auto.
      * destruct (Hall k a Hk) as (e & He & HP). exists e. split; [exact He|].
        replace (i + S k)%nat with (S i + k)%nat by lia. exact HP.
Qed.

(** C3: for every asset list and every outcome of every download and
    file write, [resolveAssets] returns normally, with one entry per
    asset, in the order of the assets; an asset that was not obtained
    (no URL, HTTP error status, timeout, network failure, failed write)
    has a "no asset" entry at its position. *)
Theorem resolveAssets_total_ordered env config assets correlationId s :
  exists resolved s',
    resolveAssets env config assets correlationId s = (Ok resolved, s')
    /\ length resolved = length assets
    /\ forall (i : nat) asset,
         assets !! i = Some asset ->
         exists entry, resolved !! i = Some entry /\ resolvedFor env i asset entry.
Proof.
  destruct (resolveLoop_appends env config correlationId assets 0%nat [] 0 0 s)
    as (entries & valid & fallback & s1 & Hloop & Hlen & Hall).
  unfold resolveAssets. rewrite (bind_Ok _ _ _ _ _ Hloop). simpl.
  eexists entries, _. split; [reflexivity|]. split; [exact Hlen|]. exact Hall.
Qed.

(** With the sample collaborators the first asset is downloaded to a temp
    file and the second, a 404, degrades to "no asset", in this order. *)
Example resolveAssets_example :
  fst (resolveAssets sampleEnv (serviceConfig "binary") sampleAssets [] sampleState)
  = Ok [ResolvedAsset.mk (lit "sea") (Some (lit "https://videos.example.com/sea.mp4"))
          (Some (lit "/tmp/videos/asset-1700000000000-k3x9q1.mp4"));
        ResolvedAsset.mk (lit "sky") None None].
Proof. reflexivity. Qed.

(* ===================================================================== *)
(** * The polling loop                                                     *)
(* ===================================================================== *)

Lemma elapsedAfter_S env t n :
  elapsedAfter env t (S n)
  = 1000 + Z.of_N (lateness env t) + elapsedAfter env (S t) n.
Proof. unfold elapsedAfter. cbn [latenessSum]. lia. Qed.



(** The loop entered at any start time: [n] sleeping turns, then one of
    the three exits. *)
Lemma pollLoop_outcome env videoId startTime s :
  forall r s',
  pollLoop env videoId startTime s = (r, s') ->
  exists n : nat,
    (forall k : nat, (k < n)%nat ->
       classify (status env (polls s + k)) = JobOther
       /\ now s - startTime + elapsedAfter env (timers s) k < 180000)
    /\ timers s' = (timers s + n)%nat
    /\ now s' - now s = elapsedAfter env (timers s) n
    /\ ((now s' - startTime < 180000
         /\ classify (status env (polls s + n)) = JobReady
         /\ r = getVideo env
         /\ polls s' = S (polls s + n))
        \/ (now s' - startTime < 180000
            /\ classify (status env (polls s + n)) = JobFailed
            /\ r = Throw (Error (lit "ShortCreator render failed"))
            /\ polls s' = S (polls s + n))
        \/ (180000 <= now s' - startTime
            /\ r = Throw (Error (lit "Render timed out"))
            /\ polls s' = (polls s + n)%nat)).
Proof.
  funelim (pollLoop env videoId startTime s); intros r s' Hrun.
  - (* the deadline is reached *)
    inversion Hrun; subst; clear Hrun. exists 0%nat.
    rewrite !Nat.add_0_r. unfold elapsedAfter. simpl.
    split; [intros k Hk; lia|]. repeat split; try lia.
    right. right. repeat split; lia.
  - (* ready *)
    unfold fetchVideo in Hrun. inversion Hrun; subst; clear Hrun. exists 0%nat.
    rewrite !Nat.add_0_r. unfold elapsedAfter. simpl.
    split; [intros k Hk; lia|]. repeat split; try lia.
    left. repeat split; try lia. exact Heq.
  - (* failed *)
    inversion Hrun; subst; clear Hrun. exists 0%nat.
    rewrite !Nat.add_0_r. unfold elapsedAfter. simpl.
    split; [intros k Hk; lia|]. repeat split; try lia.
    right. left. repeat split; try lia. exact Heq.
  - (* any other state: sleep one second and go on *)
    destruct (H r s' Hrun) as (n & Hturns & Htimers & Hnow & Hexit).
    simpl in Hturns, Htimers, Hnow, Hexit.
    exists (S n). split; [|split; [|split]].
    + intros [|k] Hk.
      * rewrite Nat.add_0_r. unfold elapsedAfter. simpl. split; [exact Heq|lia].
      * destruct (Hturns k ltac:(lia)) as [Hst Hdl].
        rewrite elapsedAfter_S. split.
        -- replace (polls s + S k)%nat with (S (polls s) + k)%nat by lia. exact Hst.
        -- lia.
    + lia.
    + rewrite elapsedAfter_S. lia.
    + replace (polls s + S n)%nat with (S (polls s) + n)%nat by lia.
      replace (S (polls s + n)) with (S (polls s) + n)%nat in Hexit by lia.
      exact Hexit.
Qed.

Lemma elapsedAfter_last env n :
  forall t,
  elapsedAfter env t (S n)
  = elapsedAfter env t n + 1000 + Z.of_N (lateness env (t + n)).
Proof.
  induction n as [|n IH]; intros t.
  - unfold elapsedAfter. simpl. rewrite Nat.add_0_r. lia.
  - rewrite elapsedAfter_S, IH, elapsedAfter_S.
    replace (S t + n)%nat with (t + S n)%nat by lia. lia.
Qed.


(** A job that never leaves [queued], with punctual timers: 180 polls,
    then the timeout, exactly 180000 ms after the loop started. *)
Example stuck_job_times_out :
  let run := renderWithRemotion stuckEnv
               (InternalRenderPlan.mk 1080 1920 30 [] [] [] []) [] sampleState in
  fst run = Throw (Error (lit "Render timed out"))
  /\ now (snd run) - now sampleState = 180000
  /\ polls (snd run) = 180%nat.
Proof. vm_compute. repeat split; reflexivity. Qed.

(** With the sample collaborators the job is ready at the fourth poll,
    three seconds in. *)
Example ready_job_returns :
  let run := renderWithRemotion sampleEnv
               (InternalRenderPlan.mk 1080 1920 30 [] [] [] []) [] sampleState in
  fst run = getVideo sampleEnv
  /\ now (snd run) - now sampleState = 3000
  /\ polls (snd run) = 4%nat.
Proof. vm_compute. repeat split; reflexivity. Qed.

(* ===================================================================== *)
(** * Text sanitisation                                                    *)
(* ===================================================================== *)

Lemma stripAstral_cons_other u s :
  isHighSurrogate u = false -> stripAstral (u :: s) = u :: stripAstral s.
Proof. intros H. destruct s; simpl; rewrite ?H; reflexivity. Qed.

Lemma stripAstral_pair hi lo s :
  isHighSurrogate hi = true -> isLowSurrogate lo = true ->
  stripAstral (hi :: lo :: s) = stripAstral s.
Proof. intros Hhi Hlo. simpl. rewrite Hhi, Hlo. reflexivity. Qed.

Lemma stripControl_cons u s :
  stripControl (u :: s)
  = if isControlUnit u then stripControl s else u :: stripControl s.
Proof.
  unfold stripControl. rewrite filter_cons.
  destruct (isControlUnit u); simpl; reflexivity.
Qed.

(** The two code units of a code point above U+FFFF are a high and a low
    surrogate; neither is a control. *)
Lemma utf16_1_astral c :
  isScalar c = true -> (c <? 0x10000)%N = false ->
  exists hi lo,
    utf16_1 c = [hi; lo]
    /\ isHighSurrogate hi = true /\ isLowSurrogate lo = true
    /\ isControlUnit hi = false /\ isControlUnit lo = false.
Proof.
  intros Hsc Hbmp. unfold utf16_1. rewrite Hbmp.
  unfold isScalar in Hsc. apply andb_true_iff in Hsc as [Hmax _].
  apply N.ltb_lt in Hmax. apply N.ltb_ge in Hbmp.
  assert (Hq : ((c - 0x10000) / 0x400 < 0x400)%N).
  { apply N.Div0.div_lt_upper_bound. lia. }
  assert (Hr : ((c - 0x10000) mod 0x400 < 0x400)%N).
  { apply N.mod_lt. lia. }
  eexists _, _. split; [reflexivity|].
  unfold isHighSurrogate, isLowSurrogate, isControlUnit.
  rewrite ?andb_true_iff, ?orb_false_iff, ?andb_false_iff, ?N.leb_le, ?N.leb_gt.
  generalize dependent ((c - 0x10000) / 0x400)%N.
  generalize dependent ((c - 0x10000) mod 0x400)%N.
  intros; lia.
Qed.

(** A scalar value of the Basic Multilingual Plane is its own code unit
    and is not a high surrogate. *)
Lemma utf16_1_bmp c :
  isScalar c = true -> (c <? 0x10000)%N = true ->
  utf16_1 c = [c] /\ isHighSurrogate c = false.
Proof.
  intros Hsc Hbmp. unfold utf16_1. rewrite Hbmp. split; [reflexivity|].
  unfold isScalar in Hsc. apply andb_true_iff in Hsc as [_ Hsur].
  apply negb_true_iff in Hsur. unfold isHighSurrogate.
  destruct (0xD800 <=? c)%N eqn:Hlo; [|reflexivity]. simpl in *.
  apply N.leb_gt in Hsur. apply N.leb_gt. lia.
Qed.

Lemma sanitizeText_utf16 cps :
  Forall (fun c => isScalar c = true) cps ->
  sanitizeText (utf16 cps) = utf16 (filter (fun c => keptBySanitize c = true) cps).
Proof.
  unfold sanitizeText.
  induction 1 as [|c rest Hc _ IH]; [reflexivity|].
  unfold utf16 in *. cbn [map concat].
  destruct (c <? 0x10000)%N eqn:Hbmp.
  - destruct (utf16_1_bmp c Hc Hbmp) as [Hunit Hnothigh].
    assert (Hnotastral : isAstral c = false).
    { unfold isAstral. apply N.ltb_lt in Hbmp. apply N.ltb_ge. lia. }
    rewrite Hunit. cbn [app]. rewrite stripControl_cons.
    destruct (isControlUnit c) eqn:Hctl.
    + rewrite filter_cons_False; [exact IH|].
      unfold keptBySanitize, isControl. rewrite Hctl. discriminate.
    + rewrite filter_cons_True.
      2:{ unfold keptBySanitize, isControl. rewrite Hctl, Hnotastral. reflexivity. }
      cbn [map concat]. rewrite Hunit. cbn [app].
      rewrite stripAstral_cons_other by exact Hnothigh.
      f_equal. exact IH.
  - destruct (utf16_1_astral c Hc Hbmp)
      as (hi & lo & Hunits & Hhi & Hlo & Hchi & Hclo).
    rewrite Hunits. cbn [app].
    rewrite !stripControl_cons, Hchi, Hclo.
    rewrite stripAstral_pair by assumption.
    rewrite filter_cons_False; [exact IH|].
    unfold keptBySanitize, isAstral.
    apply N.ltb_ge in Hbmp.
    assert (Hast : (0xFFFF <? c)%N = true) by (apply N.ltb_lt; lia).
    rewrite Hast, andb_false_r. discriminate.
Qed.

(** C5 (amended): on every well-formed text, [sanitizeText] removes
    exactly the control characters (U+0000..U+001F, U+007F..U+009F) and
    the code points outside the Basic Multilingual Plane, and keeps every
    other code point, format code points included, in its original
    order. *)
Theorem sanitizeText_removes_control_and_astral cps :
  Forall (fun c => isScalar c = true) cps ->
  sanitizeText (utf16 cps) = utf16 (filter (fun c => keptBySanitize c = true) cps)
  /\ Forall (fun c => isControl c = false /\ isAstral c = false)
       (filter (fun c => keptBySanitize c = true) cps)
  /\ (forall c, c ∈ cps -> isControl c = false -> isAstral c = false ->
       c ∈ filter (fun c => keptBySanitize c = true) cps)
  /\ filter (fun c => keptBySanitize c = true) cps `sublist_of` cps.
Proof.
  intros Hwf. split; [exact (sanitizeText_utf16 cps Hwf)|]. split; [|split].
  - apply Forall_forall. intros c Hin. apply list_elem_of_filter in Hin as [Hk _].
    unfold keptBySanitize in Hk. apply andb_true_iff in Hk as [H1 H2].
    apply negb_true_iff in H1, H2. auto.
  - intros c Hin Hctl Hast. apply list_elem_of_filter. split; [|exact Hin].
    unfold keptBySanitize. rewrite Hctl, Hast. reflexivity.
  - apply sublist_filter.
Qed.

(** The example of the specification: "Hi", U+0007, space, U+1F600,
    " world" becomes "Hi  world". *)
Lemma sanitizeText_removes_control_and_astral_witness :
  Forall (fun c => isScalar c = true)
    ([72; 105; 7; 32; 0x1F600; 32; 119; 111; 114; 108; 100]%N)
  /\ sanitizeText (utf16 [72; 105; 7; 32; 0x1F600; 32; 119; 111; 114; 108; 100]%N)
     = lit "Hi  world".
Proof.
  split.
  - repeat constructor.
  - rewrite (proj1 (sanitizeText_removes_control_and_astral
                      [72; 105; 7; 32; 0x1F600; 32; 119; 111; 114; 108; 100]%N
                      ltac:(repeat constructor))).
    reflexivity.
Defined.

(** The same example on code units: U+1F600 is the pair D83D DE00. *)
Example sanitizeText_example :
  sanitizeText (lit "Hi" ++ [7%N] ++ lit " " ++ [0xD83D; 0xDE00]%N ++ lit " world")
  = lit "Hi  world".
Proof. reflexivity. Qed.

(** C5 as stated fails: U+200B ZERO WIDTH SPACE is a format code point
    and [sanitizeText] keeps it. *)
Lemma sanitizeText_keeps_format :
  isFormat 0x200B = true
  /\ sanitizeText (utf16 [97; 0x200B; 98]%N) = utf16 [97; 0x200B; 98]%N
  /\ sanitizeText (utf16 [97; 0x200B; 98]%N)
     <> utf16 (filter (fun c => keptBySpec c = true) [97; 0x200B; 98]%N).
Proof.
  split; [reflexivity|]. split; [reflexivity|]. vm_compute. discriminate.
Qed.

(** Two lone surrogates that a control character separates become one
    astral code point once the control is gone, and are removed with it:
    the statement above is about well-formed texts. *)
Example sanitizeText_joins_lone_surrogates :
  sanitizeText [0xD83D; 7; 0xDE00]%N = [].
Proof. reflexivity. Qed.

(* ===================================================================== *)
(** * Validation of the resolution                                         *)
(* ===================================================================== *)

Lemma validateScenes_pure scenes :
  forall i, exists r,
    (r = Ok tt \/ exists message, r = Throw (Error message))
    /\ forall s, validateScenes scenes i s = (r, s).
Proof.
  induction scenes as [|scene rest IH]; intros i; simpl.
  - exists (Ok tt). split; [auto|reflexivity].
  - unfold bind, lift, assert.
    destruct (0 <? Z.of_nat (length (trim (WorkerScene.text scene))));
      [|eexists; split; [right; eexists; reflexivity|reflexivity]].
    destruct (0 <? WorkerScene.duration scene);
      [|eexists; split; [right; eexists; reflexivity|reflexivity]].
    apply IH.
Qed.

(** A resolution that is not accepted makes [parseResolution] throw an
    [Error] or yields a non-positive component. *)
Lemma parseResolution_not_accepted resolution :
  resolutionAccepted resolution = false ->
  match parseResolution resolution with
  | Ok r => (0 <? width r) && (0 <? height r) = false
  | Throw e => exists message, e = Error message
  end.
Proof.
  unfold resolutionAccepted, parseResolution.
  destruct (split 120 resolution) as [|w [|h [|x rest]]]; simpl; eauto.
  destruct (parseInt w), (parseInt h); simpl; eauto.
Qed.

(** The three ways in which a resolution fails, with their messages. *)
Lemma resolution_failure_messages resolution :
  resolutionAccepted resolution = false ->
  (length (split 120 resolution) <> 2%nat
   /\ parseResolution resolution
      = Throw (Error (lit "Invalid resolution format: " ++ resolution
                      ++ lit ". Expected " ++ [34%N] ++ lit "WxH" ++ [34%N])))
  \/ (length (split 120 resolution) = 2%nat
      /\ parseResolution resolution
         = Throw (Error (lit "Invalid resolution values: " ++ resolution)))
  \/ (exists r,
        parseResolution resolution = Ok r
        /\ assert ((0 <? width r) && (0 <? height r)) (lit "Invalid resolution values")
           = Throw (Error (lit "Invalid resolution values"))).
Proof.
  unfold resolutionAccepted, parseResolution.
  destruct (split 120 resolution) as [|w [|h [|x rest]]]; simpl;
    try (left; split; [lia|reflexivity]).
  destruct (parseInt w) as [wv|], (parseInt h) as [hv|]; simpl;
    try (right; left; split; reflexivity).
  intros Hpos. right. right. eexists. split; [reflexivity|].
  simpl. rewrite Hpos. reflexivity.
Qed.

Lemma validateRequest_rejects request cfg :
  ShortVideoRenderRequest.config request = Some cfg ->
  resolutionAccepted (WorkerConfig.resolution cfg) = false ->
  exists message,
    forall correlationId s,
      validateRequest request correlationId s = (Throw (Error message), s).
Proof.
  intros Hcfg Hres. unfold validateRequest. rewrite Hcfg.
  destruct (ShortVideoRenderRequest.scenes request) as [scenes|];
    [|eexists; intros; reflexivity].
  unfold bind, lift, assert, ret. cbn.
  destruct (0 <? Z.of_nat (length scenes)); [|eexists; intros; reflexivity].
  destruct (validateScenes_pure scenes 0%nat) as (r & Hr & Hrun).
  destruct Hr as [->|[message ->]];
    [|exists message; intros; rewrite Hrun; reflexivity].
  destruct (0 <? Z.of_nat (length (WorkerConfig.ttsUrl cfg)));
    [|eexists; intros; rewrite Hrun; reflexivity].
  pose proof (parseResolution_not_accepted _ Hres) as Hp.
  destruct (parseResolution (WorkerConfig.resolution cfg)) as [r|e].
  - rewrite Hp. eexists; intros; rewrite Hrun; reflexivity.
  - destruct Hp as [message ->]. exists message; intros; rewrite Hrun; reflexivity.
Qed.

Lemma digitPrefix_digits seg :
  forallb isDigit seg = true -> digitPrefix seg = seg.
Proof.
  induction seg as [|u rest IH]; simpl; [reflexivity|].
  intros H. apply andb_true_iff in H as [Hu Hrest]. rewrite Hu, IH; auto.
Qed.

(** On a non-empty run of digits [parseInt] reads the whole run. *)
Lemma parseInt_digits seg :
  seg <> [] -> forallb isDigit seg = true -> parseInt seg = Some (digitsValue seg).
Proof.
  intros Hne Hall. destruct seg as [|u rest]; [congruence|].
  pose proof (digitPrefix_digits _ Hall) as Hprefix.
  simpl in Hall. apply andb_true_iff in Hall as [Hu _].
  assert (Hrange : (48 <= u <= 57)%N).
  { unfold isDigit in Hu. apply andb_true_iff in Hu as [H1 H2].
    apply N.leb_le in H1, H2. lia. }
  assert (Hws : isWhiteSpace u = false).
  { unfold isWhiteSpace.
    rewrite ?orb_false_iff, ?andb_false_iff, ?N.leb_gt, ?N.eqb_neq. lia. }
  unfold parseInt. cbn [trimStart]. rewrite Hws.
  assert (H45 : (u =? 45)%N = false) by (apply N.eqb_neq; lia).
  assert (H43 : (u =? 43)%N = false) by (apply N.eqb_neq; lia).
  rewrite H45, H43, Hprefix. f_equal. lia.
Qed.

(** Every resolution in the specification's format is accepted. *)
Lemma isIntXInt_accepted resolution :
  isIntXInt resolution = true -> resolutionAccepted resolution = true.
Proof.
  unfold isIntXInt, resolutionAccepted, isPositiveInt.
  destruct (split 120 resolution) as [|w [|h [|x rest]]]; try discriminate.
  rewrite !andb_true_iff, !negb_true_iff, !bool_decide_eq_false.
  intros [[[Hw1 Hw2] Hw3] [[Hh1 Hh2] Hh3]].
  rewrite (parseInt_digits w Hw1 Hw2), (parseInt_digits h Hh1 Hh2).
  now rewrite Hw3, Hh3.
Qed.

(** ** The frame of [renderVideo] *)

(** With [scenes] and [config] present, [renderVideo] draws its
    correlation id, logs the start and runs the [try] statement. *)
Lemma renderVideo_started env config request scenes cfg s :
  ShortVideoRenderRequest.scenes request = Some scenes ->
  ShortVideoRenderRequest.config request = Some cfg ->
  renderVideo env config request s
  = renderAttempt env config request (now s) (correlationIdAt env s)
      (startedState env config scenes cfg s).
Proof.
  intros Hs Hc. unfold renderVideo, bind, dateNow, randomSuffix.
  rewrite Hs, Hc. reflexivity.
Qed.

(** Whatever steps 1 to 5 throw is logged and rethrown behind
    ['Rendering failed: ']. *)
Lemma renderAttempt_steps_throw env config request startTime correlationId s e s1 :
  renderSteps env config request correlationId s = (Throw e, s1) ->
  renderAttempt env config request startTime correlationId s
  = (Throw (Error (lit "Rendering failed: " ++ normalizeError e)),
     emit (EvLog LogError [("correlationId", correlationId);
                           ("message", normalizeError e)]
             (lit "Video render failed")) s1).
Proof.
  intros H. unfold renderAttempt, try_catch.
  rewrite (bind_Throw _ _ _ _ _ H). reflexivity.
Qed.

Lemma renderSteps_validation_throw env config request correlationId s e s1 :
  validateRequest request correlationId s = (Throw e, s1) ->
  renderSteps env config request correlationId s = (Throw e, s1).
Proof. intros H. unfold renderSteps. apply bind_Throw. exact H. Qed.

(** C6 (amended): a request whose resolution does not split at ['x'] into
    exactly two parts that each begin (after optional white space and
    sign) with a decimal integer, both positive, is rejected by
    [validateRequest] with an [Error] and without any effect, and
    [renderVideo] fails on it without a network call, with that error
    behind ['Rendering failed: '] when the request has scenes.  Such a
    resolution is never of the form [<int>x<int>]. *)
Theorem unaccepted_resolution_rejected env config request cfg s :
  ShortVideoRenderRequest.config request = Some cfg ->
  resolutionAccepted (WorkerConfig.resolution cfg) = false ->
  isIntXInt (WorkerConfig.resolution cfg) = false
  /\ exists message,
       (forall correlationId s0,
          validateRequest request correlationId s0 = (Throw (Error message), s0))
       /\ exists e s' new,
            renderVideo env config request s = (Throw e, s')
            /\ events s' = events s ++ new
            /\ Forall (fun ev => isNetworkCall ev = false) new
            /\ (is_Some (ShortVideoRenderRequest.scenes request) ->
                e = Error (lit "Rendering failed: " ++ message)).
Proof.
  intros Hcfg Hres. split.
  - destruct (isIntXInt (WorkerConfig.resolution cfg)) eqn:Hstrict; [|reflexivity].
    apply isIntXInt_accepted in Hstrict. congruence.
  - destruct (validateRequest_rejects request cfg Hcfg Hres) as [message Hreject].
    exists message. split; [exact Hreject|].
    destruct (ShortVideoRenderRequest.scenes request) as [scenes|] eqn:Hscenes.
    + rewrite (renderVideo_started env config request scenes cfg s Hscenes Hcfg).
      pose proof (Hreject (correlationIdAt env s)
                    (startedState env config scenes cfg s)) as He.
      apply (renderSteps_validation_throw env config) in He.
      rewrite (renderAttempt_steps_throw _ _ _ _ _ _ _ _ He).
      eexists _, _, _. split; [reflexivity|]. split; [|split].
      * cbn. rewrite <- app_assoc. reflexivity.
      * repeat constructor.
      * reflexivity.
    + unfold renderVideo, bind, dateNow, randomSuffix. rewrite Hscenes. cbn.
      eexists _, _, []. split; [reflexivity|]. split; [|split].
      * now rewrite app_nil_r.
      * constructor.
      * intros [x Hx]. discriminate.
Qed.

(** The scenario of the specification: the resolution "1080" has no
    ['x']; the request fails with the format error behind the generic
    prefix, and the only effects are the two log entries. *)
Lemma unaccepted_resolution_rejected_witness :
  ShortVideoRenderRequest.config malformedRequest = Some (sampleConfig (lit "1080"))
  /\ resolutionAccepted (WorkerConfig.resolution (sampleConfig (lit "1080"))) = false
  /\ isIntXInt (WorkerConfig.resolution (sampleConfig (lit "1080"))) = false
  /\ exists message,
       (forall correlationId s0,
          validateRequest malformedRequest correlationId s0
          = (Throw (Error message), s0))
       /\ exists e s' new,
            renderVideo sampleEnv (serviceConfig "binary") malformedRequest sampleState
            = (Throw e, s')
            /\ events s' = events sampleState ++ new
            /\ Forall (fun ev => isNetworkCall ev = false) new
            /\ (is_Some (ShortVideoRenderRequest.scenes malformedRequest) ->
                e = Error (lit "Rendering failed: " ++ message)).
Proof.
  split; [reflexivity|]. split; [reflexivity|].
  apply (unaccepted_resolution_rejected sampleEnv (serviceConfig "binary")
           malformedRequest (sampleConfig (lit "1080")) sampleState);
    reflexivity.
Defined.

Example malformed_resolution_message :
  fst (renderVideo sampleEnv (serviceConfig "binary") malformedRequest sampleState)
  = Throw (Error (lit "Rendering failed: Invalid resolution format: 1080. Expected "
                  ++ [34%N] ++ lit "WxH" ++ [34%N])).
Proof. reflexivity. Qed.

(** C6 as stated fails: "1080x1920p" is not of the form [<int>x<int>],
    yet validation passes and the narration download is attempted. *)
Lemma validateRequest_accepts_trailing_text :
  isIntXInt (lit "1080x1920p") = false
  /\ fst (validateRequest lenientRequest [] sampleState) = Ok lenientRequest
  /\ existsb isNetworkCall
       (events (snd (renderVideo sampleEnv (serviceConfig "binary")
                       lenientRequest sampleState))) = true.
Proof. vm_compute. repeat split; reflexivity. Qed.

(* ===================================================================== *)
(** * Response modes and the failure frame                                 *)
(* ===================================================================== *)



(** With the sample collaborators the response in ['url'] mode is the
    storage URL of the file written. *)
Example url_mode_example :
  fst (renderVideo sampleEnv (serviceConfig "url") sampleRequest sampleState)
  = Ok (UrlResponse
          (lit "https://storage.example.com/videos/video-1700000003000-k3x9q1.mp4")).
Proof. vm_compute. reflexivity. Qed.


(** Every failure of the [try] statement reaches the caller as an [Error]
    whose message is ['Rendering failed: '] followed by the message of the
    cause. *)
Lemma renderAttempt_throw_wrapped env config request startTime correlationId s e s' :
  renderAttempt env config request startTime correlationId s = (Throw e, s') ->
  exists cause, e = Error (lit "Rendering failed: " ++ normalizeError cause).
Proof.
  unfold renderAttempt, try_catch.
  match goal with |- context [bind ?m ?k s] => destruct (bind m k s) as [[a|cause] s1] end.
  - discriminate.
  - unfold bind, log, throw. simpl. intros H. inversion H. eauto.
Qed.

Lemma renderVideo_throw_wrapped env config request scenes cfg s e s' :
  ShortVideoRenderRequest.scenes request = Some scenes ->
  ShortVideoRenderRequest.config request = Some cfg ->
  renderVideo env config request s = (Throw e, s') ->
  exists cause, e = Error (lit "Rendering failed: " ++ normalizeError cause).
Proof.
  intros Hs Hc. rewrite (renderVideo_started env config request scenes cfg s Hs Hc).
  apply renderAttempt_throw_wrapped.
Qed.

(** C10 fails on the code: a request without [config] makes [renderVideo]
    throw while it reads the fields of its first log entry, before the
    [try]; the caller gets the bare [TypeError], not the wrapped
    validation error ['config is required'] that [validateRequest] has
    for this request. *)
Theorem renderVideo_missing_config_unwrapped env config s :
  fst (renderVideo env config configlessRequest s)
  = Throw (TypeError (lit "Cannot read properties of undefined (reading 'resolution')"))
  /\ fst (validateRequest configlessRequest (correlationIdAt env s) s)
     = Throw (Error (lit "config is required"))
  /\ ~ exists cause,
        fst (renderVideo env config configlessRequest s)
        = Throw (Error (lit "Rendering failed: " ++ normalizeError cause)).
Proof.
  split; [reflexivity|]. split; [reflexivity|].
  intros [cause Hcause]. cbn in Hcause. inversion Hcause.
Qed.

(* ===================================================================== *)
(** * More on validation                                                   *)
(* ===================================================================== *)

Lemma validateScenes_valid scenes :
  Forall sceneValid scenes ->
  forall i s, validateScenes scenes i s = (Ok tt, s).
Proof.
  induction 1 as [|scene rest [Htext Hdur] _ IH]; intros i s; simpl; [reflexivity|].
  unfold bind.
  assert (Hlen : (0 <? Z.of_nat (length (trim (WorkerScene.text scene)))) = true).
  { apply Z.ltb_lt. destruct (trim (WorkerScene.text scene)); [congruence|].
    simpl. lia. }
  rewrite Hlen, lift_assert_true.
  assert (Hpos : (0 <? WorkerScene.duration scene) = true) by (apply Z.ltb_lt; lia).
  rewrite Hpos, lift_assert_true. apply IH.
Qed.

Lemma validateRequest_Validated request correlationId s :
  Validated request ->
  exists scenes,
    ShortVideoRenderRequest.scenes request = Some scenes
    /\ validateRequest request correlationId s
       = (Ok request,
          emit (EvLog LogInfo
                  [("correlationId", correlationId);
                   ("sceneCount", numToString (Z.of_nat (length scenes)))]
                  (lit "Request validation passed")) s).
Proof.
  intros (scenes & cfg & resolution & Hs & Hne & Heach & Hc & Htts & Hres & Hw & Hh).
  exists scenes. split; [exact Hs|].
  assert (Hlen : (0 <? Z.of_nat (length scenes)) = true).
  { apply Z.ltb_lt. destruct scenes; [congruence|]. simpl. lia. }
  assert (Hurl : (0 <? Z.of_nat (length (WorkerConfig.ttsUrl cfg))) = true).
  { apply Z.ltb_lt. destruct (WorkerConfig.ttsUrl cfg); [congruence|]. simpl. lia. }
  assert (Hpos : (0 <? width resolution) && (0 <? height resolution) = true).
  { apply andb_true_iff. split; apply Z.ltb_lt; lia. }
  unfold validateRequest, bind, lift, assert, ret, log. rewrite Hs, Hc.
  cbn -[numToString lit Z.of_nat Z.ltb].
  rewrite Hlen, (validateScenes_valid scenes Heach), Hurl, Hres, Hpos.
  reflexivity.
Qed.

(** X1: [validateRequest] accepts exactly the requests with a non-empty
    scene list whose scenes all have non-blank text and positive duration,
    a config with a non-empty [ttsUrl], and a resolution that parses to
    two positive numbers; it then returns the request itself and its only
    effect is one log entry. *)
Theorem validateRequest_accepts_exactly request correlationId s :
  Validated request <->
  exists scenes,
    ShortVideoRenderRequest.scenes request = Some scenes
    /\ validateRequest request correlationId s
       = (Ok request,
          emit (EvLog LogInfo
                  [("correlationId", correlationId);
                   ("sceneCount", numToString (Z.of_nat (length scenes)))]
                  (lit "Request validation passed")) s).
Proof.
  split.
  - apply validateRequest_Validated.
  - intros (scenes & _ & Hrun). eapply validateRequest_Ok_inv. exact Hrun.
Qed.

Lemma validateRequest_accepts_exactly_witness :
  Validated sampleRequest
  /\ validateRequest sampleRequest [] sampleState
     = (Ok sampleRequest,
        emit (EvLog LogInfo [("correlationId", []); ("sceneCount", lit "2")]
                (lit "Request validation passed")) sampleState).
Proof.
  split.
  - apply (proj2 (validateRequest_accepts_exactly sampleRequest [] sampleState)).
    exists sampleScenes. split; reflexivity.
  - reflexivity.
Defined.

(** X2: the scenes are checked in order, the text before the duration,
    and before the config: when the scenes before index [i] are valid and
    scene [i] is not, the error names index [i], with the text message if
    its text is blank and the duration message otherwise, whatever the
    rest of the request is. *)
Theorem validateRequest_first_invalid_scene request good bad rest correlationId s :
  ShortVideoRenderRequest.scenes request = Some (good ++ bad :: rest) ->
  Forall sceneValid good ->
  ~ sceneValid bad ->
  validateRequest request correlationId s
  = (Throw (Error (lit "Scene " ++ numToString (Z.of_nat (length good))
                   ++ (if bool_decide (trim (WorkerScene.text bad) = [])
                       then lit ": text cannot be empty"
                       else lit ": duration must be a positive number"))),
     s).
Proof.
  intros Hs Hgood Hbad.
  assert (Hlen : (0 <? Z.of_nat (length (good ++ bad :: rest))) = true).
  { apply Z.ltb_lt. rewrite length_app. simpl. lia. }
  assert (Hloop : forall i,
            validateScenes (good ++ bad :: rest) i s
            = (Throw (Error (lit "Scene " ++ numToString (Z.of_nat (i + length good))
                             ++ (if bool_decide (trim (WorkerScene.text bad) = [])
                                 then lit ": text cannot be empty"
                                 else lit ": duration must be a positive number"))),
               s)).
  { clear Hs Hlen. induction Hgood as [|scene good' [Htext Hdur] _ IH]; intros i.
    - cbn [app validateScenes length]. rewrite Nat.add_0_r.
      unfold bind, lift, assert.
      destruct (trim (WorkerScene.text bad)) as [|u t] eqn:Htrim.
      + reflexivity.
      + rewrite bool_decide_eq_false_2 by discriminate.
        replace (0 <? Z.of_nat (length (u :: t))) with true
          by (symmetry; apply Z.ltb_lt; simpl; lia).
        destruct (0 <? WorkerScene.duration bad) eqn:Hpos; [|reflexivity].
        exfalso. apply Hbad. split; [rewrite Htrim; discriminate|].
        apply Z.ltb_lt. exact Hpos.
    - cbn [app validateScenes length].
      assert (Hl : (0 <? Z.of_nat (length (trim (WorkerScene.text scene)))) = true).
      { apply Z.ltb_lt. destruct (trim (WorkerScene.text scene)); [congruence|].
        simpl. lia. }
      assert (Hp : (0 <? WorkerScene.duration scene) = true) by (apply Z.ltb_lt; lia).
      rewrite (bind_Ok _ _ s tt s) by (rewrite Hl; reflexivity).
      rewrite (bind_Ok _ _ s tt s) by (rewrite Hp; reflexivity).
      rewrite IH.
      replace (S i + length good')%nat with (i + S (length good'))%nat by lia.
      reflexivity. }
  unfold validateRequest. rewrite Hs.
  rewrite (bind_Ok _ _ s tt s) by reflexivity.
  rewrite (bind_Ok _ _ s (good ++ bad :: rest) s) by reflexivity.
  rewrite (bind_Ok _ _ s tt s) by (rewrite Hlen; reflexivity).
  apply bind_Throw. apply (Hloop 0%nat).
Qed.

Lemma validateRequest_first_invalid_scene_witness :
  validateRequest
    (ShortVideoRenderRequest.mk
       (Some (sampleScenes ++ WorkerScene.mk (lit "  ") 0 None :: sampleScenes))
       None None) [] sampleState
  = (Throw (Error (lit "Scene 2: text cannot be empty")), sampleState).
Proof.
  apply (validateRequest_first_invalid_scene
           (ShortVideoRenderRequest.mk
              (Some (sampleScenes ++ WorkerScene.mk (lit "  ") 0 None :: sampleScenes))
              None None)
           sampleScenes (WorkerScene.mk (lit "  ") 0 None) sampleScenes [] sampleState).
  - reflexivity.
  - repeat constructor; discriminate.
  - intros [Htext _]. apply Htext. reflexivity.
Defined.

(* ===================================================================== *)
(** * Printing and parsing numbers                                         *)
(* ===================================================================== *)

Lemma digits_of_uint d :
  forallb isDigit (lit (NilEmpty.string_of_uint d)) = true.
Proof. induction d; simpl; auto. Qed.

Lemma digitsValue_of_uint_acc d :
  forall acc : positive,
    fold_left (fun acc u => acc * 10 + (Z.of_N u - 48))
      (lit (NilEmpty.string_of_uint d)) (Z.pos acc)
    = Z.pos (Pos.of_uint_acc d acc).
Proof.
  induction d; intros acc; cbn [NilEmpty.string_of_uint lit fold_left Pos.of_uint_acc];
    [reflexivity|..];
    match goal with
    | |- fold_left _ _ ?a = Z.pos (Pos.of_uint_acc _ ?p) =>
        replace a with (Z.pos p) by (cbn; lia)
    end; apply IHd.
Qed.

Lemma digitsValue_of_uint d :
  digitsValue (lit (NilEmpty.string_of_uint d)) = Z.of_N (Pos.of_uint d).
Proof.
  unfold digitsValue.
  induction d; cbn [NilEmpty.string_of_uint lit fold_left Pos.of_uint];
    [reflexivity|exact IHd|..];
    match goal with
    | |- fold_left _ _ ?a = Z.of_N (N.pos (Pos.of_uint_acc _ ?p)) =>
        replace a with (Z.pos p) by (cbn; lia)
    end; apply digitsValue_of_uint_acc.
Qed.

Lemma lit_string_of_uint_nonnil d :
  d <> Decimal.Nil -> lit (NilEmpty.string_of_uint d) <> [].
Proof. destruct d; simpl; congruence. Qed.

(** The decimal rendering of a number: an optional minus sign and a
    non-empty run of digits whose value is the magnitude. *)
Lemma numToString_shape z :
  exists ds,
    ds <> [] /\ forallb isDigit ds = true /\ digitsValue ds = Z.abs z
    /\ numToString z = if z <? 0 then 45%N :: ds else ds.
Proof.
  unfold numToString. destruct z as [|p|p]; cbn [Z.to_int NilZero.string_of_int Z.ltb Z.compare].
  - exists (lit "0"). repeat split; try reflexivity. discriminate.
  - exists (lit (NilEmpty.string_of_uint (Pos.to_uint p))).
    pose proof (DecimalPos.Unsigned.to_uint_nonnil p) as Hnn.
    split; [now apply lit_string_of_uint_nonnil|].
    split; [apply digits_of_uint|]. split.
    + rewrite digitsValue_of_uint, DecimalPos.Unsigned.of_to. reflexivity.
    + unfold NilZero.string_of_uint. destruct (Pos.to_uint p); congruence.
  - exists (lit (NilEmpty.string_of_uint (Pos.to_uint p))).
    pose proof (DecimalPos.Unsigned.to_uint_nonnil p) as Hnn.
    split; [now apply lit_string_of_uint_nonnil|].
    split; [apply digits_of_uint|]. split.
    + rewrite digitsValue_of_uint, DecimalPos.Unsigned.of_to. reflexivity.
    + unfold NilZero.string_of_uint. destruct (Pos.to_uint p); try congruence;
        reflexivity.
Qed.

Lemma parseInt_numToString z : parseInt (numToString z) = Some z.
Proof.
  destruct (numToString_shape z) as (ds & Hne & Hdigits & Hval & ->).
  destruct (z <? 0) eqn:Hneg.
  - unfold parseInt. cbn [trimStart]. change (isWhiteSpace 45) with false.
    cbn iota. rewrite N.eqb_refl. cbn iota beta.
    rewrite (digitPrefix_digits _ Hdigits).
    destruct ds as [|u t]; [congruence|]. rewrite Hval.
    apply Z.ltb_lt in Hneg. f_equal. lia.
  - rewrite (parseInt_digits ds Hne Hdigits), Hval.
    apply Z.ltb_ge in Hneg. f_equal. lia.
Qed.

Lemma split_no_separator sep s :
  Forall (fun u => u <> sep) s -> split sep s = [s].
Proof.
  induction 1 as [|u rest Hu _ IH]; [reflexivity|].
  cbn [split]. apply N.eqb_neq in Hu. rewrite Hu, IH. reflexivity.
Qed.

Lemma split_at_separator sep a b :
  Forall (fun u => u <> sep) a -> split sep (a ++ sep :: b) = a :: split sep b.
Proof.
  induction 1 as [|u rest Hu _ IH]; cbn [app split].
  - rewrite N.eqb_refl. reflexivity.
  - apply N.eqb_neq in Hu. rewrite Hu, IH. reflexivity.
Qed.

Lemma numToString_no_x z : Forall (fun u => u <> 120%N) (numToString z).
Proof.
  destruct (numToString_shape z) as (ds & _ & Hdigits & _ & ->).
  assert (Hds : Forall (fun u => u <> 120%N) ds).
  { apply Forall_forall. intros u Hin.
    rewrite forallb_forall in Hdigits. apply list_elem_of_In in Hin.
    specialize (Hdigits u Hin). unfold isDigit in Hdigits.
    apply andb_true_iff in Hdigits as [_ H]. apply N.leb_le in H. lia. }
  destruct (z <? 0); [constructor; [discriminate|exact Hds]|exact Hds].
Qed.

(** X3: printing two integers below 2^53 in absolute value around an
    ['x'] and parsing the result gives the two integers back.  These
    are the integers that are numbers; beyond them [parseInt] returns
    the nearest number, which is another integer. *)
Theorem parseResolution_round_trip w h :
  Z.abs w < 2 ^ 53 -> Z.abs h < 2 ^ 53 ->
  parseResolution (numToString w ++ lit "x" ++ numToString h)
  = Ok {| width := w; height := h |}
  /\ numberValue (toNumber w) = Some w
  /\ numberValue (toNumber h) = Some h.
Proof.
  intros Hw Hh. split; [|split; now apply numberValue_toNumber].
  unfold parseResolution. change (lit "x" ++ numToString h) with (120%N :: numToString h).
  rewrite (split_at_separator 120 _ _ (numToString_no_x w)),
          (split_no_separator 120 _ (numToString_no_x h)).
  cbn [length Nat.eqb negb nth]. rewrite !parseInt_numToString. reflexivity.
Qed.

Lemma parseResolution_round_trip_witness :
  parseResolution (lit "1080x1920") = Ok {| width := 1080; height := 1920 |}
  /\ numberValue (toNumber 1080) = Some 1080
  /\ numberValue (toNumber 1920) = Some 1920.
Proof.
  apply (parseResolution_round_trip 1080 1920); reflexivity.
Defined.

(** The integer 2^53 + 1 is not a number: the number nearest to it is
    2^53. *)
Example toNumber_rounds :
  numberValue (toNumber 9007199254740993) = Some 9007199254740992.
Proof. reflexivity. Qed.

(* ===================================================================== *)
(** * Accounting for the effects of the pipeline                           *)
(* ===================================================================== *)

Lemma spent_app cost a b : spent cost (a ++ b) = (spent cost a + spent cost b)%nat.
Proof. induction a as [|ev a IH]; simpl; [reflexivity|]. rewrite IH. lia. Qed.

Lemma spent_zero cost new :
  spent cost new = 0%nat <-> Forall (fun ev => cost ev = 0%nat) new.
Proof.
  induction new as [|ev new IH]; simpl.
  - split; [constructor|reflexivity].
  - rewrite Forall_cons, <- IH. lia.
Qed.

Lemma spent_countOf p new : spent (countOf p) new = length (filter (fun ev => p ev = true) new).
Proof.
  induction new as [|ev new IH]; [reflexivity|].
  cbn [spent foldr]. fold (spent (countOf p) new). rewrite IH, filter_cons.
  unfold countOf. destruct (p ev); simpl; reflexivity.
Qed.

Section SpendsRules.

Context (cost : Event -> nat).

Lemma spends_pure {A} (m : M A) budget :
  (forall s, snd (m s) = s) -> Spends cost budget m.
Proof.
  intros H s. exists []. rewrite H, app_nil_r. split; [reflexivity|simpl; lia].
Qed.

Lemma spends_ret {A} (a : A) budget : Spends cost budget (ret a).
Proof. now apply spends_pure. Qed.

Lemma spends_throw {A} e budget : Spends cost budget (@throw A e).
Proof. now apply spends_pure. Qed.

Lemma spends_lift {A} (r : Res A) budget : Spends cost budget (lift r).
Proof. now apply spends_pure. Qed.

Lemma spends_dateNow budget : Spends cost budget dateNow.
Proof. now apply spends_pure. Qed.

Lemma spends_readProperty {A} (o : option A) property budget :
  Spends cost budget (readProperty o property).
Proof. destruct o; now apply spends_pure. Qed.

Lemma spends_randomSuffix env budget : Spends cost budget (randomSuffix env).
Proof.
  intros s. exists []. simpl. rewrite app_nil_r. split; [reflexivity|lia].
Qed.

Lemma spends_weaken {A} (m : M A) budget budget' :
  Spends cost budget m -> (budget <= budget')%nat -> Spends cost budget' m.
Proof.
  intros H Hle s. destruct (H s) as (new & Hnew & Hb). exists new. split; [exact Hnew|lia].
Qed.

(** The continuation may rely on the value being a result of [m]. *)
Lemma spends_bind_result {A B} (m : M A) (k : A -> M B) c1 c2 :
  Spends cost c1 m ->
  (forall s a s1, m s = (Ok a, s1) -> SpendsAt cost c2 (k a) s1) ->
  Spends cost (c1 + c2) (bind m k).
Proof.
  intros Hm Hk s. destruct (Hm s) as (n1 & E1 & B1). unfold SpendsAt, bind.
  destruct (m s) as [[a|e] s1] eqn:Hrun; simpl in E1.
  - destruct (Hk s a s1 Hrun) as (n2 & E2 & B2). exists (n1 ++ n2).
    rewrite E2, E1, app_assoc, spent_app. split; [reflexivity|lia].
  - exists n1. simpl. split; [exact E1|lia].
Qed.

Lemma spends_bind {A B} (m : M A) (k : A -> M B) c1 c2 :
  Spends cost c1 m -> (forall a, Spends cost c2 (k a)) ->
  Spends cost (c1 + c2) (bind m k).
Proof.
  intros Hm Hk. apply spends_bind_result; [exact Hm|]. intros s a s1 _. apply Hk.
Qed.

Lemma spends_bind0 {A B} (m : M A) (k : A -> M B) budget :
  Spends cost 0 m -> (forall a, Spends cost budget (k a)) ->
  Spends cost budget (bind m k).
Proof. intros Hm Hk. apply (spends_bind m k 0 budget Hm Hk). Qed.

Lemma spends_try_catch {A} (m : M A) (handler : Thrown -> M A) c1 c2 :
  Spends cost c1 m -> (forall e, Spends cost c2 (handler e)) ->
  Spends cost (c1 + c2) (try_catch m handler).
Proof.
  intros Hm Hh s. destruct (Hm s) as (n1 & E1 & B1). unfold SpendsAt, try_catch.
  destruct (m s) as [[a|e] s1]; simpl in E1.
  - exists n1. simpl. split; [exact E1|lia].
  - destruct (Hh e s1) as (n2 & E2 & B2). exists (n1 ++ n2).
    rewrite E2, E1, app_assoc, spent_app. split; [reflexivity|lia].
Qed.

Lemma spends_emit {A} (r : Res A) ev budget :
  (cost ev <= budget)%nat -> Spends cost budget (fun s => (r, emit ev s)).
Proof.
  intros H s. exists [ev]. simpl. split; [reflexivity|lia].
Qed.

End SpendsRules.

Lemma orDefault_nonzero x : orDefault x 15000 <> 0.
Proof. unfold orDefault. destruct (x =? 0) eqn:H; [lia|]. apply Z.eqb_neq. exact H. Qed.

Section PipelineAccounting.

Context (env : Env) (config : Config.t) (cost : Event -> nat)
        (correlationId : jsstring) (perFetch perWrite perSubmit : nat).

Hypothesis cost_log :
  forall level fields msg,
    cost (EvLog level (("correlationId", correlationId) :: fields) msg) = 0%nat.
Hypothesis cost_fetch :
  forall url timeoutMs,
    timeoutMs = orDefault (Config.audioDownloadTimeoutMs config) 15000
    \/ timeoutMs = orDefault (Config.assetDownloadTimeoutMs config) 15000 ->
    (cost (EvFetch url timeoutMs) <= perFetch)%nat.
Hypothesis cost_write :
  forall name data,
    generatedName env name ->
    (cost (EvWriteFile (path_join (Config.tempDirPath config) name) data)
     <= perWrite)%nat.
Hypothesis cost_submit :
  forall scenes, (cost (EvAddToQueue scenes) <= perSubmit)%nat.
Hypothesis cost_status : forall videoId, cost (EvStatus videoId) = 0%nat.
Hypothesis cost_getVideo : forall videoId, cost (EvGetVideo videoId) = 0%nat.
Hypothesis cost_sleep : cost (EvSleep 1000) = 0%nat.

Lemma spends_log level fields msg budget :
  Spends cost budget (log level (("correlationId", correlationId) :: fields) msg).
Proof.
  unfold log. apply spends_emit. rewrite cost_log. lia.
Qed.

Lemma spends_downloadWithTimeout site url timeoutMs timeoutError :
  timeoutMs = orDefault (Config.audioDownloadTimeoutMs config) 15000
  \/ timeoutMs = orDefault (Config.assetDownloadTimeoutMs config) 15000 ->
  Spends cost perFetch (downloadWithTimeout env site url timeoutMs timeoutError).
Proof.
  intros Ht. unfold downloadWithTimeout.
  apply (spends_weaken cost _ (perFetch + 0 + 0)); [|lia].
  apply spends_try_catch.
  - apply spends_bind.
    + unfold doFetch. intros s.
      exists [EvFetch url timeoutMs].
      destruct (fetch env site); simpl;
        (split; [reflexivity|]); specialize (cost_fetch url timeoutMs Ht); lia.
    + intros response. destruct (negb (responseOk (fst response)));
        [apply spends_throw|apply spends_lift].
  - intros e. destruct (isAbortError e); apply spends_throw.
Qed.

Lemma spends_fsWriteFile site name data :
  generatedName env name ->
  Spends cost perWrite
    (fsWriteFile env site (path_join (Config.tempDirPath config) name) data).
Proof.
  intros Hname. unfold fsWriteFile. intros s. eexists [_].
  destruct (writeFile env site); simpl; (split; [reflexivity|]);
    specialize (cost_write name data Hname); lia.
Qed.

(** The continuation of [randomSuffix] only has to be accounted for on
    the suffixes that the environment draws. *)
Lemma spends_bind_randomSuffix {B} (k : jsstring -> M B) budget :
  (forall n, Spends cost budget (k (random36 env n))) ->
  Spends cost budget (bind (randomSuffix env) k).
Proof.
  intros Hk. apply (spends_bind_result cost (randomSuffix env) k 0 budget).
  - apply spends_randomSuffix.
  - intros s a s1 Hrun. unfold randomSuffix in Hrun. injection Hrun as <- <-.
    apply Hk.
Qed.

Lemma spends_validateScenes scenes i : Spends cost 0 (validateScenes scenes i).
Proof.
  apply spends_pure. intros s.
  destruct (validateScenes_pure scenes i) as (r & _ & Hrun). now rewrite Hrun.
Qed.

Lemma spends_validateRequest request :
  Spends cost 0 (validateRequest request correlationId).
Proof.
  unfold validateRequest.
  repeat first
    [ apply spends_ret | apply spends_lift | apply spends_readProperty
    | apply spends_validateScenes | apply spends_log
    | apply spends_bind0; [|intros ?] ].
Qed.

Lemma spends_downloadTtsAudio ttsUrl :
  Spends cost perFetch (downloadTtsAudio env config ttsUrl correlationId).
Proof.
  unfold downloadTtsAudio.
  apply (spends_weaken cost _ (perFetch + 0 + 0)); [|lia].
  apply spends_try_catch.
  - apply spends_bind; [apply spends_downloadWithTimeout; auto|].
    intros buffer. apply spends_bind0; [apply spends_log|]. intros _. apply spends_ret.
  - intros e. apply spends_throw.
Qed.

Lemma spends_resolveAsset i asset acc :
  Spends cost (perFetch + perWrite) (resolveAsset env config correlationId i asset acc).
Proof.
  unfold resolveAsset. destruct acc as [[resolved validCount] fallbackCount].
  destruct (WorkerAsset.videoUrl asset) as [url|]; [|apply spends_ret].
  destruct (truthy url); [|apply spends_ret].
  apply (spends_weaken cost _ (perFetch + perWrite + 0)); [|lia].
  apply spends_try_catch.
  - apply spends_bind; [apply spends_downloadWithTimeout; auto|]. intros buffer.
    apply spends_bind0; [apply spends_dateNow|]. intros stamp.
    apply spends_bind_randomSuffix. intros k.
    apply (spends_weaken cost _ (perWrite + 0)); [|lia].
    apply spends_bind; [|intros _; apply spends_ret].
    apply spends_fsWriteFile. exists (lit "asset-"), stamp, k. auto.
  - intros e. apply spends_bind0; [apply spends_log|]. intros _. apply spends_ret.
Qed.

Lemma spends_resolveLoop assets :
  forall i acc,
    Spends cost (length assets * (perFetch + perWrite))
      (resolveLoop env config correlationId assets i acc).
Proof.
  induction assets as [|asset rest IH]; intros i acc; cbn [resolveLoop length].
  - apply spends_ret.
  - apply (spends_weaken cost _ ((perFetch + perWrite)
                                 + length rest * (perFetch + perWrite))); [|lia].
    apply spends_bind; [apply spends_resolveAsset|]. intros acc'. apply IH.
Qed.

Lemma spends_resolveAssets assets :
  Spends cost (length assets * (perFetch + perWrite))
    (resolveAssets env config assets correlationId).
Proof.
  unfold resolveAssets.
  apply (spends_weaken cost _ (length assets * (perFetch + perWrite) + 0)); [|lia].
  apply spends_bind; [apply spends_resolveLoop|].
  intros [[resolved validCount] fallbackCount].
  apply spends_bind0; [apply spends_log|]. intros _. apply spends_ret.
Qed.

Lemma spends_buildRenderPlan request audioBuffer resolvedAssets :
  Spends cost 0 (buildRenderPlan request audioBuffer resolvedAssets).
Proof.
  unfold buildRenderPlan.
  repeat first
    [ apply spends_ret | apply spends_lift | apply spends_readProperty
    | apply spends_bind0; [|intros ?] ].
Qed.

Lemma spends_pollLoop videoId startTime : Spends cost 0 (pollLoop env videoId startTime).
Proof.
  intros s. unfold SpendsAt. funelim (pollLoop env videoId startTime s).
  - exists []. simpl. rewrite app_nil_r. split; [reflexivity|lia].
  - exists [EvStatus videoId; EvGetVideo videoId]. unfold fetchVideo. simpl.
    rewrite <- app_assoc, cost_status, cost_getVideo. split; [reflexivity|lia].
  - exists [EvStatus videoId]. simpl. rewrite cost_status. split; [reflexivity|lia].
  - destruct H as (new & Hnew & Hb).
    exists (EvStatus videoId :: EvSleep 1000 :: new). rewrite Hnew. simpl.
    rewrite <- !app_assoc, cost_status, cost_sleep. split; [reflexivity|lia].
Qed.

Lemma spends_renderWithRemotion renderPlan :
  Spends cost perSubmit (renderWithRemotion env renderPlan correlationId).
Proof.
  unfold renderWithRemotion.
  apply (spends_weaken cost _ (perSubmit + 0)); [|lia].
  apply spends_bind.
  - unfold submitToQueue. apply spends_emit. apply cost_submit.
  - intros videoId. apply spends_bind0; [apply spends_dateNow|]. intros startTime.
    apply spends_pollLoop.
Qed.

Lemma spends_uploadVideo videoBuffer :
  Spends cost perWrite (uploadVideo env config videoBuffer correlationId).
Proof.
  unfold uploadVideo.
  apply spends_bind0; [apply spends_dateNow|]. intros stamp.
  apply spends_bind_randomSuffix. intros k.
  apply (spends_weaken cost _ (perWrite + 0)); [|lia].
  apply spends_bind.
  - apply spends_fsWriteFile. exists (lit "video-"), stamp, k.
    split; [auto|]. now rewrite <- !app_assoc.
  - intros _. apply spends_bind0; [apply spends_log|]. intros _. apply spends_ret.
Qed.

Lemma spends_respond videoBuffer startTime :
  Spends cost (uploadCount config * perWrite)
    (respond env config videoBuffer startTime correlationId).
Proof.
  unfold respond, uploadCount.
  destruct (bool_decide (Config.responseMode config = lit "url")).
  - apply spends_bind0; [apply spends_log|]. intros _.
    apply (spends_weaken cost _ (perWrite + 0)); [|lia].
    apply spends_bind; [apply spends_uploadVideo|]. intros url. apply spends_ret.
  - apply spends_bind0; [apply spends_dateNow|]. intros finished.
    apply spends_bind0; [apply spends_log|]. intros _. apply spends_ret.
Qed.

Lemma spends_bind_ret {A B} (a : A) (k : A -> M B) budget :
  Spends cost budget (k a) -> Spends cost budget (bind (ret a) k).
Proof. intros H s. exact (H s). Qed.

Lemma spends_renderSteps request :
  Spends cost (perFetch + assetCount request * (perFetch + perWrite) + perSubmit)
    (renderSteps env config request correlationId).
Proof.
  unfold renderSteps.
  apply (spends_weaken cost _
           (0 + (perFetch + assetCount request * (perFetch + perWrite) + perSubmit)));
    [|lia].
  apply spends_bind_result; [apply spends_validateRequest|].
  intros s validated s1 Hvalid.
  apply validateRequest_Ok_inv in Hvalid
    as [-> (scenes & cfg & resolution & _ & _ & _ & Hc & _)].
  unfold assetCount. rewrite Hc. cbn [readProperty]. revert s1.
  apply spends_bind0; [apply spends_log|]. intros _.
  apply spends_bind_ret.
  apply (spends_weaken cost _
           (perFetch
            + (length (WorkerConfig.assets cfg) * (perFetch + perWrite) + perSubmit)));
    [|lia].
  apply spends_bind; [apply spends_downloadTtsAudio|]. intros audioBuffer.
  apply spends_bind0; [apply spends_log|]. intros _.
  apply spends_bind; [apply spends_resolveAssets|]. intros resolvedAssets.
  apply spends_bind0; [apply spends_log|]. intros _.
  apply spends_bind0; [apply spends_buildRenderPlan|]. intros renderPlan.
  apply spends_bind0; [apply spends_log|]. intros _.
  apply spends_renderWithRemotion.
Qed.

Lemma spends_renderAttempt request startTime :
  Spends cost
    (perFetch + assetCount request * (perFetch + perWrite) + perSubmit
     + uploadCount config * perWrite)
    (renderAttempt env config request startTime correlationId).
Proof.
  unfold renderAttempt.
  apply (spends_weaken cost _
           (perFetch + assetCount request * (perFetch + perWrite) + perSubmit
            + uploadCount config * perWrite + 0)); [|lia].
  apply spends_try_catch.
  - apply spends_bind; [apply spends_renderSteps|]. intros videoBuffer.
    apply spends_respond.
  - intros e. apply spends_bind0; [apply spends_log|]. intros _. apply spends_throw.
Qed.

End PipelineAccounting.

(** What [renderVideo] appends to the events, accounted for with the
    correlation id that it draws in the state it starts from. *)
Lemma spends_renderVideo env config cost perFetch perWrite perSubmit request s :
  (forall level fields msg,
     cost (EvLog level (("correlationId", correlationIdAt env s) :: fields) msg) = 0%nat) ->
  (forall url timeoutMs,
     timeoutMs = orDefault (Config.audioDownloadTimeoutMs config) 15000
     \/ timeoutMs = orDefault (Config.assetDownloadTimeoutMs config) 15000 ->
     (cost (EvFetch url timeoutMs) <= perFetch)%nat) ->
  (forall name data,
     generatedName env name ->
     (cost (EvWriteFile (path_join (Config.tempDirPath config) name) data)
      <= perWrite)%nat) ->
  (forall scenes, (cost (EvAddToQueue scenes) <= perSubmit)%nat) ->
  (forall videoId, cost (EvStatus videoId) = 0%nat) ->
  (forall videoId, cost (EvGetVideo videoId) = 0%nat) ->
  cost (EvSleep 1000) = 0%nat ->
  SpendsAt cost
    (perFetch + assetCount request * (perFetch + perWrite) + perSubmit
     + uploadCount config * perWrite)
    (renderVideo env config request) s.
Proof.
  intros Hlog Hfetch Hwrite Hsubmit Hstatus Hget Hsleep. unfold SpendsAt.
  destruct (ShortVideoRenderRequest.scenes request) as [scenes|] eqn:Hs.
  2:{ exists []. unfold renderVideo, bind, dateNow, randomSuffix. rewrite Hs. simpl.
      rewrite app_nil_r. split; [reflexivity|lia]. }
  destruct (ShortVideoRenderRequest.config request) as [cfg|] eqn:Hc.
  2:{ exists []. unfold renderVideo, bind, dateNow, randomSuffix. rewrite Hs, Hc. simpl.
      rewrite app_nil_r. split; [reflexivity|lia]. }
  rewrite (renderVideo_started env config request scenes cfg s Hs Hc).
  destruct (spends_renderAttempt env config cost (correlationIdAt env s)
              perFetch perWrite perSubmit Hlog Hfetch Hwrite Hsubmit Hstatus Hget
              Hsleep request (now s) (startedState env config scenes cfg s))
    as (new & Hnew & Hb).
  eexists (_ :: new). rewrite Hnew. cbn [startedState events].
  rewrite <- app_assoc. split; [reflexivity|].
  cbn [spent foldr]. fold (spent cost new). rewrite Hlog. lia.
Qed.

Lemma stampedb_stamped correlationId e :
  stampedb correlationId e = true -> stamped correlationId e.
Proof.
  destruct e as [level fields msg| | | | | |]; simpl; auto.
  destruct fields as [|[key value] fields]; [discriminate|].
  rewrite andb_true_iff, bool_decide_eq_true. intros [Hkey ->].
  apply String.eqb_eq in Hkey. subst key. reflexivity.
Qed.

Lemma timedb_timed config e : timedb config e = true -> timed config e.
Proof.
  destruct e; simpl; auto.
  rewrite andb_true_iff, negb_true_iff, orb_true_iff, !Z.eqb_eq, Z.eqb_neq. tauto.
Qed.

Lemma split_nonempty sep s : split sep s <> [].
Proof.
  induction s as [|u rest IH]; cbn [split]; [discriminate|].
  destruct (u =? sep)%N; [discriminate|]. destruct (split sep rest); discriminate.
Qed.

Lemma split_app_separator sep a b :
  split sep (a ++ sep :: b) = split sep a ++ split sep b.
Proof.
  induction a as [|u rest IH]; cbn [app split].
  - rewrite N.eqb_refl. reflexivity.
  - rewrite IH. destruct (u =? sep)%N; [reflexivity|].
    pose proof (split_nonempty sep rest) as Hne.
    destruct (split sep rest); [congruence|reflexivity].
Qed.

Lemma plainName_inv name :
  plainName name = true ->
  name <> [] /\ Forall (fun u => u <> 47%N) name
  /\ isCurrentDir name = false /\ isParentDir name = false.
Proof.
  unfold plainName. rewrite !andb_true_iff, !negb_true_iff, bool_decide_eq_false.
  intros [[[Hne Hall] Hcur] Hpar]. repeat split; auto.
  apply Forall_forall. intros u Hu. rewrite forallb_forall in Hall.
  apply list_elem_of_In in Hu. specialize (Hall u Hu).
  apply negb_true_iff, N.eqb_neq in Hall. exact Hall.
Qed.

(** A plain name that follows other segments is kept as the last one. *)
Lemma normalizeSegments_plain allowAboveRoot name :
  plainName name = true ->
  forall segs res,
    normalizeSegments allowAboveRoot (segs ++ [name]) res
    = normalizeSegments allowAboveRoot segs res ++ [name].
Proof.
  intros Hname. apply plainName_inv in Hname as (Hne & _ & Hcur & Hpar).
  induction segs as [|seg rest IH]; intros res; cbn [app normalizeSegments].
  - rewrite bool_decide_eq_false_2 by exact Hne. rewrite Hcur, Hpar. reflexivity.
  - destruct (bool_decide (seg = []) || isCurrentDir seg); [apply IH|].
    destruct (isParentDir seg); [|apply IH].
    destruct res as [|top res']; [apply IH|].
    destruct (isParentDir top); apply IH.
Qed.

Lemma joinSegments_snoc segs name :
  segs <> [] -> joinSegments (segs ++ [name]) = joinSegments segs ++ 47%N :: name.
Proof.
  induction segs as [|seg rest IH]; [congruence|]. intros _.
  destruct rest as [|seg' rest']; [reflexivity|].
  change (joinSegments ((seg :: seg' :: rest') ++ [name]))
    with (seg ++ 47%N :: joinSegments ((seg' :: rest') ++ [name])).
  rewrite IH by discriminate.
  change (joinSegments (seg :: seg' :: rest'))
    with (seg ++ 47%N :: joinSegments (seg' :: rest')).
  rewrite <- app_assoc. reflexivity.
Qed.

(** Joining a directory and a plain file name gives the normalised
    directory followed by the name. *)
Lemma path_join_plain dir name :
  plainName name = true -> path_join dir name = dirPrefix dir ++ name.
Proof.
  intros Hname. pose proof Hname as (Hne & Hall & Hcur & Hpar)%plainName_inv.
  assert (Hlast : forall pre, match last (pre ++ name) with
                              | Some u => (u =? 47)%N
                              | None => false
                              end = false).
  { intros pre. destruct (exists_last Hne) as (body & u & ->).
    rewrite app_assoc, last_snoc. apply N.eqb_neq.
    rewrite Forall_app, Forall_singleton in Hall. tauto. }
  destruct name as [|n0 name']; [congruence|].
  assert (Hn0 : (n0 =? 47)%N = false).
  { apply N.eqb_neq. now inversion Hall. }
  unfold path_join, dirPrefix. destruct dir as [|d0 dir'].
  - unfold path_normalize. rewrite Hn0. cbn [negb].
    rewrite (split_no_separator 47 (n0 :: name') Hall).
    pose proof (normalizeSegments_plain true (n0 :: name') Hname [] []) as Hnorm.
    cbn [app] in Hnorm. rewrite Hnorm.
    cbn [normalizeSegments rev app joinSegments].
    pose proof (Hlast []) as Hl. cbn [app] in Hl. rewrite Hl. now rewrite app_nil_r.
  - unfold path_normalize. change (lit "/") with [47%N]. cbn [app].
    pose proof (Hlast ((d0 :: dir') ++ [47%N])) as Hl.
    rewrite <- app_assoc in Hl. cbn [app] in Hl. rewrite Hl.
    change (d0 :: dir' ++ 47%N :: n0 :: name')
      with ((d0 :: dir') ++ 47%N :: n0 :: name').
    rewrite split_app_separator, (split_no_separator 47 (n0 :: name') Hall).
    rewrite (normalizeSegments_plain _ (n0 :: name') Hname).
    destruct (normalizeSegments (negb (d0 =? 47)%N) (split 47 (d0 :: dir')) [])
      as [|seg segs] eqn:Hsegs.
    + cbn [app joinSegments]. rewrite app_nil_r. destruct (d0 =? 47)%N; reflexivity.
    + pose proof (joinSegments_snoc (seg :: segs) (n0 :: name') ltac:(discriminate)) as Hj.
      destruct ((seg :: segs) ++ [n0 :: name']) as [|seg1 segs1] eqn:Happ;
        [discriminate|].
      rewrite Hj, app_nil_r, <- !app_assoc. reflexivity.
Qed.

Lemma scopedb_scoped config e : scopedb config e = true -> scoped config e.
Proof.
  destruct e as [| |path data| | | |]; cbn [scopedb scoped]; auto.
  rewrite andb_true_iff, bool_decide_eq_true. intros [Htake Hplain].
  exists (drop (length (dirPrefix (Config.tempDirPath config))) path).
  assert (Hpath : path = dirPrefix (Config.tempDirPath config)
                         ++ drop (length (dirPrefix (Config.tempDirPath config))) path).
  { rewrite <- Htake at 1. now rewrite take_drop. }
  split; [exact Hplain|]. split; [|exact Hpath].
  rewrite (path_join_plain _ _ Hplain). exact Hpath.
Qed.

(** The decimal rendering of an integer has digits and at most a minus
    sign. *)
Lemma numToString_no_slash z : forallb (fun u => negb (u =? 47)%N) (numToString z) = true.
Proof.
  destruct (numToString_shape z) as (ds & _ & Hdigits & _ & ->).
  assert (Hds : forallb (fun u => negb (u =? 47)%N) ds = true).
  { rewrite forallb_forall in *. intros u Hin. specialize (Hdigits u Hin).
    unfold isDigit in Hdigits. apply andb_true_iff in Hdigits as [H _].
    apply N.leb_le in H. apply negb_true_iff, N.eqb_neq. lia. }
  destruct (z <? 0); [cbn [forallb]; rewrite Hds; reflexivity|exact Hds].
Qed.

Lemma generatedName_plain env name :
  (forall n, forallb isBase36 (random36 env n) = true) ->
  generatedName env name -> plainName name = true.
Proof.
  intros Hrandom (kind & stamp & k & Hkind & ->).
  assert (Hsuffix : forallb (fun u => negb (u =? 47)%N) (random36 env k) = true).
  { specialize (Hrandom k). rewrite forallb_forall in *. intros u Hin.
    specialize (Hrandom u Hin). unfold isBase36, isDigit in Hrandom.
    apply negb_true_iff, N.eqb_neq. intros ->. cbn in Hrandom. discriminate. }
  unfold plainName, isCurrentDir, isParentDir.
  rewrite !forallb_app, numToString_no_slash, Hsuffix.
  destruct Hkind as [-> | ->]; reflexivity.
Qed.

Lemma violations_zero test new :
  spent (violations test) new = 0%nat -> Forall (fun e => test e = true) new.
Proof.
  intros H. apply spent_zero in H. eapply Forall_impl; [exact H|].
  intros e. unfold violations. destruct (test e); [reflexivity|discriminate].
Qed.

(** X4: one [renderVideo] call submits at most one job to the render
    collaborator, issues at most one download for the narration and one
    per asset, and writes at most one file per asset plus, in ['url']
    mode only, the video. *)
Theorem renderVideo_effect_bounds env config request s :
  exists new,
    events (snd (renderVideo env config request s)) = events s ++ new
    /\ (length (filter (fun e => isSubmission e = true) new) <= 1)%nat
    /\ (length (filter (fun e => isNetworkCall e = true) new)
        <= 1 + assetCount request)%nat
    /\ (length (filter (fun e => isFileWrite e = true) new)
        <= assetCount request + uploadCount config)%nat.
Proof.
  destruct (spends_renderVideo env config (countOf isSubmission) 0 0 1 request s)
    as (new & Hnew & Hsub); try (intros; reflexivity); try (intros; simpl; lia).
  destruct (spends_renderVideo env config (countOf isNetworkCall) 1 0 0 request s)
    as (new2 & Hnew2 & Hnet); try (intros; reflexivity); try (intros; simpl; lia).
  destruct (spends_renderVideo env config (countOf isFileWrite) 0 1 0 request s)
    as (new3 & Hnew3 & Hwr); try (intros; reflexivity); try (intros; simpl; lia).
  rewrite Hnew in Hnew2, Hnew3.
  apply app_inv_head in Hnew2, Hnew3. subst new2 new3.
  rewrite spent_countOf in Hsub, Hnet, Hwr.
  exists new. split; [exact Hnew|]. repeat split; lia.
Qed.

(** X5: every log entry of a [renderVideo] call carries, as its first
    field, the correlation id drawn at the start of that call. *)
Theorem renderVideo_logs_stamped env config request s :
  exists new,
    events (snd (renderVideo env config request s)) = events s ++ new
    /\ Forall (stamped (correlationIdAt env s)) new.
Proof.
  destruct (spends_renderVideo env config
              (violations (stampedb (correlationIdAt env s))) 0 0 0 request s)
    as (new & Hnew & Hb); try (intros; reflexivity).
  - intros level fields msg. unfold violations. cbn [stampedb].
    rewrite bool_decide_eq_true_2 by reflexivity. reflexivity.
  - exists new. split; [exact Hnew|].
    assert (Hz : spent (violations (stampedb (correlationIdAt env s))) new = 0%nat)
      by lia.
    apply violations_zero in Hz. eapply Forall_impl; [exact Hz|].
    intros e. apply stampedb_stamped.
Qed.

(** X6: no download of a [renderVideo] call is issued with a zero
    timeout: each uses the configured audio or asset timeout, and 15000
    where that is unset. *)
Theorem renderVideo_downloads_timed env config request s :
  exists new,
    events (snd (renderVideo env config request s)) = events s ++ new
    /\ Forall (timed config) new.
Proof.
  destruct (spends_renderVideo env config (violations (timedb config)) 0 0 0 request s)
    as (new & Hnew & Hb); try (intros; reflexivity).
  - intros url timeoutMs Ht. unfold violations. cbn [timedb].
    assert (Hnz : (timeoutMs =? 0) = false).
    { apply Z.eqb_neq. destruct Ht as [-> | ->]; apply orDefault_nonzero. }
    rewrite Hnz. cbn [negb andb].
    destruct Ht as [-> | ->]; rewrite Z.eqb_refl, ?orb_true_r; reflexivity.
  - exists new. split; [exact Hnew|].
    assert (Hz : spent (violations (timedb config)) new = 0%nat) by lia.
    apply violations_zero in Hz. eapply Forall_impl; [exact Hz|].
    intros e. apply timedb_timed.
Qed.

(** X7: given that the random suffixes are base-36 strings, as
    [Math.random().toString(36).substring(2, 8)] yields them, every file
    that a [renderVideo] call writes is an entry of the temp directory:
    its path is [path.join(tempDirPath, name)] for a plain file name,
    that is the normalised [tempDirPath] followed by the name. *)
Theorem renderVideo_writes_scoped env config request s :
  (forall n, forallb isBase36 (random36 env n) = true) ->
  exists new,
    events (snd (renderVideo env config request s)) = events s ++ new
    /\ Forall (scoped config) new.
Proof.
  intros Hrandom.
  destruct (spends_renderVideo env config (violations (scopedb config)) 0 0 0 request s)
    as (new & Hnew & Hb); try (intros; reflexivity).
  - intros name data Hname. pose proof (generatedName_plain env name Hrandom Hname) as Hplain.
    unfold violations. cbn [scopedb].
    rewrite (path_join_plain _ _ Hplain), take_app_length, drop_app_length.
    rewrite bool_decide_eq_true_2 by reflexivity. rewrite Hplain. reflexivity.
  - exists new. split; [exact Hnew|].
    assert (Hz : spent (violations (scopedb config)) new = 0%nat) by lia.
    apply violations_zero in Hz. eapply Forall_impl; [exact Hz|].
    intros e. apply scopedb_scoped.
Qed.

Lemma renderVideo_writes_scoped_witness :
  exists new,
    events (snd (renderVideo sampleEnv
                   (Config.mk (lit "url") 15000 15000 (lit "/tmp//videos/../render/"))
                   sampleRequest sampleState))
    = events sampleState ++ new
    /\ Forall (scoped (Config.mk (lit "url") 15000 15000 (lit "/tmp//videos/../render/")))
         new
    /\ filter (fun e => isFileWrite e = true) new
       = [EvWriteFile (lit "/tmp/render/asset-1700000000000-k3x9q1.mp4")
            [Byte.x00; Byte.x01];
          EvWriteFile (lit "/tmp/render/video-1700000003000-k3x9q1.mp4")
            [Byte.x66; Byte.x74; Byte.x79; Byte.x70]].
Proof.
  destruct (renderVideo_writes_scoped sampleEnv
              (Config.mk (lit "url") 15000 15000 (lit "/tmp//videos/../render/"))
              sampleRequest sampleState (fun n => eq_refl)) as (new & Hnew & Hscoped).
  exists new. split; [exact Hnew|]. split; [exact Hscoped|].
  vm_compute in Hnew. subst new. vm_compute. reflexivity.
Defined.

(* ===================================================================== *)
(** * More on the polling loop                                             *)
(* ===================================================================== *)

Lemma elapsedAfter_mono env t n m :
  (n <= m)%nat -> elapsedAfter env t n <= elapsedAfter env t m.
Proof.
  induction 1 as [|m _ IH]; [lia|].
  rewrite elapsedAfter_last. lia.
Qed.

(** When the first [n] polls see a non-terminal state, poll [n] sees a
    terminal one and the deadline test of turn [n] passes, the loop ends
    at that poll. *)
Lemma pollLoop_settles env videoId s n :
  (forall k : nat, (k < n)%nat -> classify (status env (polls s + k)) = JobOther) ->
  classify (status env (polls s + n)) <> JobOther ->
  elapsedAfter env (timers s) n < 180000 ->
  fst (pollLoop env videoId (now s) s)
  = match classify (status env (polls s + n)) with
    | JobReady => getVideo env
    | _ => Throw (Error (lit "ShortCreator render failed"))
    end
  /\ now (snd (pollLoop env videoId (now s) s)) - now s = elapsedAfter env (timers s) n
  /\ polls (snd (pollLoop env videoId (now s) s)) = S (polls s + n).
Proof.
  intros Hother Hterminal Hdeadline.
  destruct (pollLoop env videoId (now s) s) as [r s'] eqn:Hrun.
  apply pollLoop_outcome in Hrun as (m & Hturns & Htimers & Hnow & Hexit).
  assert (Hmn : (m <= n)%nat).
  { destruct (le_lt_dec m n) as [|Hlt]; [assumption|].
    destruct (Hturns n Hlt) as [Hst _]. congruence. }
  assert (Hm : m = n).
  { destruct Hexit as [(_ & Hst & _)|[(_ & Hst & _)|(Hlate & _)]].
    - destruct (Nat.eq_dec m n) as [|Hne]; [assumption|].
      rewrite (Hother m) in Hst by lia. discriminate.
    - destruct (Nat.eq_dec m n) as [|Hne]; [assumption|].
      rewrite (Hother m) in Hst by lia. discriminate.
    - pose proof (elapsedAfter_mono env (timers s) m n Hmn). lia. }
  subst m. cbn [fst snd].
  destruct Hexit as [(_ & Hst & -> & Hp)|[(_ & Hst & -> & Hp)|(Hlate & _)]].
  - rewrite Hst. auto.
  - rewrite Hst. auto.
  - lia.
Qed.

(** X8: when the job is submitted and its state becomes terminal at a
    poll whose deadline test passes, [renderWithRemotion] ends at that
    poll: it returns what [getVideo] gives on ['ready'] and throws
    ['ShortCreator render failed'] on ['failed'], after exactly the time
    of the turns before. *)
Theorem renderWithRemotion_settles env renderPlan correlationId s videoId n :
  addToQueue env = Ok videoId ->
  (forall k : nat, (k < n)%nat -> classify (status env (polls s + k)) = JobOther) ->
  classify (status env (polls s + n)) <> JobOther ->
  elapsedAfter env (timers s) n < 180000 ->
  fst (renderWithRemotion env renderPlan correlationId s)
  = match classify (status env (polls s + n)) with
    | JobReady => getVideo env
    | _ => Throw (Error (lit "ShortCreator render failed"))
    end
  /\ now (snd (renderWithRemotion env renderPlan correlationId s)) - now s
     = elapsedAfter env (timers s) n.
Proof.
  intros Hq Hother Hterminal Hdeadline.
  unfold renderWithRemotion, bind, submitToQueue, dateNow. rewrite Hq.
  set (s1 := emit (EvAddToQueue (toSceneInputs renderPlan)) s).
  destruct (pollLoop_settles env videoId s1 n Hother Hterminal Hdeadline)
    as (Hr & Hnow & _).
  change (now s1) with (now s) in *. change (timers s1) with (timers s) in *.
  change (polls s1) with (polls s) in *. auto.
Qed.

Lemma renderWithRemotion_settles_witness :
  fst (renderWithRemotion sampleEnv (InternalRenderPlan.mk 1080 1920 30 [] [] [] [])
         [] sampleState)
  = Ok [Byte.x66; Byte.x74; Byte.x79; Byte.x70]
  /\ now (snd (renderWithRemotion sampleEnv
                 (InternalRenderPlan.mk 1080 1920 30 [] [] [] []) [] sampleState))
     - now sampleState = 3000.
Proof.
  apply (renderWithRemotion_settles sampleEnv
           (InternalRenderPlan.mk 1080 1920 30 [] [] [] []) [] sampleState
           (lit "cm8video") 3).
  - reflexivity.
  - intros k Hk. destruct k as [|[|[|k]]]; [reflexivity..|lia].
  - discriminate.
  - vm_compute. reflexivity.
Defined.

(** X9: the effects of the polling loop are status queries separated by
    sleeps of exactly 1000 ms; after a ['failed'] state nothing follows,
    after a ['ready'] state only the [getVideo] call, and a timeout is
    found right after a sleep or at once. *)
Theorem pollLoop_trace env videoId startTime s :
  exists n : nat,
    timers (snd (pollLoop env videoId startTime s)) = (timers s + n)%nat
    /\ ((fst (pollLoop env videoId startTime s) = Throw (Error (lit "Render timed out"))
         /\ events (snd (pollLoop env videoId startTime s))
            = events s ++ pollTurns videoId n)
        \/ (fst (pollLoop env videoId startTime s)
            = Throw (Error (lit "ShortCreator render failed"))
            /\ events (snd (pollLoop env videoId startTime s))
               = events s ++ pollTurns videoId n ++ [EvStatus videoId])
        \/ (fst (pollLoop env videoId startTime s) = getVideo env
            /\ events (snd (pollLoop env videoId startTime s))
               = events s ++ pollTurns videoId n
                 ++ [EvStatus videoId; EvGetVideo videoId])).
Proof.
  funelim (pollLoop env videoId startTime s).
  - exists 0%nat. cbn. rewrite Nat.add_0_r, app_nil_r. auto.
  - exists 0%nat. unfold fetchVideo. cbn. rewrite Nat.add_0_r, <- app_assoc.
    split; [reflexivity|]. right. right. auto.
  - exists 0%nat. cbn. rewrite Nat.add_0_r. split; [reflexivity|]. right. left. auto.
  - destruct H as (n & Htimers & Hcases). exists (S n).
    cbn [slept polled timers events] in Htimers, Hcases.
    split; [lia|]. cbn [pollTurns].
    rewrite <- !app_assoc in Hcases. cbn [app] in Hcases. exact Hcases.
Qed.

(* ===================================================================== *)
(** * More on downloads                                                    *)
(* ===================================================================== *)

(** X10: [downloadWithTimeout] performs exactly one fetch.  It yields the
    body exactly when the fetch answers with a 2xx status and the body
    can be read; a non-2xx status gives ['<label>: HTTP <status>']
    whatever the body; an abort gives
    ['<label>: Timed out after <timeoutMs>ms']; any other failure is
    rethrown as it is. *)
Theorem downloadWithTimeout_classified env site url timeoutMs timeoutError s :
  snd (downloadWithTimeout env site url timeoutMs timeoutError s)
  = emit (EvFetch url timeoutMs) s
  /\ (forall buffer,
        fst (downloadWithTimeout env site url timeoutMs timeoutError s) = Ok buffer
        <-> exists httpStatus,
              fetch env site = FetchResolved httpStatus (Ok buffer)
              /\ responseOk httpStatus = true)
  /\ (forall httpStatus body,
        fetch env site = FetchResolved httpStatus body ->
        responseOk httpStatus = false ->
        fst (downloadWithTimeout env site url timeoutMs timeoutError s)
        = Throw (Error (timeoutError ++ lit ": HTTP " ++ numToString httpStatus)))
  /\ (forall e,
        fetch env site = FetchRejected e
        \/ (exists httpStatus,
              fetch env site = FetchResolved httpStatus (Throw e)
              /\ responseOk httpStatus = true) ->
        fst (downloadWithTimeout env site url timeoutMs timeoutError s)
        = Throw (if isAbortError e
                 then Error (timeoutError ++ lit ": Timed out after "
                             ++ numToString timeoutMs ++ lit "ms")
                 else e)).
Proof.
  unfold downloadWithTimeout, try_catch, bind, doFetch, throw, lift.
  destruct (fetch env site) as [httpStatus [buffer|err]|err] eqn:Hfetch;
    cbn [fst snd];
    [destruct (responseOk httpStatus) eqn:Hok
    |destruct (responseOk httpStatus) eqn:Hok;
     [cbn [negb]; destruct (isAbortError err) eqn:Habort|]
    |destruct (isAbortError err) eqn:Habort];
    cbn [fst snd negb];
    (split; [reflexivity|]); (split; [|split]);
    try (intros b; split;
         [intros H; try discriminate H; injection H as <-; eauto
         |intros (st & H & Hyes); try discriminate H; injection H as <- <-;
          try congruence; reflexivity]);
    try (intros st body H Hno; try discriminate H; injection H as <- <-;
         try congruence; reflexivity);
    try (intros e [H|(st & H & Hyes)];
         (first [discriminate H | injection H as <- <- | injection H as <-]);
         try congruence; rewrite ?Habort; reflexivity).
Qed.

(** The three layers of messages for a narration download that times out. *)
Example tts_timeout_message :
  fst (renderVideo
         {| fetch := fun _ => FetchRejected AbortError;
            writeFile := writeFile sampleEnv; random36 := random36 sampleEnv;
            addToQueue := addToQueue sampleEnv; status := status sampleEnv;
            getVideo := getVideo sampleEnv; lateness := lateness sampleEnv |}
         (serviceConfig "binary") sampleRequest sampleState)
  = Throw (Error (lit "Rendering failed: Failed to download TTS audio: TTS download failed: Timed out after 15000ms")).
Proof. vm_compute. reflexivity. Qed.


Lemma downloadTtsAudio_success env config ttsUrl correlationId s httpStatus buffer :
  fetch env TtsAudio = FetchResolved httpStatus (Ok buffer) ->
  responseOk httpStatus = true ->
  exists s',
    downloadTtsAudio env config ttsUrl correlationId s = (Ok buffer, s')
    /\ now s' = now s /\ polls s' = polls s /\ timers s' = timers s.
Proof.
  intros Hfetch Hok. unfold downloadTtsAudio, try_catch.
  destruct (downloadWithTimeout_result env TtsAudio ttsUrl
              (orDefault (Config.audioDownloadTimeoutMs config) 15000)
              (lit "TTS download failed") s) as (r & Hrun & Hr).
  rewrite Hfetch, Hok in Hr. subst r.
  rewrite (bind_Ok _ _ _ _ _ Hrun). unfold bind, log, ret. cbn.
  eexists. split; [reflexivity|]. auto.
Qed.



(* ===================================================================== *)
(** * A render that succeeds                                               *)
(* ===================================================================== *)

(** Asset resolution does not touch the clock or the poll and timer
    counters. *)
Lemma resolveAsset_clock env config correlationId i asset acc s :
  now (snd (resolveAsset env config correlationId i asset acc s)) = now s
  /\ polls (snd (resolveAsset env config correlationId i asset acc s)) = polls s
  /\ timers (snd (resolveAsset env config correlationId i asset acc s)) = timers s.
Proof.
  unfold resolveAsset. destruct acc as [[resolved validCount] fallbackCount].
  destruct (WorkerAsset.videoUrl asset) as [url|]; [|cbn; auto].
  destruct (truthy url); [|cbn; auto].
  unfold try_catch, bind.
  destruct (downloadWithTimeout_result env (AssetAt i) url
              (orDefault (Config.assetDownloadTimeoutMs config) 15000)
              (lit "Asset download failed") s) as (r & -> & _).
  destruct r as [buffer|e]; [|cbn; auto].
  unfold dateNow, randomSuffix, fsWriteFile, ret, log. cbn.
  destruct (writeFile env (AssetFile i)); cbn; auto.
Qed.

Lemma resolveLoop_clock env config correlationId assets :
  forall i acc s,
    now (snd (resolveLoop env config correlationId assets i acc s)) = now s
    /\ polls (snd (resolveLoop env config correlationId assets i acc s)) = polls s
    /\ timers (snd (resolveLoop env config correlationId assets i acc s)) = timers s.
Proof.
  induction assets as [|asset rest IH]; intros i acc s; cbn [resolveLoop].
  - cbn. auto.
  - pose proof (resolveAsset_clock env config correlationId i asset acc s) as Hstep.
    unfold bind.
    destruct (resolveAsset env config correlationId i asset acc s) as [[acc'|e] s1];
      cbn [snd] in *; [|exact Hstep].
    destruct (IH (S i) acc' s1) as (H1 & H2 & H3).
    destruct Hstep as (G1 & G2 & G3). repeat split; congruence.
Qed.

Lemma resolveAssets_runs env config assets correlationId s :
  exists resolved s',
    resolveAssets env config assets correlationId s = (Ok resolved, s')
    /\ now s' = now s /\ polls s' = polls s /\ timers s' = timers s.
Proof.
  destruct (resolveLoop_appends env config correlationId assets 0%nat [] 0 0 s)
    as (entries & valid & fallback & s1 & Hloop & _).
  pose proof (resolveLoop_clock env config correlationId assets 0%nat ([], 0, 0) s)
    as Hclock.
  rewrite Hloop in Hclock. cbn [snd] in Hclock.
  unfold resolveAssets. rewrite (bind_Ok _ _ _ _ _ Hloop). cbn.
  eexists _, _. split; [reflexivity|]. exact Hclock.
Qed.

Lemma renderSteps_succeeds env config request correlationId s
    httpStatus audio videoId video n :
  Validated request ->
  fetch env TtsAudio = FetchResolved httpStatus (Ok audio) ->
  responseOk httpStatus = true ->
  addToQueue env = Ok videoId ->
  (forall k : nat, (k < n)%nat -> classify (status env (polls s + k)) = JobOther) ->
  classify (status env (polls s + n)) = JobReady ->
  elapsedAfter env (timers s) n < 180000 ->
  getVideo env = Ok video ->
  exists s', renderSteps env config request correlationId s = (Ok video, s').
Proof.
  intros Hvalid Hfetch Hok Hq Hother Hready Hdeadline Hvideo.
  destruct (validateRequest_Validated request correlationId s Hvalid)
    as (scenes & Hs & Hrun).
  pose proof Hvalid as (scenes' & cfg & _ & _ & _ & _ & Hc & _).
  unfold renderSteps. rewrite (bind_Ok _ _ _ _ _ Hrun).
  match type of Hrun with _ = (_, ?st) => set (s1 := st) in * end.
  rewrite (bind_Ok _ _ s1 tt
             (emit (EvLog LogInfo [("correlationId", correlationId)]
                      (lit "Downloading TTS audio")) s1)) by reflexivity.
  rewrite Hc. cbn [readProperty]. rewrite (bind_Ok _ _ _ cfg _) by reflexivity.
  destruct (downloadTtsAudio_success env config (WorkerConfig.ttsUrl cfg) correlationId
              (emit (EvLog LogInfo [("correlationId", correlationId)]
                       (lit "Downloading TTS audio")) s1) httpStatus audio Hfetch Hok)
    as (s2 & Htts & Hn2 & Hp2 & Ht2).
  rewrite (bind_Ok _ _ _ _ _ Htts).
  match goal with
  | |- context [bind (log ?l ?f ?m) ?k s2] =>
      rewrite (bind_Ok (log l f m) k s2 tt (emit (EvLog l f (lit m)) s2)) by reflexivity
  end.
  match goal with
  | |- context [resolveAssets env config ?a ?c] =>
      destruct (resolveAssets_runs env config a c
                  (emit (EvLog LogInfo
                           [("correlationId", correlationId);
                            ("assetCount",
                             numToString (Z.of_nat (length (WorkerConfig.assets cfg))))]
                           (lit "Resolving assets")) s2))
        as (resolved & s3 & Hres & Hn3 & Hp3 & Ht3)
  end.
  rewrite (bind_Ok _ _ _ _ _ Hres).
  match goal with
  | |- context [bind (log ?l ?f ?m) ?k s3] =>
      rewrite (bind_Ok (log l f m) k s3 tt (emit (EvLog l f (lit m)) s3)) by reflexivity
  end.
  destruct (Validated_buildRenderPlan request audio resolved
              (emit (EvLog LogInfo [("correlationId", correlationId)]
                       (lit "Building render plan")) s3) Hvalid)
    as (scenes2 & plan & _ & _ & _ & Hplan & _).
  rewrite (bind_Ok _ _ _ _ _ Hplan).
  match goal with
  | |- context [bind (log ?l ?f ?m) ?k ?st] =>
      rewrite (bind_Ok (log l f m) k st tt (emit (EvLog l f (lit m)) st)) by reflexivity
  end.
  match goal with
  | |- context [renderWithRemotion env plan correlationId ?st] => set (s4 := st)
  end.
  assert (Hclock : polls s4 = polls s /\ timers s4 = timers s).
  { subst s4 s1. cbn [emit polls timers] in *. split; congruence. }
  destruct Hclock as [Hp4 Ht4].
  unfold renderWithRemotion, bind, submitToQueue, dateNow. rewrite Hq.
  set (s5 := emit (EvAddToQueue (toSceneInputs plan)) s4).
  assert (Hterminal : classify (status env (polls s5 + n)) <> JobOther).
  { change (polls s5) with (polls s4). rewrite Hp4, Hready. discriminate. }
  destruct (pollLoop_settles env videoId s5 n) as (Hr & _).
  { intros k Hk. change (polls s5) with (polls s4). rewrite Hp4. now apply Hother. }
  { exact Hterminal. }
  { change (timers s5) with (timers s4). rewrite Ht4. exact Hdeadline. }
  change (polls s5) with (polls s4) in Hr. rewrite Hp4, Hready, Hvideo in Hr.
  change (now s4) with (now s5).
  destruct (pollLoop env videoId (now s5) s5) as [r s']. cbn [fst] in Hr. subst r.
  eauto.
Qed.

(** X12: a valid request whose narration downloads, whose job is accepted
    and becomes ['ready'] at a poll before the deadline, yields the
    rendered video in binary mode, whatever happens to the asset
    downloads and to the writes of their temp files. *)
Theorem renderVideo_succeeds_whatever_the_assets env config request s
    httpStatus audio videoId video n :
  Validated request ->
  fetch env TtsAudio = FetchResolved httpStatus (Ok audio) ->
  responseOk httpStatus = true ->
  addToQueue env = Ok videoId ->
  (forall k : nat, (k < n)%nat -> classify (status env (polls s + k)) = JobOther) ->
  classify (status env (polls s + n)) = JobReady ->
  elapsedAfter env (timers s) n < 180000 ->
  getVideo env = Ok video ->
  Config.responseMode config <> lit "url" ->
  fst (renderVideo env config request s) = Ok (BinaryResponse video).
Proof.
  intros Hvalid Hfetch Hok Hq Hother Hready Hdeadline Hvideo Hmode.
  pose proof Hvalid as (scenes & cfg & _ & Hs & _ & _ & Hc & _).
  rewrite (renderVideo_started env config request scenes cfg s Hs Hc).
  destruct (renderSteps_succeeds env config request (correlationIdAt env s)
              (startedState env config scenes cfg s) httpStatus audio videoId video n
              Hvalid Hfetch Hok Hq Hother Hready Hdeadline Hvideo) as (s1 & Hsteps).
  unfold renderAttempt, try_catch. rewrite (bind_Ok _ _ _ _ _ Hsteps).
  unfold respond. rewrite bool_decide_eq_false_2 by exact Hmode.
  reflexivity.
Qed.

Lemma renderVideo_succeeds_whatever_the_assets_witness :
  fst (renderVideo sampleEnv (serviceConfig "binary") sampleRequest sampleState)
  = Ok (BinaryResponse [Byte.x66; Byte.x74; Byte.x79; Byte.x70]).
Proof.
  apply (renderVideo_succeeds_whatever_the_assets sampleEnv (serviceConfig "binary")
           sampleRequest sampleState 200 [Byte.x49; Byte.x44; Byte.x33]
           (lit "cm8video") [Byte.x66; Byte.x74; Byte.x79; Byte.x70] 3).
  - apply (validateRequest_Ok_inv sampleRequest [] sampleState sampleRequest
             (emit (EvLog LogInfo [("correlationId", []); ("sceneCount", lit "2")]
                      (lit "Request validation passed")) sampleState)).
    reflexivity.
  - reflexivity.
  - reflexivity.
  - reflexivity.
  - intros k Hk. destruct k as [|[|[|k]]]; [reflexivity..|lia].
  - reflexivity.
  - vm_compute. reflexivity.
  - reflexivity.
  - vm_compute. discriminate.
Defined.

(* ===================================================================== *)
(** * More on asset resolution                                             *)
(* ===================================================================== *)

(** One turn of the loop: the entry it appends, the counter it
    increments, and the fetch it performs. *)
Lemma resolveAsset_step env config correlationId i asset resolved valid fallback s :
  exists entry valid' fallback' s' new,
    resolveAsset env config correlationId i asset (resolved, valid, fallback) s
    = (Ok (resolved ++ [entry], valid', fallback'), s')
    /\ (valid', fallback')
       = (if bool_decide (is_Some (ResolvedAsset.localPath entry))
          then (valid + 1, fallback) else (valid, fallback + 1))
    /\ events s' = events s ++ new
    /\ filter (fun e => isNetworkCall e = true) new
       = match WorkerAsset.videoUrl asset with
         | Some url =>
             if truthy url
             then [EvFetch url (orDefault (Config.assetDownloadTimeoutMs config) 15000)]
             else []
         | None => []
         end.
Proof.
  unfold resolveAsset.
  destruct (WorkerAsset.videoUrl asset) as [url|];
    [|eexists _, _, _, _, []; cbn; rewrite app_nil_r; auto].
  destruct (truthy url);
    [|eexists _, _, _, _, []; cbn; rewrite app_nil_r; auto].
  unfold try_catch, bind.
  destruct (downloadWithTimeout_result env (AssetAt i) url
              (orDefault (Config.assetDownloadTimeoutMs config) 15000)
              (lit "Asset download failed") s) as (r & -> & _).
  destruct r as [buffer|e].
  - unfold dateNow, randomSuffix, fsWriteFile, ret, log. cbn -[lit numToString path_join].
    destruct (writeFile env (AssetFile i)) as [e|]; cbn -[lit numToString path_join];
      eexists _, _, _, _, _; (split; [reflexivity|]); (split; [reflexivity|]);
      cbn [events emit]; rewrite <- ?app_assoc; (split; [reflexivity|]); reflexivity.
  - unfold log, ret. cbn -[lit numToString].
    eexists _, _, _, _, _; (split; [reflexivity|]); (split; [reflexivity|]);
      cbn [events emit]; rewrite <- ?app_assoc; (split; [reflexivity|]); reflexivity.
Qed.

Lemma resolveLoop_steps env config correlationId assets :
  forall i resolved valid fallback s,
  exists entries s' new,
    resolveLoop env config correlationId assets i (resolved, valid, fallback) s
    = (Ok (resolved ++ entries,
           valid + Z.of_nat (length (filter (fun r => is_Some (ResolvedAsset.localPath r))
                                       entries)),
           fallback + (Z.of_nat (length assets)
                       - Z.of_nat (length (filter
                                             (fun r => is_Some (ResolvedAsset.localPath r))
                                             entries)))),
       s')
    /\ events s' = events s ++ new
    /\ filter (fun e => isNetworkCall e = true) new
       = map (fun url => EvFetch url (orDefault (Config.assetDownloadTimeoutMs config) 15000))
           (assetUrls assets).
Proof.
  induction assets as [|asset rest IH]; intros i resolved valid fallback s.
  - exists [], s, []. cbn. rewrite !app_nil_r, !Z.add_0_r. auto.
  - destruct (resolveAsset_step env config correlationId i asset resolved valid fallback s)
      as (entry & v1 & f1 & s1 & new1 & Hstep & Hcount & Hev1 & Hnet1).
    destruct (IH (S i) (resolved ++ [entry]) v1 f1 s1)
      as (entries & s2 & new2 & Hloop & Hev2 & Hnet2).
    exists (entry :: entries), s2, (new1 ++ new2).
    cbn [resolveLoop]. rewrite (bind_Ok _ _ _ _ _ Hstep), Hloop.
    split; [|split].
    + rewrite <- app_assoc. cbn [app]. rewrite filter_cons.
      destruct (decide (is_Some (ResolvedAsset.localPath entry))) as [Hyes|Hno].
      * rewrite bool_decide_eq_true_2 in Hcount by exact Hyes.
        injection Hcount as -> ->. cbn [length].
        apply (f_equal2 pair); [|reflexivity]. apply f_equal.
        apply (f_equal2 pair); [apply (f_equal2 pair); [reflexivity|lia]|lia].
      * rewrite bool_decide_eq_false_2 in Hcount by exact Hno.
        injection Hcount as -> ->. cbn [length].
        apply (f_equal2 pair); [|reflexivity]. apply f_equal.
        apply (f_equal2 pair); [apply (f_equal2 pair); [reflexivity|lia]|lia].
    + rewrite Hev2, Hev1, app_assoc. reflexivity.
    + rewrite filter_app, Hnet1, Hnet2. unfold assetUrls. cbn [omap list_omap].
      destruct (WorkerAsset.videoUrl asset) as [url|]; [|reflexivity].
      destruct (truthy url); reflexivity.
Qed.

(** X13: the closing log entry of [resolveAssets] reports as
    [validAssets] the number of entries that have a local path and as
    [fallbackAssets] the number of the others; the two add up to the
    number of assets. *)
Theorem resolveAssets_reports_counts env config assets correlationId s :
  exists resolved s1,
    resolveAssets env config assets correlationId s
    = (Ok resolved,
       emit (EvLog LogInfo
               [("correlationId", correlationId);
                ("validAssets",
                 numToString
                   (Z.of_nat (length (filter
                                        (fun r => is_Some (ResolvedAsset.localPath r))
                                        resolved))));
                ("fallbackAssets",
                 numToString
                   (Z.of_nat (length assets)
                    - Z.of_nat (length (filter
                                          (fun r => is_Some (ResolvedAsset.localPath r))
                                          resolved))))]
               (lit "Asset resolution complete")) s1)
    /\ (length (filter (fun r => is_Some (ResolvedAsset.localPath r)) resolved)
        <= length assets)%nat.
Proof.
  destruct (resolveLoop_steps env config correlationId assets 0%nat [] 0 0 s)
    as (entries & s1 & new & Hloop & _ & _).
  destruct (resolveLoop_appends env config correlationId assets 0%nat [] 0 0 s)
    as (entries' & v' & f' & s1' & Hloop' & Hlen & _).
  rewrite Hloop in Hloop'. injection Hloop' as <- _ _ _.
  exists entries, s1. unfold resolveAssets. rewrite (bind_Ok _ _ _ _ _ Hloop).
  cbn [app]. split; [reflexivity|].
  rewrite <- Hlen. apply length_filter.
Qed.

(** X14: [resolveAssets] fetches exactly the non-empty URLs of the
    assets, once each and in the order of the list, with the asset
    timeout; an asset without URL causes no network call. *)
Theorem resolveAssets_fetches env config assets correlationId s :
  exists new,
    events (snd (resolveAssets env config assets correlationId s)) = events s ++ new
    /\ filter (fun e => isNetworkCall e = true) new
       = map (fun url => EvFetch url (orDefault (Config.assetDownloadTimeoutMs config) 15000))
           (assetUrls assets).
Proof.
  destruct (resolveLoop_steps env config correlationId assets 0%nat [] 0 0 s)
    as (entries & s1 & new & Hloop & Hev & Hnet).
  unfold resolveAssets. rewrite (bind_Ok _ _ _ _ _ Hloop). cbn [app].
  unfold bind, log, ret. cbn [snd emit events].
  eexists (new ++ [_]). rewrite Hev, <- app_assoc. split; [reflexivity|].
  rewrite filter_app, Hnet. cbn. now rewrite app_nil_r.
Qed.

(* ===================================================================== *)
(** * More on text sanitisation                                            *)
(* ===================================================================== *)

Lemma stripAstral_cons2 hi lo s :
  stripAstral (hi :: lo :: s)
  = if isHighSurrogate hi && isLowSurrogate lo then stripAstral s
    else hi :: stripAstral (lo :: s).
Proof. reflexivity. Qed.

Lemma stripAstral_sublist_upto n :
  forall s, (length s <= n)%nat -> sublist (stripAstral s) s.
Proof.
  induction n as [|n IH]; intros s Hlen.
  - destruct s; [constructor | simpl in Hlen; lia].
  - destruct s as [|hi [|lo rest]]; [constructor | reflexivity |].
    rewrite stripAstral_cons2. cbn [length] in Hlen.
    destruct (isHighSurrogate hi && isLowSurrogate lo).
    + apply sublist_cons, sublist_cons, IH. lia.
    + apply sublist_skip, IH. cbn [length]. lia.
Qed.

Lemma Forall_of_sublist {A} (P : A -> Prop) (l1 l2 : list A) :
  sublist l1 l2 -> Forall P l2 -> Forall P l1.
Proof.
  induction 1 as [|x l1 l2 _ IH|x l1 l2 _ IH]; intros Hall.
  - constructor.
  - inversion Hall; subst. constructor; auto.
  - inversion Hall; subst. auto.
Qed.

Lemma Forall_kept_filter {A} (P Q : A -> Prop) `{forall x, Decision (Q x)} (l : list A) :
  Forall P l -> Forall P (filter Q l).
Proof. apply Forall_of_sublist, sublist_filter. Qed.

(** X15: on every string, well formed or not, [sanitizeText] only
    removes code units (what is left is in the order of the input) and
    no control code unit is left. *)
Theorem sanitizeText_any_string text :
  sublist (sanitizeText text) text
  /\ Forall (fun u => isControlUnit u = false) (sanitizeText text).
Proof.
  assert (Hsub : sublist (sanitizeText text) (stripControl text)).
  { unfold sanitizeText. now apply (stripAstral_sublist_upto (length (stripControl text))). }
  split.
  - etransitivity; [exact Hsub|]. apply sublist_filter.
  - eapply Forall_of_sublist; [exact Hsub|].
    unfold stripControl. apply Forall_forall. intros u Hu.
    apply list_elem_of_filter in Hu. tauto.
Qed.

Lemma filter_kept_twice (cps : list N) :
  filter (fun c => keptBySanitize c = true) (filter (fun c => keptBySanitize c = true) cps)
  = filter (fun c => keptBySanitize c = true) cps.
Proof.
  induction cps as [|c rest IH]; [reflexivity|].
  rewrite filter_cons. destruct (decide (keptBySanitize c = true)) as [Hk|Hk].
  - rewrite filter_cons_True by exact Hk. now rewrite IH.
  - exact IH.
Qed.

(** X16: on a well-formed text a second pass of [sanitizeText] changes
    nothing. *)
Theorem sanitizeText_idempotent cps :
  Forall (fun c => isScalar c = true) cps ->
  sanitizeText (sanitizeText (utf16 cps)) = sanitizeText (utf16 cps).
Proof.
  intros Hsc. rewrite (sanitizeText_utf16 cps Hsc).
  rewrite sanitizeText_utf16 by (now apply Forall_kept_filter).
  now rewrite filter_kept_twice.
Qed.

Lemma sanitizeText_idempotent_witness :
  sanitizeText (sanitizeText (utf16 [72; 7; 0x1F600; 0x200B; 105]%N))
  = sanitizeText (utf16 [72; 7; 0x1F600; 0x200B; 105]%N).
Proof.
  apply (sanitizeText_idempotent [72; 7; 0x1F600; 0x200B; 105]%N).
  repeat constructor.
Defined.

(** On an ill-formed string one pass is not enough: removing the pair in
    the middle brings two lone surrogates together, which a second pass
    removes. *)
Example sanitizeText_second_pass :
  sanitizeText [0xD83D; 0xD83D; 0xDE00; 0xDE00]%N = [0xD83D; 0xDE00]%N
  /\ sanitizeText [0xD83D; 0xDE00]%N = [].
Proof. split; reflexivity. Qed.

(* ===================================================================== *)
(** * More on the render plan                                              *)
(* ===================================================================== *)

(** What a successful [buildRenderPlan] has read and built. *)
Lemma buildRenderPlan_Ok_inv request audioBuffer resolvedAssets s plan s' :
  buildRenderPlan request audioBuffer resolvedAssets s = (Ok plan, s') ->
  exists scenes cfg resolution,
    ShortVideoRenderRequest.scenes request = Some scenes
    /\ ShortVideoRenderRequest.config request = Some cfg
    /\ parseResolution (WorkerConfig.resolution cfg) = Ok resolution
    /\ s' = s
    /\ plan = {| InternalRenderPlan.width := width resolution;
                 InternalRenderPlan.height := height resolution;
                 InternalRenderPlan.fps := FPS;
                 InternalRenderPlan.scenes := planScenes scenes resolvedAssets 0 0;
                 InternalRenderPlan.audioBuffer := audioBuffer;
                 InternalRenderPlan.tone := WorkerConfig.tone cfg;
                 InternalRenderPlan.platform := WorkerConfig.platform cfg |}.
Proof.
  unfold buildRenderPlan, bind, readProperty, lift, ret, throw.
  destruct (ShortVideoRenderRequest.config request) as [cfg|]; [|discriminate].
  destruct (parseResolution (WorkerConfig.resolution cfg)) as [resolution|e] eqn:Hres;
    [|discriminate].
  destruct (ShortVideoRenderRequest.scenes request) as [scenes|]; [|discriminate].
  intros H. injection H as <- <-. exists scenes, cfg, resolution. auto.
Qed.

Lemma planScenes_ids scenes resolvedAssets :
  forall i currentFrame,
    map InternalSceneRenderPlan.id (planScenes scenes resolvedAssets i currentFrame)
    = map (fun k : nat => lit "scene-" ++ numToString (Z.of_nat k)) (seq i (length scenes)).
Proof.
  induction scenes as [|scene rest IH]; intros i currentFrame; [reflexivity|].
  cbn [planScenes map length seq InternalSceneRenderPlan.id]. f_equal. apply IH.
Qed.

Lemma scene_id_inj (a b : nat) :
  lit "scene-" ++ numToString (Z.of_nat a) = lit "scene-" ++ numToString (Z.of_nat b) ->
  a = b.
Proof.
  intros H. apply app_inv_head in H.
  assert (Hp : parseInt (numToString (Z.of_nat a)) = parseInt (numToString (Z.of_nat b)))
    by (now rewrite H).
  rewrite !parseInt_numToString in Hp. injection Hp as Hp. lia.
Qed.

(** X17: the scenes of a plan built by [buildRenderPlan] have pairwise
    distinct ids, the one at position [k] being ['scene-k']. *)
Theorem buildRenderPlan_scene_ids request audioBuffer resolvedAssets s plan s' :
  buildRenderPlan request audioBuffer resolvedAssets s = (Ok plan, s') ->
  NoDup (map InternalSceneRenderPlan.id (InternalRenderPlan.scenes plan))
  /\ forall (k : nat) p,
       InternalRenderPlan.scenes plan !! k = Some p ->
       InternalSceneRenderPlan.id p = lit "scene-" ++ numToString (Z.of_nat k).
Proof.
  intros H. apply buildRenderPlan_Ok_inv in H
    as (scenes & cfg & resolution & _ & _ & _ & _ & ->).
  cbn [InternalRenderPlan.scenes]. rewrite planScenes_ids. split.
  - apply NoDup_fmap_2; [|apply NoDup_seq].
    intros a b. apply scene_id_inj.
  - intros k p Hp.
    assert (Hid : map InternalSceneRenderPlan.id (planScenes scenes resolvedAssets 0 0) !! k
                  = Some (InternalSceneRenderPlan.id p))
      by (now rewrite list_lookup_fmap, Hp).
    rewrite planScenes_ids, list_lookup_fmap in Hid.
    destruct (seq 0 (length scenes) !! k) as [j|] eqn:Hj; [|discriminate].
    apply lookup_seq in Hj as [-> _]. cbn in Hid. now injection Hid as <-.
Qed.

Lemma buildRenderPlan_scene_ids_witness :
  exists plan,
    buildRenderPlan sampleRequest [] [] sampleState = (Ok plan, sampleState)
    /\ NoDup (map InternalSceneRenderPlan.id (InternalRenderPlan.scenes plan))
    /\ map InternalSceneRenderPlan.id (InternalRenderPlan.scenes plan)
       = [lit "scene-0"; lit "scene-1"].
Proof.
  eexists. split; [reflexivity|]. split; [|reflexivity].
  eapply (buildRenderPlan_scene_ids sampleRequest [] [] sampleState _ sampleState).
  reflexivity.
Defined.




(* ===================================================================== *)
(** * The composition's length                                             *)
(* ===================================================================== *)

(** The [reduce] with an arbitrary initial value: the result is the
    initial value or some scene's end, and it is at least each of them. *)
Lemma fold_max_end scenes :
  forall acc,
    let total := fold_left (fun max s => Z.max max (endFrame s)) scenes acc in
    acc <= total
    /\ Forall (fun s => endFrame s <= total) scenes
    /\ (total = acc \/ Exists (fun s => total = endFrame s) scenes).
Proof.
  induction scenes as [|s rest IH]; intros acc; cbn [fold_left].
  - cbn zeta. split; [lia|]. split; [constructor|]. now left.
  - specialize (IH (Z.max acc (endFrame s))). cbn zeta in *.
    destruct IH as (Hacc & Hall & Hattained).
    split; [lia|]. split; [constructor; [lia|exact Hall]|].
    destruct Hattained as [Heq|Hex]; [|right; now constructor 2].
    destruct (Z.max_spec acc (endFrame s)) as [[_ Hmax]|[_ Hmax]].
    + right. constructor 1. congruence.
    + left. congruence.
Qed.

(** X19: the length that [ShortVerticalVideo] computes for a plan is
    never negative, covers every scene up to its last frame, and is 0 or
    the end frame of one of the scenes. *)
Theorem totalDurationInFrames_covers scenes :
  0 <= totalDurationInFrames scenes
  /\ Forall (fun s =>
               SceneVisualPlan.startFrame s + SceneVisualPlan.durationInFrames s
               <= totalDurationInFrames scenes) scenes
  /\ (totalDurationInFrames scenes = 0
      \/ Exists (fun s =>
                   totalDurationInFrames scenes
                   = SceneVisualPlan.startFrame s + SceneVisualPlan.durationInFrames s)
           scenes).
Proof. exact (fold_max_end scenes 0). Qed.

Lemma fold_max_gapless scenes :
  forall start,
    gaplessFrom start scenes = true ->
    fold_left (fun max s => Z.max max (endFrame s)) scenes start
    = start + sumDurations scenes.
Proof.
  induction scenes as [|s rest IH]; intros start Hgap; cbn [fold_left sumDurations foldr].
  - lia.
  - cbn [gaplessFrom] in Hgap. rewrite !andb_true_iff, Z.eqb_eq, Z.leb_le in Hgap.
    destruct Hgap as [[Hstart Hlen] Hrest].
    fold (sumDurations rest). unfold endFrame at 2. rewrite Hstart.
    rewrite Z.max_r by lia. rewrite (IH _ Hrest). lia.
Qed.

(** X20: for scenes laid out back to back from frame 0, as
    [buildRenderPlan] lays them out, the computed length is the sum of
    the scenes' lengths. *)
Theorem totalDurationInFrames_gapless scenes :
  gaplessFrom 0 scenes = true ->
  totalDurationInFrames scenes = sumDurations scenes.
Proof. intros Hgap. exact (fold_max_gapless scenes 0 Hgap). Qed.

(** The preview plan is 180 frames long, the [durationInFrames] that the
    composition is registered with. *)
Lemma totalDurationInFrames_gapless_witness :
  gaplessFrom 0 mockScenes = true /\ totalDurationInFrames mockScenes = 180.
Proof.
  split; [reflexivity|].
  rewrite (totalDurationInFrames_gapless mockScenes); reflexivity.
Defined.

(** Scenes that overlap or leave a gap are not added up: the length is
    the latest end. *)
Example totalDurationInFrames_overlap :
  totalDurationInFrames
    [SceneVisualPlan.mk (lit "scene-0") 0 90 (lit "a") None [];
     SceneVisualPlan.mk (lit "scene-1") 30 30 (lit "b") None []]
  = 90.
Proof. reflexivity. Qed.

(* ===================================================================== *)
(** * Theme resolution                                                     *)
(* ===================================================================== *)

(** X21: for every tone and colour by colour, a colour of the plan's
    theme that is given takes the place of the tone's default, whatever
    the other two are, and one that is absent gets the default of the
    tone, the same as with no theme colour at all; the caption
    background and the overlay colour depend on the tone alone. *)
Theorem resolveTheme_overrides toUpperCase tone
    (accent background textOnBackground : option jsstring) (colour : jsstring) :
  let theme base := resolveTheme toUpperCase tone base in
  let none := ThemeColors.mk None None None in
  ResolvedTheme.background (theme (ThemeColors.mk accent (Some colour) textOnBackground))
  = colour
  /\ ResolvedTheme.captionText (theme (ThemeColors.mk accent background (Some colour)))
     = colour
  /\ ResolvedTheme.accentColor (theme (ThemeColors.mk (Some colour) background textOnBackground))
     = colour
  /\ ResolvedTheme.background (theme (ThemeColors.mk accent None textOnBackground))
     = ResolvedTheme.background (theme none)
  /\ ResolvedTheme.captionText (theme (ThemeColors.mk accent background None))
     = ResolvedTheme.captionText (theme none)
  /\ ResolvedTheme.accentColor (theme (ThemeColors.mk None background textOnBackground))
     = ResolvedTheme.accentColor (theme none)
  /\ ResolvedTheme.captionBackground
       (theme (ThemeColors.mk accent background textOnBackground))
     = ResolvedTheme.captionBackground (theme none)
  /\ ResolvedTheme.overlayColor
       (theme (ThemeColors.mk accent background textOnBackground))
     = ResolvedTheme.overlayColor (theme none).
Proof.
  cbn zeta. unfold resolveTheme.
  repeat match goal with |- context [bool_decide ?P] => destruct (bool_decide P) end;
    repeat split; reflexivity.
Qed.

(** With the accent alone, as for a plan whose other colours are
    absent: the accent is the given one and the background is the
    default of the tone. *)
Example resolveTheme_accent_only :
  let theme :=
    resolveTheme (fun tone => tone) (lit "EPIC")
      (ThemeColors.mk (Some (lit "#22d3ee")) None None) in
  ResolvedTheme.accentColor theme = lit "#22d3ee"
  /\ ResolvedTheme.background theme = lit "#050510"
  /\ ResolvedTheme.captionText theme = lit "#fef3c7".
Proof. repeat split; reflexivity. Qed.

(* ===================================================================== *)
(** * Failures of a render are logged                                      *)
(* ===================================================================== *)




(* ===================================================================== *)
(** * From the assets to the plan                                          *)
(* ===================================================================== *)

(** X23: in the plan built from the assets that [resolveAssets]
    returned, a scene has an asset path exactly when the request has an
    asset at the scene's index and that asset was downloaded and stored;
    a scene past the end of the asset list, or whose asset failed, has
    none. *)
Theorem plan_asset_binding
    env config request cfg correlationId audioBuffer s resolved s1 plan s2 :
  ShortVideoRenderRequest.config request = Some cfg ->
  resolveAssets env config (WorkerConfig.assets cfg) correlationId s = (Ok resolved, s1) ->
  buildRenderPlan request audioBuffer resolved s1 = (Ok plan, s2) ->
  forall (k : nat) p,
    InternalRenderPlan.scenes plan !! k = Some p ->
    is_Some (InternalSceneRenderPlan.assetPath p)
    <-> exists asset,
          WorkerConfig.assets cfg !! k = Some asset /\ assetObtained env k asset = true.
Proof.
  intros Hc Hres Hplan k p Hp.
  destruct (resolveLoop_appends env config correlationId (WorkerConfig.assets cfg)
              0%nat [] 0 0 s) as (entries & valid & fallback & s' & Hloop & Hlen & Hall).
  unfold resolveAssets in Hres. rewrite (bind_Ok _ _ _ _ _ Hloop) in Hres.
  cbn in Hres. injection Hres as <- _.
  apply buildRenderPlan_Ok_inv in Hplan
    as (scenes & cfg' & resolution & _ & _ & _ & _ & ->).
  cbn [InternalRenderPlan.scenes] in Hp.
  apply planScenes_lookup in Hp as (scene & _ & _ & _ & _ & Hpath).
  rewrite Hpath. cbn [Nat.add].
  destruct (WorkerConfig.assets cfg !! k) as [asset|] eqn:Hasset.
  - destruct (Hall k asset Hasset) as (entry & -> & _ & Hentry). cbn [Nat.add] in Hentry.
    destruct (assetObtained env k asset) eqn:Hob.
    + split; [eauto|]. intros _. apply Hentry.
    + destruct Hentry as [_ ->]. split; [intros [? ?]; discriminate|].
      intros (asset' & Heq & Hob'). congruence.
  - rewrite lookup_ge_None_2.
    + split; [intros [? ?]; discriminate | intros (? & ? & _); discriminate].
    + rewrite Hlen. apply lookup_ge_None_1. exact Hasset.
Qed.

Lemma plan_asset_binding_witness :
  exists resolved s1 plan,
    resolveAssets sampleEnv (serviceConfig "binary") sampleAssets (lit "render-1") sampleState
    = (Ok resolved, s1)
    /\ buildRenderPlan sampleRequest [] resolved s1 = (Ok plan, s1)
    /\ forall (k : nat) p,
         InternalRenderPlan.scenes plan !! k = Some p ->
         is_Some (InternalSceneRenderPlan.assetPath p)
         <-> exists asset,
               sampleAssets !! k = Some asset /\ assetObtained sampleEnv k asset = true.
Proof.
  eexists _, _, _. split; [reflexivity|]. split; [reflexivity|].
  apply (plan_asset_binding sampleEnv (serviceConfig "binary") sampleRequest
           (sampleConfig (lit "1080x1920")) (lit "render-1") [] sampleState
           _ _ _ _ eq_refl eq_refl eq_refl).
Defined.
